(** * seller-apis: reconciliation and batched upload (seller.py, market.py)

    A shallow embedding of the two marketplace integrations of the
    repository: [seller.py] (Ozon) and [market.py] (Yandex Market).

    Conventions of the embedding.
    - A Python [str] is a [string], read as the UTF-8 bytes of the text.
      [split] and [re.sub] only look for the ASCII characters ['.'] and
      ['0'..'9'], and a UTF-8 multi-byte sequence holds no ASCII byte, so
      splitting and filtering bytes agrees with splitting and filtering
      code points.  [int] classifies code points ([code_points]).
    - A cell of the supplier sheet is a [pyval]: a [str], an [int] or
      [None] (what [dict.get] gives for a missing column).  Float cells
      are outside the embedding.
    - An exception is a value of [exn]; a computation that may raise
      returns [exn + A].
    - The mutable list [offer_ids] is threaded explicitly: a function that
      mutates its argument returns the list as it leaves it.
    - Network calls are events of a log, answered by a [transport]; an
      answer of the transport is the outcome of a call that has ended. *)

From Stdlib Require Import ZArith Ascii String DecimalString DecimalPos Lia.
From Stdlib Require Import SpecFloat.
From stdpp Require Import gmap strings list.

Open Scope string_scope.
Open Scope Z_scope.
Open Scope list_scope.

(** ** Python values and exceptions *)

Inductive exn : Type :=
  | ValueError
  | AttributeError
  | TypeError
  | IndexError
  | ReadTimeout
  | ConnectionError
  | HTTPError.

(** The decimal writing of an integer, as [str] gives it. *)
Definition decimal (z : Z) : string := NilZero.string_of_int (Z.to_int z).

(** CPython converts between [int] and decimal text only up to
    [sys.int_info.default_max_str_digits] digits, the sign not counted:
    beyond, [int(s)] and [str(n)] raise [ValueError].  This is the limit
    of CPython 3.11, as the interpreter sets it when nothing is
    configured. *)
Definition int_max_str_digits : Z := 4300.

(** The number of digits of the decimal writing of [z]. *)
Definition decimal_digits (z : Z) : Z :=
  Z.of_nat (String.length (decimal (Z.abs z))).

(** An [int] of the data.  The cells of the sheet and the values of a
    response are read from text, which CPython does only within
    [int_max_str_digits]: such an [int] has a decimal writing and [str]
    does not raise on it. *)
Record pyint : Type := {
  int_value : Z;
  int_within : (decimal_digits int_value <=? int_max_str_digits) = true;
}.

Inductive pyval : Type :=
  | PyStr (s : string)
  | PyInt (n : pyint)
  | PyNone.

(** A record of the supplier feed: one row of [to_dict(orient="records")]. *)
Abbreviation watch := (gmap string pyval).

(** [d.get(key)]: the value, or [None] when the key is missing. *)
Definition get (key : string) (d : watch) : pyval :=
  default PyNone (d !! key).

(** [str(v)]. *)
Definition str (v : pyval) : string :=
  match v with
  | PyStr s => s
  | PyInt n => decimal (int_value n)
  | PyNone => "None"
  end.

(** ** Strings *)

Definition is_digit (c : ascii) : bool :=
  (48 <=? nat_of_ascii c)%nat && (nat_of_ascii c <=? 57)%nat.

(** [s.split(sep)] for a one-character separator: the pieces between the
    separators, in order; never an empty list. *)
Fixpoint split (sep : ascii) (s : string) : list string :=
  match s with
  | EmptyString => [EmptyString]
  | String c rest =>
      if Ascii.eqb c sep then EmptyString :: split sep rest
      else match split sep rest with
           | piece :: pieces => String c piece :: pieces
           | [] => [String c EmptyString]
           end
  end.

(** [l[i]] for [i >= 0]: [IndexError] out of range. *)
Definition index {A : Type} (l : list A) (i : nat) : exn + A :=
  match l !! i with
  | Some x => inr x
  | None => inl IndexError
  end.

(** [re.sub("[^0-9]", "", s)]: every character outside ['0'..'9'] is
    replaced by the empty string. *)
Fixpoint re_sub_non_digit (s : string) : string :=
  match s with
  | EmptyString => EmptyString
  | String c rest =>
      if is_digit c then String c (re_sub_non_digit rest)
      else re_sub_non_digit rest
  end.

(** ** [int] of a text *)

Definition byte (c : ascii) : Z := Z.of_nat (nat_of_ascii c).

(** The code points of a text, decoded from its UTF-8 bytes.  [need]
    bytes of the current sequence are still to come, [acc] holds the bits
    read so far and [low] is the least code point that a sequence of this
    length may encode.  Bytes that are no UTF-8 (and so no text) give the
    code point [-1]. *)
Fixpoint code_points_from (need : nat) (low acc : Z) (s : string) : list Z :=
  match s with
  | EmptyString =>
      match need with
      | O => []
      | Datatypes.S _ => [-1]
      end
  | String c rest =>
      let b := byte c in
      match need with
      | O =>
          if b <? 128 then b :: code_points_from 0 0 0 rest
          else if (192 <=? b) && (b <? 224) then
            code_points_from 1 128 (b - 192) rest
          else if (224 <=? b) && (b <? 240) then
            code_points_from 2 2048 (b - 224) rest
          else if (240 <=? b) && (b <? 248) then
            code_points_from 3 65536 (b - 240) rest
          else -1 :: code_points_from 0 0 0 rest
      | Datatypes.S need' =>
          if (128 <=? b) && (b <? 192) then
            let acc := 64 * acc + (b - 128) in
            match need' with
            | O =>
                (if (low <=? acc) && (acc <? 1114112)
                    && negb ((55296 <=? acc) && (acc <? 57344))
                 then acc else -1) :: code_points_from 0 0 0 rest
            | Datatypes.S _ => code_points_from need' low acc rest
            end
          else -1 :: code_points_from 0 0 0 rest
      end
  end.

Definition code_points (s : string) : list Z := code_points_from 0 0 0 s.

(** The blanks that [int] drops around a literal: TAB, LF, VT, FF, CR and
    the space ([Py_ISSPACE]); beyond ASCII, the white space of Unicode
    ([Py_UNICODE_ISSPACE]), which [int] reads as a space.  The separators
    FS, GS, RS and US (28 to 31) are white space for [str.isspace] but not
    for [int]. *)
Definition is_blank (cp : Z) : bool :=
  ((9 <=? cp) && (cp <=? 13)) || (cp =? 32)
  || (cp =? 133) || (cp =? 160) || (cp =? 5760)
  || ((8192 <=? cp) && (cp <=? 8202))
  || (cp =? 8232) || (cp =? 8233) || (cp =? 8239) || (cp =? 8287)
  || (cp =? 12288).

(** The code points of the digit zero of every script of Unicode 14.0
    (the database of CPython 3.11); the digits one to nine of a script
    follow its zero. *)
Definition decimal_zeros : list Z :=
  [ 48; 1632; 1776; 1984; 2406; 2534; 2662; 2790; 2918; 3046; 3174; 3302;
    3430; 3558; 3664; 3792; 3872; 4160; 4240; 6112; 6160; 6470; 6608; 6784;
    6800; 6992; 7088; 7232; 7248; 42528; 43216; 43264; 43472; 43504; 43600;
    44016; 65296; 66720; 68912; 69734; 69872; 69942; 70096; 70384; 70736;
    70864; 71248; 71360; 71472; 71904; 72016; 72784; 73040; 73120; 92768;
    92864; 93008; 120782; 120792; 120802; 120812; 120822; 123200; 123632;
    125264; 130032 ].

(** The value of a decimal digit ([Py_UNICODE_TODECIMAL]): [None] for a
    code point that is no decimal digit. *)
Definition digit_of (cp : Z) : option Z :=
  match List.find (fun zero => (zero <=? cp) && (cp <=? zero + 9))
                  decimal_zeros with
  | Some zero => Some (cp - zero)
  | None => None
  end.

Fixpoint skip_blanks (cps : list Z) : list Z :=
  match cps with
  | cp :: rest => if is_blank cp then skip_blanks rest else cps
  | [] => []
  end.

(** The digits of an integer literal: decimal digits, where single
    underscores may stand between two digits.  [seen] tells whether the
    previous character was a digit, [acc] is the value read so far and
    [count] the number of digits read.  The scan stops at the first
    character that is neither, and gives what is left. *)
Fixpoint int_digits (seen : bool) (acc count : Z) (cps : list Z)
  : option (Z * Z * list Z) :=
  match cps with
  | [] => if seen then Some (acc, count, []) else None
  | cp :: rest =>
      match digit_of cp with
      | Some d => int_digits true (10 * acc + d) (count + 1) rest
      | None =>
          if cp =? 95 then
            (if seen then int_digits false acc count rest else None)
          else if seen then Some (acc, count, cps)
          else None
      end
  end.

(** [int(s)] for a [str], base 10: blanks, a sign (['+'] is 43, ['-'] is
    45), the digits, blanks, and nothing else; [ValueError] otherwise, and
    when there are more than [int_max_str_digits] digits. *)
Definition int_of_str (s : string) : exn + Z :=
  let body := skip_blanks (code_points s) in
  let '(sign, literal) :=
    match body with
    | cp :: rest =>
        if cp =? 45 then (-1, rest)
        else if cp =? 43 then (1, rest)
        else (1, body)
    | [] => (1, body)
    end in
  match int_digits false 0 0 literal with
  | Some (n, count, rest) =>
      match skip_blanks rest with
      | [] =>
          if count <=? int_max_str_digits then inr (sign * n)
          else inl ValueError
      | _ :: _ => inl ValueError
      end
  | None => inl ValueError
  end.

(** [int(v)]. *)
Definition int (v : pyval) : exn + Z :=
  match v with
  | PyInt n => inr (int_value n)
  | PyStr s => int_of_str s
  | PyNone => inl TypeError
  end.

(** ** Raising computations *)

#[global] Instance exn_ret : MRet (sum exn) := fun A x => inr x.
#[global] Instance exn_bind : MBind (sum exn) := fun A B f m =>
  match m with
  | inl e => inl e
  | inr x => f x
  end.

(** ** The batch partitioner (seller.py, [divide]) *)

(** The number of elements of [range(start, stop, step)], [step <> 0]. *)
Definition range_length (start stop step : Z) : Z :=
  if 0 <? step then
    if start <? stop then 1 + (stop - 1 - start) / step else 0
  else
    if stop <? start then 1 + (start - 1 - stop) / (- step) else 0.

(** [range(start, stop, step)], as the list of its values: [ValueError]
    for a zero step. *)
Definition range (start stop step : Z) : exn + list Z :=
  if step =? 0 then inl ValueError
  else inr (map (fun k => start + Z.of_nat k * step)
                (seq 0 (Z.to_nat (range_length start stop step)))).

(** A slice bound is counted from the end when negative and clamped to
    the list. *)
Definition slice_bound (len i : Z) : Z :=
  if i <? 0 then Z.max 0 (i + len) else Z.min i len.

(** [l[i:j]]. *)
Definition slice {A : Type} (l : list A) (i j : Z) : list A :=
  let len := Z.of_nat (length l) in
  let lo := slice_bound len i in
  let hi := slice_bound len j in
  take (Z.to_nat (hi - lo)) (drop (Z.to_nat lo) l).

(** [divide(lst, n)] is a generator; every caller consumes it at once with
    [list(divide(lst, n))].  The embedding gives what that consumption
    gives: the chunks yielded, in order, or the exception raised. *)
Definition divide {A : Type} (lst : list A) (n : Z) : exn + list (list A) :=
  starts ← range 0 (Z.of_nat (length lst)) n;
  mret (map (fun i => slice lst i (i + n)) starts).

(** ** Quantity and price conversion *)

(** The [if]/[elif]/[else] that computes [stock] from the cell
    ["Количество"] (seller.py lines 192-198, market.py lines 155-161; the
    two blocks are the same text). *)
Definition stock_of (quantity : pyval) : exn + Z :=
  let count := str quantity in
  if String.eqb count ">10" then inr 100
  else if String.eqb count "1" then inr 0
  else int quantity.

(** [price_conversion(price)] (seller.py): a value without [split], that
    is anything but a [str], raises [AttributeError]. *)
Definition price_conversion (price : pyval) : exn + string :=
  match price with
  | PyStr s =>
      prefix ← index (split "." s) 0;
      mret (re_sub_non_digit prefix)
  | PyInt _ | PyNone => inl AttributeError
  end.

(** [offer_ids.remove(x)]: the first occurrence is removed; [ValueError]
    when there is none. *)
Fixpoint remove (x : string) (offer_ids : list string) : exn + list string :=
  match offer_ids with
  | [] => inl ValueError
  | y :: rest =>
      if String.eqb y x then inr rest
      else rest' ← remove x rest; mret (y :: rest')
  end.

(** [x in offer_ids]. *)
Definition contains (x : string) (offer_ids : list string) : bool :=
  existsb (String.eqb x) offer_ids.

(** ** Network calls and the log *)

(** The calls a run makes, with what it sends; [S] and [P] are the
    marketplace's stock and price entries.  Credentials and campaign
    identifiers go unchanged into every call and are left out. *)
Inductive event (S P : Type) : Type :=
  | GetOfferIds
  | DownloadStock
  | UpdateStocks (stocks : list S)
  | UpdatePrice (prices : list P)
  | Print (error : option exn) (text : string).

Arguments GetOfferIds {S P}.
Arguments DownloadStock {S P}.
Arguments UpdateStocks {S P} stocks.
Arguments UpdatePrice {S P} prices.
Arguments Print {S P} error text.

(** The outside world: what each call answers, given the calls made
    before it.  [get_offer_ids] (the paginated catalog fetch) and
    [download_stock] (the supplier archive) are taken whole: the list they
    return or the exception they raise, once they have ended (the loop of
    [get_offer_ids] is embedded on its own below, with the runs in which
    it does not end).  [status] is the exception, if any, that a
    submission raises ([raise_for_status]). *)
Record transport (S P : Type) : Type := {
  catalog : list (event S P) -> exn + list string;
  feed : list (event S P) -> exn + list watch;
  status : list (event S P) -> event S P -> option exn;
}.

Arguments catalog {S P} _ _.
Arguments feed {S P} _ _.
Arguments status {S P} _ _ _.

(** A computation that makes calls: from the log so far to its outcome
    and the log it leaves. *)
Definition io (S P A : Type) : Type :=
  list (event S P) -> (exn + A) * list (event S P).

#[global] Instance io_ret {S P} : MRet (io S P) := fun A x log => (inr x, log).
#[global] Instance io_bind {S P} : MBind (io S P) := fun A B f m log =>
  match m log with
  | (inl e, log') => (inl e, log')
  | (inr x, log') => f x log'
  end.

(** A value computed without calls, or the exception it raised. *)
Definition lift {S P A : Type} (r : exn + A) : io S P A :=
  fun log => (r, log).

(** [for x in items: body(x)]. *)
Fixpoint for_each {S P A : Type} (items : list A) (body : A -> io S P unit)
  : io S P unit :=
  match items with
  | [] => mret tt
  | x :: rest => body x ≫= fun _ => for_each rest body
  end.

(** [try: body / except Exception as error: handler(error)]. *)
Definition try_except {S P A : Type} (body : io S P A)
    (handler : exn -> io S P A) : io S P A :=
  fun log =>
    match body log with
    | (inl e, log') => handler e log'
    | (inr x, log') => (inr x, log')
    end.

Section Calls.
Context {S P : Type}.
Variable net : transport S P.

(** [get_offer_ids(...)]: one event for the whole paginated fetch. *)
Definition get_offer_ids : io S P (list string) :=
  fun log => (catalog net log, log ++ [GetOfferIds]).

(** [download_stock()]. *)
Definition download_stock : io S P (list watch) :=
  fun log => (feed net log, log ++ [DownloadStock]).

(** [update_stocks(stocks, ...)]: the call is logged, then it returns or
    raises as the marketplace decides; the response is not used. *)
Definition update_stocks (stocks : list S) : io S P unit :=
  fun log =>
    (match status net log (UpdateStocks stocks) with
     | Some e => inl e
     | None => inr tt
     end, log ++ [UpdateStocks stocks]).

(** [update_price(prices, ...)]. *)
Definition update_price (prices : list P) : io S P unit :=
  fun log =>
    (match status net log (UpdatePrice prices) with
     | Some e => inl e
     | None => inr tt
     end, log ++ [UpdatePrice prices]).

(** [print(text)] and [print(error, text)]. *)
Definition print (error : option exn) (text : string) : io S P unit :=
  fun log => (inr tt, log ++ [Print error text]).
End Calls.

(** ** seller.py *)

Module Seller.

(** An entry of [stocks]: [{"offer_id": ..., "stock": ...}]. *)
Record stock_entry : Type := {
  offer_id : string;
  stock : Z;
}.

(** An entry of [prices]; its ["offer_id"] key is [price_offer_id]. *)
Record price_entry : Type := {
  auto_action_enabled : string;
  currency_code : string;
  price_offer_id : string;
  old_price : string;
  price : string;
}.

(** The first loop of [create_stocks]: [stocks] and [offer_ids] are the
    two lists it mutates. *)
Fixpoint create_stocks_loop (watch_remnants : list watch)
    (stocks : list stock_entry) (offer_ids : list string)
  : (exn + list stock_entry) * list string :=
  match watch_remnants with
  | [] => (inr stocks, offer_ids)
  | watch :: rest =>
      if contains (str (get "Код" watch)) offer_ids then
        match stock_of (get "Количество" watch) with
        | inl e => (inl e, offer_ids)
        | inr stock =>
            let entry :=
              {| offer_id := str (get "Код" watch); stock := stock |} in
            match remove (str (get "Код" watch)) offer_ids with
            | inl e => (inl e, offer_ids)
            | inr offer_ids' =>
                create_stocks_loop rest (stocks ++ [entry]) offer_ids'
            end
        end
      else create_stocks_loop rest stocks offer_ids
  end.

(** [create_stocks(watch_remnants, offer_ids)]: the list returned (or
    the exception) and [offer_ids] as the call leaves it. *)
Definition create_stocks (watch_remnants : list watch)
    (offer_ids : list string) : (exn + list stock_entry) * list string :=
  match create_stocks_loop watch_remnants [] offer_ids with
  | (inl e, offer_ids') => (inl e, offer_ids')
  | (inr stocks, offer_ids') =>
      (inr (stocks ++
            map (fun offer_id => {| offer_id := offer_id; stock := 0 |})
                offer_ids'),
       offer_ids')
  end.

(** The loop of [create_prices]; [prices] is the list it fills. *)
Fixpoint create_prices_loop (watch_remnants : list watch)
    (prices : list price_entry) (offer_ids : list string)
  : exn + list price_entry :=
  match watch_remnants with
  | [] => inr prices
  | watch :: rest =>
      if contains (str (get "Код" watch)) offer_ids then
        converted ← price_conversion (get "Цена" watch);
        let price :=
          {| auto_action_enabled := "UNKNOWN";
             currency_code := "RUB";
             price_offer_id := str (get "Код" watch);
             old_price := "0";
             price := converted |} in
        create_prices_loop rest (prices ++ [price]) offer_ids
      else create_prices_loop rest prices offer_ids
  end.

(** [create_prices(watch_remnants, offer_ids)]; [offer_ids] is only
    read. *)
Definition create_prices (watch_remnants : list watch)
    (offer_ids : list string) : exn + list price_entry :=
  create_prices_loop watch_remnants [] offer_ids.

Abbreviation call := (event stock_entry price_entry).
Abbreviation run := (io stock_entry price_entry).

Section Orchestrators.
Variable net : transport stock_entry price_entry.

(** The body of the coroutine [upload_prices]. *)
Definition upload_prices (watch_remnants : list watch)
  : run (list price_entry) :=
  offer_ids ← get_offer_ids net;
  prices ← lift (create_prices watch_remnants offer_ids);
  batches ← lift (divide prices 1000);
  for_each batches (update_price net) ≫= fun _ =>
  mret prices.

(** The body of the coroutine [upload_stocks]. *)
Definition upload_stocks (watch_remnants : list watch)
  : run (list stock_entry * list stock_entry) :=
  offer_ids ← get_offer_ids net;
  stocks ← lift (create_stocks watch_remnants offer_ids).1;
  batches ← lift (divide stocks 100);
  for_each batches (update_stocks net) ≫= fun _ =>
  let not_empty := filter (fun entry => stock entry ≠ 0) stocks in
  mret (not_empty, stocks).

(** The [try] block of [main].  [create_prices] receives the list
    object that [create_stocks] has just mutated. *)
Definition main_body : run unit :=
  offer_ids ← get_offer_ids net;
  watch_remnants ← download_stock net;
  let '(created, offer_ids) := create_stocks watch_remnants offer_ids in
  stocks ← lift created;
  stock_batches ← lift (divide stocks 100);
  for_each stock_batches (update_stocks net) ≫= fun _ =>
  prices ← lift (create_prices watch_remnants offer_ids);
  price_batches ← lift (divide prices 900);
  for_each price_batches (update_price net).

(** [main()], from the [try] on: the three [except] clauses print.  The
    two variables have been read by then: [env.str] raises when one is
    not set, before any call is made, and that is no part of the
    embedding. *)
Definition main : run unit :=
  try_except main_body (fun error =>
    match error with
    | ReadTimeout => print None "Превышено время ожидания..."
    | ConnectionError => print (Some error) "Ошибка соединения"
    | _ => print (Some error) "ERROR_2"
    end).
End Orchestrators.

End Seller.

(** ** market.py *)

Module Market.

(** An element of ["items"]. *)
Record item : Type := {
  count : Z;
  type : string;
  updatedAt : string;
}.

(** An entry of [stocks]. *)
Record stock_entry : Type := {
  sku : string;
  warehouseId : string;
  items : list item;
}.

(** The value of the key ["price"] of an entry of [prices]. *)
Record price_value : Type := {
  value : Z;
  currencyId : string;
}.

(** An entry of [prices]. *)
Record price_entry : Type := {
  id : string;
  price : price_value;
}.

Section CreateStocks.
(** [date] is the clock reading taken once at the start of
    [create_stocks]. *)
Variables (warehouse_id date : string).

(** The first loop of [create_stocks]. *)
Fixpoint create_stocks_loop (watch_remnants : list watch)
    (stocks : list stock_entry) (offer_ids : list string)
  : (exn + list stock_entry) * list string :=
  match watch_remnants with
  | [] => (inr stocks, offer_ids)
  | watch :: rest =>
      if contains (str (get "Код" watch)) offer_ids then
        match stock_of (get "Количество" watch) with
        | inl e => (inl e, offer_ids)
        | inr stock =>
            let entry :=
              {| sku := str (get "Код" watch);
                 warehouseId := warehouse_id;
                 items := [ {| count := stock;
                               type := "FIT";
                               updatedAt := date |} ] |} in
            match remove (str (get "Код" watch)) offer_ids with
            | inl e => (inl e, offer_ids)
            | inr offer_ids' =>
                create_stocks_loop rest (stocks ++ [entry]) offer_ids'
            end
        end
      else create_stocks_loop rest stocks offer_ids
  end.

(** [create_stocks(watch_remnants, offer_ids, warehouse_id)]: the list
    returned (or the exception) and [offer_ids] as the call leaves
    it. *)
Definition create_stocks (watch_remnants : list watch)
    (offer_ids : list string) : (exn + list stock_entry) * list string :=
  match create_stocks_loop watch_remnants [] offer_ids with
  | (inl e, offer_ids') => (inl e, offer_ids')
  | (inr stocks, offer_ids') =>
      (inr (stocks ++
            map (fun offer_id =>
                   {| sku := offer_id;
                      warehouseId := warehouse_id;
                      items := [ {| count := 0;
                                    type := "FIT";
                                    updatedAt := date |} ] |})
                offer_ids'),
       offer_ids')
  end.
End CreateStocks.

(** The loop of [create_prices]: the converted price goes through
    [int]. *)
Fixpoint create_prices_loop (watch_remnants : list watch)
    (prices : list price_entry) (offer_ids : list string)
  : exn + list price_entry :=
  match watch_remnants with
  | [] => inr prices
  | watch :: rest =>
      if contains (str (get "Код" watch)) offer_ids then
        converted ← price_conversion (get "Цена" watch);
        value ← int (PyStr converted);
        let price :=
          {| id := str (get "Код" watch);
             price := {| value := value; currencyId := "RUR" |} |} in
        create_prices_loop rest (prices ++ [price]) offer_ids
      else create_prices_loop rest prices offer_ids
  end.

(** [create_prices(watch_remnants, offer_ids)]. *)
Definition create_prices (watch_remnants : list watch)
    (offer_ids : list string) : exn + list price_entry :=
  create_prices_loop watch_remnants [] offer_ids.

Abbreviation call := (event stock_entry price_entry).
Abbreviation run := (io stock_entry price_entry).

Section Orchestrators.
Variable net : transport stock_entry price_entry.
(** [date] is the clock reading that [create_stocks] takes. *)
Variable date : string.

(** The body of the coroutine [upload_prices]. *)
Definition upload_prices (watch_remnants : list watch)
  : run (list price_entry) :=
  offer_ids ← get_offer_ids net;
  prices ← lift (create_prices watch_remnants offer_ids);
  batches ← lift (divide prices 500);
  for_each batches (update_price net) ≫= fun _ =>
  mret prices.

(** The body of the coroutine [upload_stocks]. *)
Definition upload_stocks (watch_remnants : list watch)
    (warehouse_id : string)
  : run (list stock_entry * list stock_entry) :=
  offer_ids ← get_offer_ids net;
  stocks ←
    lift (create_stocks warehouse_id date watch_remnants offer_ids).1;
  batches ← lift (divide stocks 2000);
  for_each batches (update_stocks net) ≫= fun _ =>
  not_empty ←
    lift (foldr (fun entry kept =>
                   kept ← kept;
                   first ← index (items entry) 0;
                   mret (if bool_decide (count first ≠ 0)
                         then entry :: kept else kept))
                (inr []) stocks);
  mret (not_empty, stocks).
End Orchestrators.

End Market.

(** ** The catalog fetchers *)

(** [if x:] on a value: [None], the empty string and 0 are false. *)
Definition truthy (v : pyval) : bool :=
  match v with
  | PyNone => false
  | PyStr s => negb (String.eqb s EmptyString)
  | PyInt n => negb (int_value n =? 0)
  end.

(** What [json.loads] can put under a key of a response: [None], a
    Boolean, an [int], a [float] (a binary64 number, an infinity or a
    NaN), a [str], or a list or dict, whose content plays no part here. *)
Inductive json : Type :=
  | JNull
  | JBool (b : bool)
  | JInt (z : Z)
  | JFloat (x : spec_float)
  | JStr (s : string)
  | JComposite.

(** [v == n] for an [int] [n].  Numbers are compared by value: [True] is
    1 and [False] is 0, a finite [float] equals [n] when it is exactly
    [n]; any other value differs from every [int]. *)
Definition eq_int (v : json) (n : Z) : bool :=
  match v with
  | JInt z => z =? n
  | JBool b => (if b then 1 else 0) =? n
  | JFloat (S754_zero _) => n =? 0
  | JFloat (S754_finite sign m e) =>
      let mantissa := if sign then Z.neg m else Z.pos m in
      if 0 <=? e then mantissa * 2 ^ e =? n
      else mantissa =? n * 2 ^ (- e)
  | JFloat (S754_infinity _) | JFloat S754_nan => false
  | JNull | JStr _ | JComposite => false
  end.

(** seller.py, [get_product_list] and [get_offer_ids]. *)
Module SellerFetch.

(** An element of ["items"]: a dict of which ["offer_id"] is read. *)
Abbreviation product := (gmap string pyval).

(** The value of ["result"] in a response of the listing: [items] is
    [None] when the key ["items"] is missing, [total] is [JNull] when the
    key ["total"] is. *)
Record result : Type := {
  items : option (list product);
  total : json;
  last_id : pyval;
}.

(** The listing endpoint, as [get_product_list(last_id, ...)] sees it:
    what request number [n], sent with [last_id], returns (the value of
    ["result"], [None] when the response has none) or raises. *)
Definition endpoint : Type := nat -> pyval -> exn + option result.

(** The [while True] loop of [get_offer_ids], run for at most [fuel]
    requests: [None] when the loop has not ended by then.  [requests] are
    the values of [last_id] sent so far. *)
Fixpoint get_offer_ids_loop (fuel : nat) (server : endpoint)
    (requests : list pyval) (last_id : pyval) (product_list : list product)
  : option ((exn + list product) * list pyval) :=
  match fuel with
  | O => None
  | Datatypes.S fuel' =>
      let sent := requests ++ [last_id] in
      match server (length requests) last_id with
      | inl e => Some (inl e, sent)
      | inr None => Some (inl AttributeError, sent)
      | inr (Some some_prod) =>
          match items some_prod with
          | None => Some (inl TypeError, sent)
          | Some more =>
              let product_list := product_list ++ more in
              if eq_int (total some_prod) (Z.of_nat (length product_list))
              then Some (inr product_list, sent)
              else get_offer_ids_loop fuel' server sent (SellerFetch.last_id some_prod)
                     product_list
          end
      end
  end.

(** [get_offer_ids(client_id, seller_token)]: the list returned (or the
    exception) and the requests made. *)
Definition get_offer_ids (fuel : nat) (server : endpoint)
  : option ((exn + list pyval) * list pyval) :=
  match get_offer_ids_loop fuel server [] (PyStr EmptyString) [] with
  | None => None
  | Some (inl e, sent) => Some (inl e, sent)
  | Some (inr product_list, sent) =>
      Some (inr (map (get "offer_id") product_list), sent)
  end.

End SellerFetch.

(** market.py, [get_product_list] and [get_offer_ids]. *)
Module MarketFetch.

(** An element of ["offerMappingEntries"]: [offer] is the dict under
    ["offer"], [None] when the key is missing. *)
Record entry : Type := {
  offer : option (gmap string pyval);
}.

(** The value of ["result"] in a response: [paging] is the dict under
    ["paging"], given by its ["nextPageToken"] ([PyNone] when that key is
    missing); both fields are [None] when their key is missing. *)
Record result : Type := {
  offerMappingEntries : option (list entry);
  paging : option pyval;
}.

(** The listing endpoint, as [get_product_list(page, ...)] sees it. *)
Definition endpoint : Type := nat -> pyval -> exn + option result.

(** The [while True] loop of [get_offer_ids], run for at most [fuel]
    requests. *)
Fixpoint get_offer_ids_loop (fuel : nat) (server : endpoint)
    (requests : list pyval) (page : pyval) (product_list : list entry)
  : option ((exn + list entry) * list pyval) :=
  match fuel with
  | O => None
  | Datatypes.S fuel' =>
      let sent := requests ++ [page] in
      match server (length requests) page with
      | inl e => Some (inl e, sent)
      | inr None => Some (inl AttributeError, sent)
      | inr (Some some_prod) =>
          match offerMappingEntries some_prod with
          | None => Some (inl TypeError, sent)
          | Some more =>
              let product_list := product_list ++ more in
              match paging some_prod with
              | None => Some (inl AttributeError, sent)
              | Some page =>
                  if truthy page
                  then get_offer_ids_loop fuel' server sent page product_list
                  else Some (inr product_list, sent)
              end
          end
      end
  end.

(** The last loop of [get_offer_ids]:
    [offer_ids.append(product.get("offer").get("shopSku"))]. *)
Fixpoint shop_skus (product_list : list entry) (offer_ids : list pyval)
  : exn + list pyval :=
  match product_list with
  | [] => inr offer_ids
  | product :: rest =>
      match offer product with
      | None => inl AttributeError
      | Some fields => shop_skus rest (offer_ids ++ [get "shopSku" fields])
      end
  end.

(** [get_offer_ids(campaign_id, market_token)]. *)
Definition get_offer_ids (fuel : nat) (server : endpoint)
  : option ((exn + list pyval) * list pyval) :=
  match get_offer_ids_loop fuel server [] (PyStr EmptyString) [] with
  | None => None
  | Some (inl e, sent) => Some (inl e, sent)
  | Some (inr product_list, sent) => Some (shop_skus product_list [], sent)
  end.

End MarketFetch.

(** ** market.py, [main] *)

Module MarketMain.

Section Main.
Variable net : transport Market.stock_entry Market.price_entry.
(** What [env.str] has read for [WAREHOUSE_FBS_ID] and
    [WAREHOUSE_DBS_ID], and the two clock readings of [create_stocks].
    The embedding starts where the five variables have been read:
    [env.str] raises when one is not set, before any call is made. *)
Variables (warehouse_fbs_id warehouse_dbs_id date_fbs date_dbs : string).

(** One half of the [try] block, for one campaign.  The call
    [upload_prices(...)] is not awaited: it builds a coroutine and the
    body of [upload_prices] is not run. *)
Definition campaign (watch_remnants : list watch) (warehouse_id date : string)
  : Market.run unit :=
  offer_ids ← get_offer_ids net;
  stocks ← lift (Market.create_stocks warehouse_id date watch_remnants
                   offer_ids).1;
  batches ← lift (divide stocks 2000);
  for_each batches (update_stocks net) ≫= fun _ =>
  let coroutine := Market.upload_prices net watch_remnants in
  mret tt.

(** [main()], from [download_stock()] on, which stands before the
    [try]. *)
Definition main : Market.run unit :=
  watch_remnants ← download_stock net;
  try_except
    (campaign watch_remnants warehouse_fbs_id date_fbs ≫= fun _ =>
     campaign watch_remnants warehouse_dbs_id date_dbs)
    (fun error =>
       match error with
       | ReadTimeout => print None "Превышено время ожидания..."
       | ConnectionError => print (Some error) "Ошибка соединения"
       | _ => print (Some error) "ERROR_2"
       end).
End Main.

End MarketMain.

(** ** Notions used in the statements *)

(** The item code of a record, as both integrations read it. *)
Definition code (w : watch) : string := str (get "Код" w).

(** The first record of the feed that carries a given code. *)
Definition first_record (id : string) (watch_remnants : list watch)
  : option watch :=
  List.find (fun w => String.eqb (code w) id) watch_remnants.

(** The part of a string that comes before the first [sep]; the whole
    string when [sep] does not occur. *)
Fixpoint before_first (sep : ascii) (s : string) : string :=
  match s with
  | EmptyString => EmptyString
  | String c rest =>
      if Ascii.eqb c sep then EmptyString
      else String c (before_first sep rest)
  end.

(** The digits of an integer literal, with the values they stand for: a
    digit; or a digit before more digits; or a digit, one underscore and
    more digits. *)
Inductive digit_groups : list Z -> list Z -> Prop :=
  | digits_one cp d :
      digit_of cp = Some d -> digit_groups [cp] [d]
  | digits_next cp d cps ds :
      digit_of cp = Some d -> digit_groups cps ds ->
      digit_groups (cp :: cps) (d :: ds)
  | digits_underscore cp d cps ds :
      digit_of cp = Some d -> digit_groups cps ds ->
      digit_groups (cp :: 95 :: cps) (d :: ds).

(** The values of the characters of a text of ASCII digits. *)
Definition digit_values (s : string) : list Z :=
  map (fun c => byte c - 48) (list_ascii_of_string s).

(** The number that digit values write in base 10. *)
Definition base10 (ds : list Z) : Z :=
  foldl (fun acc d => 10 * acc + d) 0 ds.

(** The code points [cps] write the integer [z] in base 10: blanks, an
    optional sign (['+'] is 43, ['-'] is 45), at most 4300 digits in
    groups joined by single underscores (95), blanks. *)
Definition int_literal (cps : list Z) (z : Z) : Prop :=
  exists before sign body after ds,
    cps = before ++ sign ++ body ++ after /\
    Forall (fun cp => is_blank cp = true) before /\
    Forall (fun cp => is_blank cp = true) after /\
    digit_groups body ds /\
    Z.of_nat (length ds) <= 4300 /\
    ((sign = [] /\ z = base10 ds) \/
     (sign = [43] /\ z = base10 ds) \/
     (sign = [45] /\ z = - base10 ds)).

(** The characters of a string. *)
Definition chars (s : string) : list ascii := list_ascii_of_string s.

(** The number of chunks [divide] yields for a positive size. *)
Definition chunk_count {A : Type} (lst : list A) (n : Z) : nat :=
  Z.to_nat (range_length 0 (Z.of_nat (length lst)) n).



(** The batches of stocks, and those of prices, that calls submit, in the
    order of the calls. *)
Definition stock_batches {S P : Type} (calls : list (event S P))
  : list (list S) :=
  omap (fun ev => match ev with
                  | UpdateStocks stocks => Some stocks
                  | _ => None
                  end) calls.

Definition price_batches {S P : Type} (calls : list (event S P))
  : list (list P) :=
  omap (fun ev => match ev with
                  | UpdatePrice prices => Some prices
                  | _ => None
                  end) calls.


(** The call submits prices. *)
Definition is_update_price {S P : Type} (ev : event S P) : bool :=
  match ev with
  | UpdatePrice _ => true
  | _ => false
  end.

(** The Yandex Market entry that corresponds to an Ozon stock entry. *)
Definition to_market (warehouse_id date : string) (entry : Seller.stock_entry)
  : Market.stock_entry :=
  {| Market.sku := Seller.offer_id entry;
     Market.warehouseId := warehouse_id;
     Market.items := [ {| Market.count := Seller.stock entry;
                          Market.type := "FIT";
                          Market.updatedAt := date |} ] |}.

(** The supplier feed of the end-to-end scenario of the specification. *)
Definition scenario_feed : list watch :=
  [ <["Код" := PyStr "A"]> (<["Количество" := PyStr ">10"]>
      (<["Цена" := PyStr "1'000.00 руб."]> ∅));
    <["Код" := PyStr "C"]> (<["Количество" := PyStr "1"]>
      (<["Цена" := PyStr "2'500.00 руб."]> ∅)) ].

(** What a computation does to the log and what it returns: from any log
    it only appends calls that satisfy [Q], and a value it returns
    satisfies [R]. *)
Definition io_spec {S P A : Type} (Q : event S P -> Prop) (R : A -> Prop)
    (m : io S P A) : Prop :=
  forall log, exists new,
    (m log).2 = log ++ new /\ Forall Q new /\
    forall x, (m log).1 = inr x -> R x.

(** The calls that a computation appends to the log. *)
Definition new_calls {S P A : Type} (m : io S P A) (log new : list (event S P))
  : Prop :=
  (m log).2 = log ++ new.

(** A catalog of 250 offer ids: the decimal numbers from 0 to 249. *)
Definition scenario_catalog : list string :=
  map (fun n => NilZero.string_of_uint (Nat.to_uint n)) (seq 0 250).

(** A marketplace with 250 offers and an empty feed whose second
    submission is refused. *)
Definition second_call_fails : transport Seller.stock_entry Seller.price_entry :=
  {| catalog := fun _ => inr scenario_catalog;
     feed := fun _ => inr [];
     status := fun log _ =>
       if (length log =? 2)%nat then Some HTTPError else None |}.

(** A feed of one record. *)
Definition single_record_feed : list watch :=
  [ <["Код" := PyStr "A"]> (<["Количество" := PyStr "5"]>
      (<["Цена" := PyStr "10.00"]> ∅)) ].

(** A marketplace whose catalog list holds the id ["A"] twice. *)
Definition repeated_id_catalog
  : transport Seller.stock_entry Seller.price_entry :=
  {| catalog := fun _ => inr ["A"; "A"];
     feed := fun _ => inr single_record_feed;
     status := fun _ _ => None |}.

(** The marketplace of the end-to-end scenario of the specification. *)
Definition distinct_ids_catalog
  : transport Seller.stock_entry Seller.price_entry :=
  {| catalog := fun _ => inr ["A"; "B"; "C"];
     feed := fun _ => inr scenario_feed;
     status := fun _ _ => None |}.

(** The Ozon price entry of a record whose price converts to
    [converted]. *)
Definition seller_price_of (w : watch) (converted : string)
  : Seller.price_entry :=
  {| Seller.auto_action_enabled := "UNKNOWN";
     Seller.currency_code := "RUB";
     Seller.price_offer_id := code w;
     Seller.old_price := "0";
     Seller.price := converted |}.

(** The records of the feed whose code is in [offer_ids], in feed
    order. *)
Definition catalogued (offer_ids : list string) (watch_remnants : list watch)
  : list watch :=
  List.filter (fun w => contains (code w) offer_ids) watch_remnants.

(** A feed of one record whose quantity is no number. *)
Definition malformed_feed : list watch :=
  [ <["Код" := PyStr "A"]> (<["Количество" := PyStr "abc"]>
      (<["Цена" := PyStr "10.00"]> ∅)) ].

(** A marketplace whose catalog is the single id ["A"]. *)
Definition single_id_catalog
  : transport Seller.stock_entry Seller.price_entry :=
  {| catalog := fun _ => inr ["A"];
     feed := fun _ => inr malformed_feed;
     status := fun _ _ => None |}.

(** The Yandex Market price entry that corresponds to an Ozon price
    entry: the price string goes through [int]. *)
Definition market_price_of (p : Seller.price_entry) : exn + Market.price_entry :=
  value ← int (PyStr (Seller.price p));
  mret {| Market.id := Seller.price_offer_id p;
          Market.price := {| Market.value := value;
                             Market.currencyId := "RUR" |} |}.

(** What the [except] clauses of [main] print for an exception. *)
Definition report {S P : Type} (e : exn) : event S P :=
  match e with
  | ReadTimeout => Print None "Превышено время ожидания..."
  | ConnectionError => Print (Some e) "Ошибка соединения"
  | _ => Print (Some e) "ERROR_2"
  end.

(** The call prints. *)
Definition is_print {S P : Type} (ev : event S P) : bool :=
  match ev with
  | Print _ _ => true
  | _ => false
  end.

(** A batch of at most 2000 stock entries, all for one warehouse. *)
Definition warehouse_batch (warehouse_id : string)
    (batch : list Market.stock_entry) : Prop :=
  (length batch <= 2000)%nat /\
  Forall (fun entry => Market.warehouseId entry = warehouse_id) batch.

(** A Yandex Market transport for the scenario of the specification, and
    one whose supplier download times out. *)
Definition market_scenario
  : transport Market.stock_entry Market.price_entry :=
  {| catalog := fun _ => inr ["A"; "B"; "C"];
     feed := fun _ => inr scenario_feed;
     status := fun _ _ => None |}.

Definition market_feed_down
  : transport Market.stock_entry Market.price_entry :=
  {| catalog := fun _ => inr ["A"; "B"; "C"];
     feed := fun _ => inl ReadTimeout;
     status := fun _ _ => None |}.

(** One whose catalog cannot be reached. *)
Definition market_catalog_down
  : transport Market.stock_entry Market.price_entry :=
  {| catalog := fun _ => inl ConnectionError;
     feed := fun _ => inr scenario_feed;
     status := fun _ _ => None |}.

(** Pages of the Ozon listing: the products of a page ([[]] when it has
    no ["items"]), the products of the first [k] pages, and the values of
    [last_id] that the loop sends when it is answered with these pages. *)
Definition page_items (q : SellerFetch.result) : list SellerFetch.product :=
  default [] (SellerFetch.items q).

Definition received (pages : list SellerFetch.result) (k : nat)
  : list SellerFetch.product :=
  concat (map page_items (take k pages)).

Definition cursors (pages : list SellerFetch.result) : list pyval :=
  PyStr EmptyString :: map SellerFetch.last_id pages.

(** The value under ["total"] is a number below [n], or no number at
    all: [None], a [str], a list, a dict, an infinity or a NaN.  [True]
    counts as 1 and [False] as 0; a finite [float] stands for the number
    [m * 2 ^ e], with its sign. *)
Definition total_below (total : json) (n : Z) : Prop :=
  match total with
  | JInt t => t < n
  | JBool b => (if b then 1 else 0) < n
  | JFloat (S754_zero _) => 0 < n
  | JFloat (S754_finite sign m e) =>
      let mantissa := if sign then Z.neg m else Z.pos m in
      if 0 <=? e then mantissa * 2 ^ e < n
      else mantissa < n * 2 ^ (- e)
  | JFloat (S754_infinity _) | JFloat S754_nan => True
  | JNull | JStr _ | JComposite => True
  end.

(** The server answers the first requests of the loop with [pages], none
    of which completes the count: request [i], sent with the [last_id] of
    page [i - 1], gets page [i], whose [total] differs from the number of
    products received so far. *)
Definition incomplete_pages (server : SellerFetch.endpoint)
    (pages : list SellerFetch.result) : Prop :=
  forall (i : nat) q, pages !! i = Some q ->
    exists c more,
      cursors pages !! i = Some c /\
      server i c = inr (Some q) /\
      SellerFetch.items q = Some more /\
      eq_int (SellerFetch.total q)
             (Z.of_nat (length (received pages (Datatypes.S i)))) = false.

(** The [last_id] sent after [pages]. *)
Definition next_cursor (pages : list SellerFetch.result) : pyval :=
  match last pages with
  | Some q => SellerFetch.last_id q
  | None => PyStr EmptyString
  end.

(** A listing of three products served in two pages, and one that
    reports no total. *)
Definition first_page : SellerFetch.result :=
  {| SellerFetch.items := Some [ {["offer_id" := PyStr "A"]};
                                 {["offer_id" := PyStr "B"]} ];
     SellerFetch.total := JInt 3;
     SellerFetch.last_id := PyStr "x" |}.

Definition second_page : SellerFetch.result :=
  {| SellerFetch.items := Some [ {["offer_id" := PyStr "C"]} ];
     SellerFetch.total := JInt 3;
     SellerFetch.last_id := PyStr EmptyString |}.

Definition two_pages : SellerFetch.endpoint :=
  fun n _ => inr (Some (if (n =? 0)%nat then first_page else second_page)).

Definition no_total : SellerFetch.endpoint :=
  fun _ _ => inr (Some {| SellerFetch.items := Some [];
                          SellerFetch.total := JNull;
                          SellerFetch.last_id := PyStr EmptyString |}).

Definition second_request_times_out : SellerFetch.endpoint :=
  fun n _ => if (n =? 0)%nat then inr (Some first_page) else inl ReadTimeout.

(** Pages of the Yandex Market listing: the entries of a page, the
    [nextPageToken] of a page, the page tokens that the loop sends, and
    the ["shopSku"] of an entry. *)
Definition page_entries (q : MarketFetch.result) : list MarketFetch.entry :=
  default [] (MarketFetch.offerMappingEntries q).

Definition page_token (q : MarketFetch.result) : pyval :=
  default PyNone (MarketFetch.paging q).

Definition tokens (pages : list MarketFetch.result) : list pyval :=
  PyStr EmptyString :: map page_token pages.

Definition next_token (pages : list MarketFetch.result) : pyval :=
  match last pages with
  | Some q => page_token q
  | None => PyStr EmptyString
  end.

Definition shop_sku (product : MarketFetch.entry) : pyval :=
  match MarketFetch.offer product with
  | Some fields => get "shopSku" fields
  | None => PyNone
  end.

(** The server answers the first requests of the loop with [pages], each
    of which names a next page. *)
Definition more_pages (server : MarketFetch.endpoint)
    (pages : list MarketFetch.result) : Prop :=
  forall (i : nat) q, pages !! i = Some q ->
    exists c more token,
      tokens pages !! i = Some c /\
      server i c = inr (Some q) /\
      MarketFetch.offerMappingEntries q = Some more /\
      MarketFetch.paging q = Some token /\
      truthy token = true.

(** A listing of two entries in two pages; the second entry of
    [broken_listing] has no ["offer"]. *)
Definition market_first_page : MarketFetch.result :=
  {| MarketFetch.offerMappingEntries :=
       Some [ {| MarketFetch.offer := Some {["shopSku" := PyStr "A"]} |} ];
     MarketFetch.paging := Some (PyStr "next") |}.

Definition market_last_page (product : MarketFetch.entry)
  : MarketFetch.result :=
  {| MarketFetch.offerMappingEntries := Some [product];
     MarketFetch.paging := Some PyNone |}.

Definition market_listing : MarketFetch.endpoint :=
  fun n _ =>
    inr (Some (if (n =? 0)%nat then market_first_page
               else market_last_page
                      {| MarketFetch.offer := Some {["shopSku" := PyStr "B"]} |})).

Definition endless_listing : MarketFetch.endpoint :=
  fun _ _ => inr (Some market_first_page).

(** The count of the first item of a Yandex Market stock entry (0 when it
    has no item). *)
Definition first_count (entry : Market.stock_entry) : Z :=
  match Market.items entry with
  | first :: _ => Market.count first
  | [] => 0
  end.

(** * Properties *)

(** ** The batch partitioner *)

Section DivideFacts.
Context {A : Type}.
Implicit Types (lst : list A) (n : Z).

Lemma slice_chunk lst n (k : nat) :
  0 < n ->
  slice lst (0 + Z.of_nat k * n) (0 + Z.of_nat k * n + n)
  = take (Z.to_nat n) (drop (k * Z.to_nat n) lst).
Proof.
  intros Hn. unfold slice, slice_bound.
  set (len := Z.of_nat (length lst)).
  set (m := Z.to_nat n).
  assert (Hm : n = Z.of_nat m) by lia.
  assert (Hkm : Z.of_nat k * n = Z.of_nat (k * m)) by lia.
  rewrite Z.add_0_l, Hkm. clearbody m. subst n. clear Hkm.
  destruct (Z.ltb_spec (Z.of_nat (k * m)) 0); [lia|].
  destruct (Z.ltb_spec (Z.of_nat (k * m) + Z.of_nat m) 0); [lia|].
  destruct (Z.le_gt_cases len (Z.of_nat (k * m))) as [Hout|Hin].
  - rewrite !Z.min_r by lia. subst len.
    rewrite Nat2Z.id, drop_all. rewrite drop_ge by lia.
    by rewrite !take_nil.
  - rewrite (Z.min_l (Z.of_nat (k * m)) len) by lia.
    rewrite Nat2Z.id.
    destruct (Z.le_gt_cases (Z.of_nat (k * m) + Z.of_nat m) len); subst len.
    + rewrite Z.min_l by lia. f_equal. lia.
    + rewrite Z.min_r by lia.
      rewrite !take_ge; [done| |]; rewrite length_drop; lia.
Qed.

Lemma concat_chunks lst (m : nat) (a c : nat) :
  concat (map (fun k => take m (drop (k * m) lst)) (seq a c))
  = take (c * m) (drop (a * m) lst).
Proof.
  revert a. induction c as [|c IH]; intros a; simpl; [done|].
  rewrite IH. replace (S a * m)%nat with (a * m + m)%nat by lia.
  rewrite <- drop_drop. by rewrite <- take_take_drop.
Qed.

(** For a positive size, chunk [k] is the [n] elements from position
    [k * n] on. *)
Lemma divide_chunks lst n :
  0 < n ->
  divide lst n
  = inr (map (fun k => take (Z.to_nat n) (drop (k * Z.to_nat n) lst))
             (seq 0 (chunk_count lst n))).
Proof.
  intros Hn. unfold divide, range.
  destruct (Z.eqb_spec n 0); [lia|]. simpl. f_equal.
  rewrite map_map. apply map_ext. intros k. by apply slice_chunk.
Qed.

Lemma chunk_count_bounds lst n :
  0 < n ->
  (length lst <= chunk_count lst n * Z.to_nat n)%nat /\
  (lst <> [] -> (chunk_count lst n - 1) * Z.to_nat n < length lst)%nat /\
  (lst = [] -> chunk_count lst n = 0%nat).
Proof.
  intros Hn. unfold chunk_count, range_length.
  destruct (Z.ltb_spec 0 n); [|lia].
  destruct (Z.ltb_spec 0 (Z.of_nat (length lst))) as [Hlen|Hlen].
  - rewrite Z.sub_0_r.
    set (len := Z.of_nat (length lst)) in *.
    pose proof (Z.div_mod (len - 1) n ltac:(lia)) as Hdiv.
    pose proof (Z.mod_pos_bound (len - 1) n Hn) as Hmod.
    pose proof (Z.div_pos (len - 1) n ltac:(lia) Hn) as Hq.
    set (q := (len - 1) / n) in *.
    repeat split.
    + apply Nat2Z.inj_le. rewrite Nat2Z.inj_mul, !Z2Nat.id by lia.
      fold len. nia.
    + intros _. apply Nat2Z.inj_lt.
      rewrite Nat2Z.inj_mul, Nat2Z.inj_sub, !Z2Nat.id by lia.
      fold len. nia.
    + intros Hl. subst len. rewrite Hl in Hlen. simpl in Hlen. lia.
  - assert (length lst = 0%nat) as Hnil by lia.
    repeat split; simpl; try lia.
    intros Hne. destruct lst; [done|simpl in Hnil; lia].
Qed.

Lemma divide_length_le lst n chunks :
  0 < n -> divide lst n = inr chunks ->
  Forall (fun chunk => (length chunk <= Z.to_nat n)%nat) chunks.
Proof.
  intros Hn. rewrite divide_chunks by done. intros [= <-].
  apply Forall_forall. intros chunk Hin.
  apply list_elem_of_In, in_map_iff in Hin as (k & <- & _).
  rewrite length_take. lia.
Qed.

Example divide_five_by_two :
  divide [1; 2; 3; 4; 5] 2 = inr [[1; 2]; [3; 4]; [5]].
Proof. reflexivity. Qed.

Example divide_size_beyond_length :
  divide [1; 2; 3] 7 = inr [[1; 2; 3]].
Proof. reflexivity. Qed.

(** C6. Batch partition law: for a size [n > 0], [divide lst n] yields
    chunks whose concatenation is [lst]; every chunk but the last has
    exactly [n] elements, the last one between 1 and [n]; and an empty
    list yields no chunk. *)
Theorem divide_partition_law lst n :
  0 < n ->
  exists chunks : list (list A),
    divide lst n = inr chunks /\
    concat chunks = lst /\
    (forall (i : nat) chunk, chunks !! i = Some chunk ->
       (S i < length chunks)%nat -> Z.of_nat (length chunk) = n) /\
    (forall chunk, last chunks = Some chunk ->
       0 < Z.of_nat (length chunk) <= n) /\
    (lst = [] -> chunks = []).
Proof.
  intros Hn. eexists. split; [by apply divide_chunks|].
  destruct (chunk_count_bounds lst n Hn) as (Hcover & Hlast & Hnil).
  set (m := Z.to_nat n) in *. set (c := chunk_count lst n) in *.
  assert (Hm : n = Z.of_nat m) by lia.
  assert (Hne : (0 < c)%nat -> lst <> []).
  { intros Hc ->. specialize (Hnil eq_refl). lia. }
  assert (Hfinal : forall chunk,
            last (map (fun k => take m (drop (k * m) lst)) (seq 0 c))
            = Some chunk ->
            (0 < c)%nat /\ chunk = take m (drop ((c - 1) * m) lst)).
  { intros chunk Hchunk.
    rewrite last_lookup, length_map, length_seq, list_lookup_fmap in Hchunk.
    destruct (decide (c = 0%nat)) as [Hc|Hc]; [by rewrite Hc in Hchunk|].
    rewrite lookup_seq_lt in Hchunk by lia. simpl in Hchunk.
    injection Hchunk as <-. split; [lia|].
    by replace (Init.Nat.pred c) with (c - 1)%nat by lia. }
  split; [|split; [|split]].
  - rewrite concat_chunks. simpl. rewrite drop_0. by apply take_ge.
  - intros i chunk Hi Hlt. rewrite length_map, length_seq in Hlt.
    rewrite list_lookup_fmap in Hi.
    rewrite lookup_seq_lt in Hi by lia. simpl in Hi.
    injection Hi as <-. rewrite length_take, length_drop.
    specialize (Hlast (Hne ltac:(lia))). nia.
  - intros chunk Hchunk. destruct (Hfinal chunk Hchunk) as [Hc ->].
    specialize (Hlast (Hne Hc)).
    rewrite length_take, length_drop. lia.
  - intros Hl. by rewrite (Hnil Hl).
Qed.

Lemma divide_zero lst : divide lst 0 = inl ValueError.
Proof. reflexivity. Qed.

Lemma divide_negative lst n : n < 0 -> divide lst n = inr [].
Proof.
  intros Hn. unfold divide, range, range_length.
  destruct (Z.eqb_spec n 0); [lia|].
  destruct (Z.ltb_spec 0 n); [lia|].
  destruct (Z.ltb_spec (Z.of_nat (length lst)) 0); [lia|]. reflexivity.
Qed.

(** C7, as the code has it. For a size [<= 0]: a zero size raises (the
    [ValueError] of [range], the spec's ConfigError) as soon as the
    generator is consumed; a negative size raises nothing and yields no
    chunk at all. *)
Theorem divide_nonpositive_size lst n :
  n <= 0 ->
  divide lst n = if n =? 0 then inl ValueError else inr [].
Proof.
  intros Hn. destruct (Z.eqb_spec n 0) as [->|Hne].
  - apply divide_zero.
  - apply divide_negative. lia.
Qed.
End DivideFacts.

Lemma divide_partition_law_witness :
  0 < 2 /\
  exists chunks : list (list Z),
    divide [1; 2; 3; 4; 5] 2 = inr chunks /\
    concat chunks = [1; 2; 3; 4; 5] /\
    (forall (i : nat) chunk, chunks !! i = Some chunk ->
       (S i < length chunks)%nat -> Z.of_nat (length chunk) = 2) /\
    (forall chunk, last chunks = Some chunk ->
       0 < Z.of_nat (length chunk) <= 2) /\
    ([1; 2; 3; 4; 5] = [] -> chunks = []).
Proof.
  split; [lia | apply (divide_partition_law [1; 2; 3; 4; 5] 2); lia].
Defined.

(** C7 as stated fails: a negative size is not an error. *)
Lemma divide_negative_size_returns :
  divide [1; 2; 3] (-1) = inr [] /\
  ~ (exists e, divide [1; 2; 3] (-1) = inl e).
Proof. split; [reflexivity | intros [e He]; discriminate He]. Qed.

Lemma divide_nonpositive_size_witness :
  -2 <= 0 /\ divide [1; 2; 3] (-2) = inr [] /\
  0 <= 0 /\ divide [1; 2; 3] 0 = inl ValueError.
Proof.
  split; [lia|]. split; [apply (divide_nonpositive_size [1; 2; 3] (-2)); lia|].
  split; [lia|]. apply (divide_nonpositive_size [1; 2; 3] 0). lia.
Defined.

(** ** Strings, quantities and prices *)

Lemma split_first sep s : split sep s !! 0%nat = Some (before_first sep s).
Proof.
  induction s as [|c rest IH]; simpl; [done|].
  destruct (Ascii.eqb c sep); [done|].
  destruct (split sep rest) as [|piece pieces]; [done|].
  simpl in *. by injection IH as ->.
Qed.

Lemma before_first_unique sep (prefix rest : string) :
  ~ In sep (chars prefix) ->
  rest = EmptyString \/ (exists r, rest = String sep r) ->
  before_first sep (prefix ++ rest)%string = prefix.
Proof.
  intros Hsep Hrest. induction prefix as [|c prefix IH]; simpl.
  - destruct Hrest as [->|[r ->]]; simpl; [done|]. by rewrite Ascii.eqb_refl.
  - destruct (Ascii.eqb_spec c sep) as [->|_].
    + exfalso. apply Hsep. by left.
    + f_equal. apply IH. intros Hin. apply Hsep. by right.
Qed.

Lemma re_sub_non_digit_filter s :
  re_sub_non_digit s = string_of_list_ascii (List.filter is_digit (chars s)).
Proof.
  induction s as [|c rest IH]; simpl; [done|].
  destruct (is_digit c); simpl; by rewrite IH.
Qed.

Lemma price_conversion_prefix (price prefix rest : string) :
  price = (prefix ++ rest)%string ->
  ~ In "."%char (chars prefix) ->
  rest = EmptyString \/ (exists r, rest = String "." r) ->
  price_conversion (PyStr price)
  = inr (string_of_list_ascii (List.filter is_digit (chars prefix))).
Proof.
  intros -> Hdot Hrest. unfold price_conversion, index.
  rewrite split_first, before_first_unique by done. simpl.
  unfold mret, exn_ret. by rewrite re_sub_non_digit_filter.
Qed.

Lemma fold_code_points s : code_points_from 0 0 0 s = code_points s.
Proof. reflexivity. Qed.

(** The blanks, one by one. *)
Lemma is_blank_cases cp :
  is_blank cp = true ->
  cp = 9 \/ cp = 10 \/ cp = 11 \/ cp = 12 \/ cp = 13 \/ cp = 32 \/
  cp = 133 \/ cp = 160 \/ cp = 5760 \/
  cp = 8192 \/ cp = 8193 \/ cp = 8194 \/ cp = 8195 \/ cp = 8196 \/
  cp = 8197 \/ cp = 8198 \/ cp = 8199 \/ cp = 8200 \/ cp = 8201 \/
  cp = 8202 \/ cp = 8232 \/ cp = 8233 \/ cp = 8239 \/ cp = 8287 \/
  cp = 12288.
Proof.
  unfold is_blank. intros H.
  repeat (apply orb_true_iff in H as [H|H]);
    repeat (apply andb_true_iff in H as [H ?]);
    repeat match goal with
           | H : (_ <=? _) = true |- _ => apply Z.leb_le in H
           | H : (_ =? _) = true |- _ => apply Z.eqb_eq in H
           end; lia.
Qed.

Lemma blank_no_digit cp :
  is_blank cp = true ->
  digit_of cp = None /\ cp <> 95 /\ cp <> 43 /\ cp <> 45.
Proof.
  intros H. apply is_blank_cases in H.
  repeat (destruct H as [->|H]); try subst cp; by repeat split.
Qed.

Lemma digit_no_blank cp d :
  digit_of cp = Some d ->
  is_blank cp = false /\ cp <> 95 /\ cp <> 43 /\ cp <> 45.
Proof.
  intros Hd. repeat split.
  - destruct (is_blank cp) eqn:Hb; [|done].
    apply blank_no_digit in Hb as [Hb _]. congruence.
  - by intros ->.
  - by intros ->.
  - by intros ->.
Qed.

Lemma skip_blanks_all cps :
  skip_blanks cps = [] <-> Forall (fun cp => is_blank cp = true) cps.
Proof.
  induction cps as [|cp cps IH]; simpl; [done|].
  destruct (is_blank cp) eqn:Hb.
  - rewrite IH. split; [by constructor|]. by intros [_ H]%Forall_cons.
  - split; [done|]. intros [H _]%Forall_cons. congruence.
Qed.

Lemma skip_blanks_app before cps :
  Forall (fun cp => is_blank cp = true) before ->
  skip_blanks (before ++ cps) = skip_blanks cps.
Proof. induction 1 as [|cp before Hb _ IH]; simpl; [done|]. by rewrite Hb. Qed.

Lemma skip_blanks_split cps :
  exists before,
    cps = before ++ skip_blanks cps /\
    Forall (fun cp => is_blank cp = true) before /\
    match skip_blanks cps with
    | cp :: _ => is_blank cp = false
    | [] => True
    end.
Proof.
  induction cps as [|cp cps (before & Heq & Hall & Hhead)]; simpl.
  - by exists [].
  - destruct (is_blank cp) eqn:Hb.
    + exists (cp :: before). simpl. rewrite <- Heq. by repeat split; [constructor|].
    + by exists [].
Qed.

(** The scan of a literal that is followed by the end of the text or by
    a blank. *)
Lemma int_digits_groups body ds :
  digit_groups body ds ->
  forall seen acc count after,
  Forall (fun cp => is_blank cp = true) after ->
  int_digits seen acc count (body ++ after)
  = Some (foldl (fun acc d => 10 * acc + d) acc ds,
          count + Z.of_nat (length ds), after).
Proof.
  induction 1 as [cp d Hd|cp d cps ds Hd _ IH|cp d cps ds Hd _ IH];
    intros seen acc count after Hafter; cbn [app int_digits]; rewrite Hd.
  - destruct after as [|cp' after]; simpl; [do 3 f_equal; lia|].
    apply Forall_cons in Hafter as [Hb _].
    apply blank_no_digit in Hb as (-> & Hu & _).
    destruct (Z.eqb_spec cp' 95); [done|]. do 3 f_equal; lia.
  - rewrite IH by done. cbn [foldl length]. do 3 f_equal; lia.
  - change (digit_of 95) with (@None Z). change (Z.eqb 95 95) with true.
    cbv iota. rewrite IH by done. cbn [foldl length]. do 3 f_equal; lia.
Qed.

(** What a successful scan has read. *)
Lemma int_digits_read cps :
  forall seen acc count n count' rest,
  int_digits seen acc count cps = Some (n, count', rest) ->
  exists more ds,
    cps = more ++ rest /\
    n = foldl (fun acc d => 10 * acc + d) acc ds /\
    count' = count + Z.of_nat (length ds) /\
    (digit_groups more ds \/
     seen = true /\
     (more = [] /\ ds = [] \/ exists m, more = 95 :: m /\ digit_groups m ds)).
Proof.
  induction cps as [|cp cps IH]; intros seen acc count n count' rest Hscan;
    cbn [int_digits] in Hscan.
  - destruct seen; [|done]. injection Hscan as <- <- <-.
    exists [], []. simpl. repeat split; [lia|]. right. split; [done|]. by left.
  - destruct (digit_of cp) as [d|] eqn:Hd.
    + apply IH in Hscan as (more & ds & -> & -> & -> & Hshape).
      exists (cp :: more), (d :: ds). cbn [foldl length app].
      repeat split; [lia|]. left.
      destruct Hshape as [Hg|[_ [[-> ->]|(m & -> & Hg)]]].
      * by apply digits_next.
      * by apply digits_one.
      * by apply digits_underscore.
    + destruct (Z.eqb_spec cp 95) as [->|Hu].
      * destruct seen; [|done].
        apply IH in Hscan as (more & ds & -> & -> & -> & Hshape).
        exists (95 :: more), ds. repeat split. right. split; [done|]. right.
        exists more. split; [done|].
        by destruct Hshape as [Hg|[[=] _]].
      * destruct seen; [|done]. injection Hscan as <- <- <-.
        exists [], []. simpl. repeat split; [lia|]. right. split; [done|].
        by left.
Qed.

Lemma int_of_str_error s e : int_of_str s = inl e -> e = ValueError.
Proof.
  unfold int_of_str.
  destruct (skip_blanks (code_points s)) as [|cp body];
    [|destruct (cp =? 45); [|destruct (cp =? 43)]];
    (destruct (int_digits _ _ _ _) as [[[n count] rest]|]; [|by intros [= <-]]);
    (destruct (skip_blanks rest); [|by intros [= <-]]);
    (destruct (count <=? int_max_str_digits); [done|by intros [= <-]]).
Qed.

(** [int] reads exactly the integer literals. *)
Lemma int_of_str_literal s z :
  int_of_str s = inr z <-> int_literal (code_points s) z.
Proof.
  unfold int_of_str. split.
  - destruct (skip_blanks_split (code_points s)) as (before & Heq & Hbefore & Hhead).
    destruct (skip_blanks (code_points s)) as [|cp body] eqn:Hbody; [done|].
    set (signed := if cp =? 45 then (-1, body)
                   else if cp =? 43 then (1, body) else (1, cp :: body)).
    assert (Hsign : exists sign, cp :: body = sign ++ signed.2 /\
              ((sign = [] /\ signed.1 = 1) \/ (sign = [43] /\ signed.1 = 1) \/
               (sign = [45] /\ signed.1 = -1))).
    { subst signed. destruct (Z.eqb_spec cp 45) as [->|_].
      - exists [45]. split; [done|]. right. by right.
      - destruct (Z.eqb_spec cp 43) as [->|_].
        + exists [43]. split; [done|]. right. by left.
        + exists []. split; [done|]. by left. }
    destruct signed as [factor literal]. simpl in Hsign.
    destruct Hsign as (sign & Hcut & Hfactor).
    destruct (int_digits false 0 0 literal) as [[[n count] rest]|] eqn:Hscan;
      [|done].
    destruct (skip_blanks rest) eqn:Hrest; [|done].
    destruct (Z.leb_spec count int_max_str_digits) as [Hcount|]; [|done].
    unfold int_max_str_digits in Hcount. intros [= <-].
    apply int_digits_read in Hscan as (more & ds & -> & -> & -> & Hshape).
    destruct Hshape as [Hgroups|[[=] _]].
    exists before, sign, more, rest, ds.
    split; [by rewrite Heq, Hcut|].
    split; [done|]. split; [by apply skip_blanks_all|].
    split; [done|]. split; [lia|].
    fold (base10 ds).
    destruct Hfactor as [[-> ->]|[[-> ->]|[-> ->]]]; [left|right; left|right; right];
      split; try done; lia.
  - intros (before & sign & body & after & ds & -> & Hbefore & Hafter & Hgroups
            & Hcount & Hsign).
    rewrite skip_blanks_app by done.
    assert (Hfirst : exists cp d rest, body = cp :: rest /\ digit_of cp = Some d).
    { destruct Hgroups; by repeat eexists. }
    destruct Hfirst as (cp & d & rest & -> & Hd).
    destruct (digit_no_blank cp d Hd) as (Hb & _ & Hplus & Hminus).
    pose proof (int_digits_groups _ _ Hgroups false 0 0 after Hafter) as Hscan.
    fold (base10 ds) in Hscan.
    assert (Hskip : forall sg,
              sg = [] \/ sg = [43] \/ sg = [45] ->
              skip_blanks (sg ++ (cp :: rest) ++ after)
              = sg ++ (cp :: rest) ++ after).
    { intros sg [-> | [-> | ->]]; [|done..]. simpl. by rewrite Hb. }
    apply skip_blanks_all in Hafter.
    assert (Hlimit : (0 + Z.of_nat (length ds) <=? int_max_str_digits) = true)
      by (apply Z.leb_le; unfold int_max_str_digits; lia).
    destruct Hsign as [[-> ->]|[[-> ->]|[-> ->]]];
      rewrite Hskip by auto; cbn [app]; cbn [app] in Hscan.
    + destruct (Z.eqb_spec cp 45); [done|]. destruct (Z.eqb_spec cp 43); [done|].
      rewrite Hscan, Hafter, Hlimit. f_equal; lia.
    + change (Z.eqb 43 45) with false. change (Z.eqb 43 43) with true. cbv iota.
      rewrite Hscan, Hafter, Hlimit. f_equal; lia.
    + change (Z.eqb 45 45) with true. cbv iota.
      rewrite Hscan, Hafter, Hlimit. f_equal; lia.
Qed.

(** Texts of ASCII digits. *)
Lemma is_digit_byte c :
  is_digit c = true -> 48 <= byte c <= 57.
Proof.
  unfold is_digit, byte. intros [H1 H2]%andb_true_iff.
  apply Nat.leb_le in H1. apply Nat.leb_le in H2. lia.
Qed.

Lemma digit_of_ascii b : 48 <= b <= 57 -> digit_of b = Some (b - 48).
Proof.
  intros Hb. unfold digit_of, decimal_zeros. cbn [List.find].
  destruct (Z.leb_spec 48 b); [|lia].
  by destruct (Z.leb_spec b (48 + 9)); [|lia].
Qed.

Lemma code_points_digits s :
  Forall (fun c => is_digit c = true) (chars s) ->
  code_points s = map byte (chars s).
Proof.
  unfold code_points. induction s as [|c s IH]; [done|].
  intros [Hc Hs]%Forall_cons. cbn [code_points_from chars list_ascii_of_string map].
  pose proof (is_digit_byte c Hc).
  destruct (Z.ltb_spec (byte c) 128); [|lia].
  f_equal. by apply IH.
Qed.

Lemma digit_groups_digits s :
  s <> EmptyString ->
  Forall (fun c => is_digit c = true) (chars s) ->
  digit_groups (map byte (chars s)) (digit_values s).
Proof.
  unfold digit_values.
  induction s as [|c s IH]; [done|]. intros _ [Hc Hs]%Forall_cons.
  pose proof (digit_of_ascii _ (is_digit_byte c Hc)) as Hd.
  cbn [chars list_ascii_of_string map].
  destruct s as [|c' s]; [by apply digits_one|].
  apply digits_next; [done|]. by apply IH.
Qed.

Lemma int_of_str_groups s cps ds :
  code_points s = cps -> digit_groups cps ds ->
  int_of_str s
  = if Z.of_nat (length ds) <=? int_max_str_digits then inr (base10 ds)
    else inl ValueError.
Proof.
  intros Hs Hgroups. unfold int_of_str. rewrite Hs.
  pose proof (int_digits_groups _ _ Hgroups false 0 0 [] ltac:(constructor)) as Hscan.
  rewrite app_nil_r in Hscan. fold (base10 ds) in Hscan.
  assert (Hfirst : exists cp d rest, cps = cp :: rest /\ digit_of cp = Some d).
  { destruct Hgroups; by repeat eexists. }
  destruct Hfirst as (cp & d & rest & -> & Hd).
  destruct (digit_no_blank cp d Hd) as (Hb & _ & Hplus & Hminus).
  cbn [skip_blanks]. rewrite Hb.
  destruct (Z.eqb_spec cp 45); [done|]. destruct (Z.eqb_spec cp 43); [done|].
  rewrite Hscan. cbn [skip_blanks]. rewrite Z.add_0_l.
  destruct (Z.of_nat (length ds) <=? int_max_str_digits); [|done].
  f_equal; lia.
Qed.

Lemma int_of_str_minus_groups s cps ds :
  code_points s = 45 :: cps -> digit_groups cps ds ->
  int_of_str s
  = if Z.of_nat (length ds) <=? int_max_str_digits then inr (- base10 ds)
    else inl ValueError.
Proof.
  intros Hs Hgroups. unfold int_of_str. rewrite Hs.
  pose proof (int_digits_groups _ _ Hgroups false 0 0 [] ltac:(constructor)) as Hscan.
  rewrite app_nil_r in Hscan. fold (base10 ds) in Hscan.
  change (skip_blanks (45 :: cps)) with (45 :: cps). cbv iota.
  change (Z.eqb 45 45) with true. cbv iota.
  rewrite Hscan. cbn [skip_blanks]. rewrite Z.add_0_l.
  destruct (Z.of_nat (length ds) <=? int_max_str_digits); [|done].
  f_equal; lia.
Qed.

Lemma digit_values_length s :
  length (digit_values s) = String.length s.
Proof.
  unfold digit_values. rewrite length_map.
  induction s as [|c s IH]; simpl; [done|]. by rewrite IH.
Qed.

(** [int] of a text of ASCII digits. *)
Lemma int_of_str_digits s :
  s <> EmptyString ->
  Forall (fun c => is_digit c = true) (chars s) ->
  int_of_str s
  = if Z.of_nat (String.length s) <=? int_max_str_digits
    then inr (base10 (digit_values s)) else inl ValueError.
Proof.
  intros Hne Hall. rewrite <- digit_values_length.
  apply (int_of_str_groups s (map byte (chars s)));
    [by apply code_points_digits|by apply digit_groups_digits].
Qed.

Lemma int_of_str_minus_digits s :
  s <> EmptyString ->
  Forall (fun c => is_digit c = true) (chars s) ->
  int_of_str (String "-" s)
  = if Z.of_nat (String.length s) <=? int_max_str_digits
    then inr (- base10 (digit_values s)) else inl ValueError.
Proof.
  intros Hne Hall. rewrite <- digit_values_length.
  apply (int_of_str_minus_groups _ (map byte (chars s)));
    [|by apply digit_groups_digits].
  unfold code_points. cbn [code_points_from].
  change (byte "-") with 45. change (45 <? 128) with true. cbv iota.
  f_equal. by apply code_points_digits.
Qed.

(** The decimal writing of a number is a text of digits that writes it. *)
Lemma uint_digits d :
  Forall (fun c => is_digit c = true) (chars (NilEmpty.string_of_uint d)).
Proof. induction d; simpl; [constructor|..]; by constructor. Qed.

Lemma uint_value_acc d acc :
  foldl (fun acc d => 10 * acc + d) (Z.pos acc)
        (digit_values (NilEmpty.string_of_uint d))
  = Z.pos (Pos.of_uint_acc d acc).
Proof.
  unfold digit_values. revert acc.
  induction d as [|d IH|d IH|d IH|d IH|d IH|d IH|d IH|d IH|d IH|d IH];
    intros acc; [done|..];
    cbn [NilEmpty.string_of_uint chars list_ascii_of_string map foldl
         Pos.of_uint_acc];
    match goal with
    | |- context [byte ?c - 48] =>
        let v := eval vm_compute in (byte c - 48) in
        change (byte c - 48) with v
    end;
    rewrite <- IH; f_equal; lia.
Qed.

Lemma uint_value d :
  base10 (digit_values (NilEmpty.string_of_uint d)) = Z.of_N (Pos.of_uint d).
Proof.
  unfold base10, digit_values.
  induction d as [|d IH|d IH|d IH|d IH|d IH|d IH|d IH|d IH|d IH|d IH];
    [done|exact IH|..];
    cbn [NilEmpty.string_of_uint chars list_ascii_of_string map foldl
         Pos.of_uint];
    match goal with
    | |- context [byte ?c - 48] =>
        let v := eval vm_compute in (byte c - 48) in
        change (byte c - 48) with v
    end;
    apply uint_value_acc.
Qed.

Lemma string_of_uint_nonnil d :
  d <> Decimal.Nil -> NilZero.string_of_uint d = NilEmpty.string_of_uint d.
Proof. by destruct d. Qed.

Lemma string_of_uint_nonempty d :
  d <> Decimal.Nil -> NilEmpty.string_of_uint d <> EmptyString.
Proof. by destruct d. Qed.

(** [int] reads back the decimal writing of a number, when it has no more
    digits than the limit. *)
Lemma int_of_str_decimal (z : Z) :
  int_of_str (decimal z)
  = if decimal_digits z <=? int_max_str_digits then inr z
    else inl ValueError.
Proof.
  destruct z as [|p|p]; [done|..];
    pose proof (DecimalPos.Unsigned.to_uint_nonnil p) as Hnil.
  - change (decimal (Z.pos p)) with (NilZero.string_of_uint (Pos.to_uint p)).
    change (decimal_digits (Z.pos p))
      with (Z.of_nat (String.length (NilZero.string_of_uint (Pos.to_uint p)))).
    rewrite string_of_uint_nonnil by done.
    rewrite int_of_str_digits;
      [|by apply string_of_uint_nonempty|apply uint_digits].
    by rewrite uint_value, DecimalPos.Unsigned.of_to.
  - change (decimal (Z.neg p))
      with (String "-" (NilZero.string_of_uint (Pos.to_uint p))).
    change (decimal_digits (Z.neg p))
      with (Z.of_nat (String.length (NilZero.string_of_uint (Pos.to_uint p)))).
    rewrite string_of_uint_nonnil by done.
    rewrite int_of_str_minus_digits;
      [|by apply string_of_uint_nonempty|apply uint_digits].
    by rewrite uint_value, DecimalPos.Unsigned.of_to.
Qed.

Lemma decimal_digits_length z :
  decimal_digits z <= Z.of_nat (String.length (decimal z)).
Proof.
  destruct z as [|p|p]; [done|reflexivity|].
  change (decimal (Z.neg p))
    with (String "-" (NilZero.string_of_uint (Pos.to_uint p))).
  change (decimal_digits (Z.neg p))
    with (Z.of_nat (String.length (NilZero.string_of_uint (Pos.to_uint p)))).
  cbn [String.length]. lia.
Qed.

(** A short token is the decimal writing of the number that [int] reads
    from it, and of no other. *)
Lemma decimal_token z (token : string) :
  decimal z = token ->
  Z.of_nat (String.length token) <= int_max_str_digits ->
  int_of_str token = inr z.
Proof.
  intros <- Hlen. rewrite int_of_str_decimal.
  pose proof (decimal_digits_length z).
  by destruct (Z.leb_spec (decimal_digits z) int_max_str_digits); [|lia].
Qed.

Lemma decimal_of_int (n : pyint) :
  int_of_str (decimal (int_value n)) = inr (int_value n).
Proof. by rewrite int_of_str_decimal, (int_within n). Qed.

Example int_of_str_examples :
  int_of_str " 7 " = inr 7 /\ int_of_str "-3" = inr (-3) /\
  int_of_str "+3" = inr 3 /\ int_of_str "1_000" = inr 1000 /\
  int_of_str "007" = inr 7 /\ int_of_str "" = inl ValueError /\
  int_of_str "1.0" = inl ValueError /\ int_of_str "1__0" = inl ValueError /\
  int_of_str "- 3" = inl ValueError /\ int_of_str "٣٤" = inr 34 /\
  int_of_str (String (ascii_of_nat 28) "7") = inl ValueError.
Proof. by repeat split. Qed.

Example stock_of_cells :
  stock_of (PyInt {| int_value := 1; int_within := eq_refl |}) = inr 0 /\
  stock_of (PyInt {| int_value := 12; int_within := eq_refl |}) = inr 12 /\
  stock_of (PyInt {| int_value := -3; int_within := eq_refl |}) = inr (-3) /\
  stock_of (PyStr " 1") = inr 1 /\ stock_of PyNone = inl TypeError.
Proof. by repeat split. Qed.

Lemma stock_of_token (token : string) :
  token <> ">10" -> token <> "1" ->
  stock_of (PyStr token) = int_of_str token.
Proof.
  intros Hmany Hone. unfold stock_of. simpl.
  destruct (String.eqb_spec token ">10"); [done|].
  by destruct (String.eqb_spec token "1").
Qed.

Lemma stock_of_int (n : pyint) :
  stock_of (PyInt n) = inr (if int_value n =? 1 then 0 else int_value n).
Proof.
  pose proof (decimal_of_int n) as Hread.
  unfold stock_of. cbn [str int].
  destruct (String.eqb_spec (decimal (int_value n)) ">10") as [Heq|_].
  { rewrite Heq in Hread. discriminate Hread. }
  destruct (String.eqb_spec (decimal (int_value n)) "1") as [Heq|Hne].
  - rewrite Heq in Hread. injection Hread as <-. reflexivity.
  - destruct (Z.eqb_spec (int_value n) 1) as [Heq|_]; [|done].
    by rewrite Heq in Hne.
Qed.

(** C3. Quantity normalization: the token [">10"] gives 100 and the token
    ["1"] gives 0.  Every other token goes through [int], which reads
    base 10: it returns [z] exactly when the token writes [z] as an
    integer literal (blanks, an optional sign, digits with single
    underscores between them, blanks, and no more than 4300 digits), and
    raises [ValueError] (the spec's FormatError) on every other token.  So
    ["7"] gives 7 and ["abc"] raises, and the decimal writing of any
    integer but 1 gives that integer, up to 4300 digits.  The match is on
    the exact token: ["01"] and [" 1"] give 1 and [">10 "] raises.  The
    digits and blanks of Unicode count: Arabic-Indic digits are read, a
    no-break space (bytes 194 and 160) before the digits is dropped, and a
    file separator (28) is no blank.  An [int] cell gives its value,
    except 1, which gives 0. *)
Theorem quantity_normalization :
  stock_of (PyStr ">10") = inr 100 /\
  stock_of (PyStr "1") = inr 0 /\
  (forall (token : string) (z : Z),
     token <> ">10" -> token <> "1" ->
     (stock_of (PyStr token) = inr z <-> int_literal (code_points token) z)) /\
  (forall (token : string) (e : exn),
     stock_of (PyStr token) = inl e -> e = ValueError) /\
  (forall z : Z,
     z <> 1 ->
     stock_of (PyStr (decimal z))
     = if decimal_digits z <=? 4300 then inr z else inl ValueError) /\
  (forall n : pyint,
     stock_of (PyInt n) = inr (if int_value n =? 1 then 0 else int_value n)) /\
  stock_of (PyStr "7") = inr 7 /\
  stock_of (PyStr "abc") = inl ValueError /\
  stock_of (PyStr "01") = inr 1 /\
  stock_of (PyStr " 1") = inr 1 /\
  stock_of (PyStr ">10 ") = inl ValueError /\
  stock_of (PyStr "٣٤") = inr 34 /\
  stock_of (PyStr (String "194" (String "160" "7"))) = inr 7 /\
  stock_of (PyStr (String "028" "7")) = inl ValueError.
Proof.
  split; [reflexivity|]. split; [reflexivity|].
  split; [|split; [|split; [|split]]].
  - intros token z Hmany Hone. rewrite stock_of_token by done.
    apply int_of_str_literal.
  - intros token e. unfold stock_of. cbn [str int].
    destruct (String.eqb token ">10"); [done|].
    destruct (String.eqb token "1"); [done|]. apply int_of_str_error.
  - intros z Hz.
    rewrite stock_of_token; [apply int_of_str_decimal| |]; intros Heq;
      apply decimal_token in Heq; try done.
    injection Heq as <-. by apply Hz.
  - apply stock_of_int.
  - by repeat split.
Qed.

Lemma quantity_normalization_witness :
  "12" <> ">10" /\ "12" <> "1" /\ 12 <> 1 /\
  (stock_of (PyStr "12") = inr 12 <-> int_literal (code_points "12") 12) /\
  stock_of (PyStr (decimal 12)) = inr 12.
Proof.
  assert (Hmany : "12" <> ">10") by discriminate.
  assert (Hone : "12" <> "1") by discriminate.
  assert (Hz : 12 <> 1) by lia.
  split; [exact Hmany|]. split; [exact Hone|]. split; [exact Hz|].
  destruct quantity_normalization as (_ & _ & Hother & _ & Hdecimal & _).
  split; [exact (Hother "12" 12 Hmany Hone)|].
  exact (Hdecimal 12 Hz).
Defined.

(** C4. Price normalization: the result is the digits of the part of the
    string that comes before the first ['.'], every other character of
    that part dropped; a string without ['.'] is scanned whole.  So
    ["5'990.00 руб."] gives ["5990"], ["1,234.50"] gives ["1234"] and
    ["100"] gives ["100"], read by [int] as 5990, 1234 and 100. *)
Theorem price_conversion_algorithm :
  (forall price prefix rest : string,
     price = (prefix ++ rest)%string ->
     ~ In "."%char (chars prefix) ->
     rest = EmptyString \/ (exists r, rest = String "." r) ->
     price_conversion (PyStr price)
     = inr (string_of_list_ascii (List.filter is_digit (chars prefix)))) /\
  (forall price : string,
     ~ In "."%char (chars price) ->
     price_conversion (PyStr price)
     = inr (string_of_list_ascii (List.filter is_digit (chars price)))) /\
  price_conversion (PyStr "5'990.00 руб.") = inr "5990" /\
  int (PyStr "5990") = inr 5990 /\
  price_conversion (PyStr "1,234.50") = inr "1234" /\
  int (PyStr "1234") = inr 1234 /\
  price_conversion (PyStr "100") = inr "100" /\
  int (PyStr "100") = inr 100.
Proof.
  repeat split; try reflexivity.
  - apply price_conversion_prefix.
  - intros price Hdot.
    apply (price_conversion_prefix price price EmptyString);
      [|exact Hdot|by left].
    clear. induction price as [|c price IH]; [done|].
    change (String c price = String c (price ++ EmptyString)%string).
    f_equal. exact IH.
Qed.

Lemma price_conversion_algorithm_witness :
  "5'990.00 руб." = ("5'990" ++ ".00 руб.")%string /\
  ~ In "."%char (chars "5'990") /\
  price_conversion (PyStr "5'990.00 руб.")
  = inr (string_of_list_ascii (List.filter is_digit (chars "5'990"))).
Proof.
  assert (Hsplit : "5'990.00 руб." = ("5'990" ++ ".00 руб.")%string)
    by reflexivity.
  assert (Hdot : ~ In "."%char (chars "5'990")).
  { simpl. intros Hin.
    repeat (destruct Hin as [Hin|Hin]; [discriminate Hin|]). exact Hin. }
  split; [exact Hsplit|]. split; [exact Hdot|].
  destruct price_conversion_algorithm as (Hprefix & _).
  apply (Hprefix _ "5'990" ".00 руб." Hsplit Hdot).
  right. eexists. reflexivity.
Defined.

Lemma filter_no_digit (l : list ascii) :
  Forall (fun c => is_digit c = false) l -> List.filter is_digit l = [].
Proof.
  induction 1 as [|c l Hc _ IH]; simpl; [done|]. by rewrite Hc.
Qed.

(** C5 as stated fails: with nothing but a fraction, the conversion
    returns the empty string. *)
Lemma price_conversion_fraction_only_returns :
  price_conversion (PyStr ".99") = inr EmptyString /\
  ~ (exists e, price_conversion (PyStr ".99") = inl e).
Proof. split; [reflexivity | intros [e He]; discriminate He]. Qed.

(** C5, as the code has it. When no digit comes before the first ['.'],
    [price_conversion] raises nothing and returns the empty string.  Ozon's
    [create_prices] puts that empty string in the price entry; Yandex
    Market's [create_prices] passes it to [int] and raises [ValueError]
    (the spec's FormatError). *)
Theorem price_conversion_without_digits (price prefix rest : string) :
  price = (prefix ++ rest)%string ->
  ~ In "."%char (chars prefix) ->
  rest = EmptyString \/ (exists r, rest = String "." r) ->
  Forall (fun c => is_digit c = false) (chars prefix) ->
  price_conversion (PyStr price) = inr EmptyString /\
  (forall (w : watch) (others : list watch) (offer_ids : list string),
     get "Цена" w = PyStr price ->
     contains (code w) offer_ids = true ->
     Seller.create_prices [w] offer_ids
     = inr [ {| Seller.auto_action_enabled := "UNKNOWN";
                Seller.currency_code := "RUB";
                Seller.price_offer_id := code w;
                Seller.old_price := "0";
                Seller.price := EmptyString |} ] /\
     Market.create_prices (w :: others) offer_ids = inl ValueError).
Proof.
  intros Hprice Hdot Hrest Hdigits.
  assert (Hconv : price_conversion (PyStr price) = inr EmptyString).
  { rewrite (price_conversion_prefix price prefix rest) by done.
    by rewrite filter_no_digit. }
  split; [exact Hconv|].
  intros w others offer_ids Hcell Hin. unfold code in Hin. split.
  - unfold Seller.create_prices. simpl. by rewrite Hin, Hcell, Hconv.
  - unfold Market.create_prices. simpl. by rewrite Hin, Hcell, Hconv.
Qed.

Lemma price_conversion_without_digits_witness :
  let w : watch := <["Код" := PyStr "A"]> (<["Цена" := PyStr ".99"]> ∅) in
  price_conversion (PyStr ".99") = inr EmptyString /\
  Seller.create_prices [w] ["A"]
  = inr [ {| Seller.auto_action_enabled := "UNKNOWN";
             Seller.currency_code := "RUB";
             Seller.price_offer_id := "A";
             Seller.old_price := "0";
             Seller.price := EmptyString |} ] /\
  Market.create_prices [w] ["A"] = inl ValueError.
Proof.
  intros w.
  assert (Hsplit : ".99" = (EmptyString ++ ".99")%string) by reflexivity.
  assert (Hdot : ~ In "."%char (chars EmptyString)) by (intros []).
  assert (Hrest : ".99" = EmptyString \/ (exists r, ".99" = String "." r))
    by (right; eexists; reflexivity).
  assert (Hdigits : Forall (fun c => is_digit c = false) (chars EmptyString))
    by constructor.
  destruct (price_conversion_without_digits ".99" EmptyString ".99"
              Hsplit Hdot Hrest Hdigits) as [Hconv Hfeeds].
  split; [exact Hconv|].
  apply (Hfeeds w [] ["A"]); reflexivity.
Defined.

(** ** Reconciliation *)

Lemma contains_elem_of (x : string) (l : list string) :
  contains x l = true <-> x ∈ l.
Proof.
  unfold contains. rewrite existsb_exists. split.
  - intros (y & Hin & Heq). apply String.eqb_eq in Heq as <-.
    by apply list_elem_of_In.
  - intros Hin. exists x. split; [by apply list_elem_of_In|].
    apply String.eqb_refl.
Qed.

Lemma contains_false (x : string) (l : list string) :
  contains x l = false <-> x ∉ l.
Proof.
  rewrite <- contains_elem_of. by destruct (contains x l).
Qed.

Lemma remove_perm (x : string) (l l' : list string) :
  remove x l = inr l' -> l ≡ₚ x :: l'.
Proof.
  revert l'. induction l as [|y l IH]; intros l'; simpl; [done|].
  destruct (String.eqb_spec y x) as [->|Hne].
  - by intros [= ->].
  - destruct (remove x l) as [e|rest] eqn:Hrem; simpl; [done|].
    intros [= <-]. rewrite (IH rest eq_refl). apply Permutation_swap.
Qed.

Lemma remove_elem_of (x : string) (l : list string) :
  x ∈ l -> exists l', remove x l = inr l'.
Proof.
  induction l as [|y l IH]; simpl; intros Hin;
    [by apply elem_of_nil in Hin|].
  destruct (String.eqb_spec y x) as [->|Hne]; [by eexists|].
  apply elem_of_cons in Hin. destruct Hin as [Heq|Hin]; [congruence|].
  destruct (IH Hin) as [l' ->]. by eexists.
Qed.

Lemma remove_other (x y : string) (l l' : list string)
    (Hrem : remove x l = inr l') (Hne : y <> x) :
  y ∈ l' <-> y ∈ l.
Proof.
  rewrite (remove_perm _ _ _ Hrem).
  rewrite elem_of_cons. split; [by right|]. by intros [Heq|Hin].
Qed.

Lemma remove_NoDup (x : string) (l l' : list string) :
  remove x l = inr l' -> NoDup l -> (x ∉ l') /\ NoDup l'.
Proof.
  intros Hrem Hnd. rewrite (remove_perm _ _ _ Hrem) in Hnd.
  by apply NoDup_cons in Hnd.
Qed.

Lemma first_record_cons_ne id w W :
  code w <> id -> first_record id (w :: W) = first_record id W.
Proof.
  intros Hne. unfold first_record. simpl.
  by destruct (String.eqb_spec (code w) id).
Qed.

Lemma first_record_cons_eq w W : first_record (code w) (w :: W) = Some w.
Proof. unfold first_record. simpl. by rewrite String.eqb_refl. Qed.

Lemma seller_stocks_loop_sound W : forall acc ids stocks left,
  NoDup ids ->
  Seller.create_stocks_loop W acc ids = (inr stocks, left) ->
  exists matched,
    stocks = acc ++ matched /\
    map Seller.offer_id matched ++ left ≡ₚ ids /\
    (forall entry, entry ∈ matched ->
       exists w, first_record (Seller.offer_id entry) W = Some w /\
                 stock_of (get "Количество" w) = inr (Seller.stock entry)) /\
    (forall id, id ∈ left -> first_record id W = None).
Proof.
  induction W as [|w W IH]; intros acc ids stocks left Hnd;
    cbn [Seller.create_stocks_loop].
  - intros [= <- <-]. exists []. rewrite app_nil_r. repeat split; try done.
    intros entry Hentry. by apply elem_of_nil in Hentry.
  - fold (code w).
    destruct (contains (code w) ids) eqn:Hin.
    + destruct (stock_of (get "Количество" w)) as [e|n] eqn:Hstock; [done|].
      destruct (remove (code w) ids) as [e|ids1] eqn:Hrem; [done|].
      destruct (remove_NoDup _ _ _ Hrem Hnd) as [Hfresh Hnd1].
      intros Hloop.
      destruct (IH _ _ _ _ Hnd1 Hloop) as (matched & -> & Hperm & Hm & Hl).
      exists ({| Seller.offer_id := code w; Seller.stock := n |} :: matched).
      split; [by rewrite <- app_assoc|]. split; [|split].
      * simpl. rewrite Hperm. symmetry. by apply remove_perm.
      * intros entry [->|Hentry]%elem_of_cons.
        -- exists w. split; [exact (first_record_cons_eq w W)|done].
        -- destruct (Hm entry Hentry) as (w' & Hfirst & Hq).
           exists w'. split; [|done].
           rewrite first_record_cons_ne; [done|].
           intros Heq. apply Hfresh. rewrite Heq, <- Hperm.
           apply elem_of_app. left. by apply list_elem_of_fmap_2.
      * intros id Hid. rewrite first_record_cons_ne; [by apply Hl|].
        intros Heq. apply Hfresh. rewrite Heq, <- Hperm.
        apply elem_of_app. by right.
    + intros Hloop.
      destruct (IH _ _ _ _ Hnd Hloop) as (matched & -> & Hperm & Hm & Hl).
      apply contains_false in Hin.
      exists matched. repeat split; try done.
      * intros entry Hentry. destruct (Hm entry Hentry) as (w' & Hfirst & Hq).
        exists w'. split; [|done].
        rewrite first_record_cons_ne; [done|].
        intros Heq. apply Hin. rewrite Heq, <- Hperm.
        apply elem_of_app. left. by apply list_elem_of_fmap_2.
      * intros id Hid. rewrite first_record_cons_ne; [by apply Hl|].
        intros Heq. apply Hin. rewrite Heq, <- Hperm.
        apply elem_of_app. by right.
Qed.

Lemma seller_stocks_loop_succeeds W : forall acc ids,
  (forall w, w ∈ W -> code w ∈ ids ->
     exists n, stock_of (get "Количество" w) = inr n) ->
  exists stocks left, Seller.create_stocks_loop W acc ids = (inr stocks, left).
Proof.
  induction W as [|w W IH]; intros acc ids Hok;
    cbn [Seller.create_stocks_loop]; [by eauto|].
  fold (code w). destruct (contains (code w) ids) eqn:Hin.
  - apply contains_elem_of in Hin.
    destruct (Hok w ltac:(by left) Hin) as [n ->].
    destruct (remove_elem_of _ _ Hin) as [ids1 Hrem]. rewrite Hrem.
    apply IH. intros w' Hw' Hcode. apply Hok; [by right|].
    apply remove_perm in Hrem. rewrite Hrem. by right.
  - apply IH. intros w' Hw' Hcode. apply Hok; [by right|done].
Qed.

Lemma market_stocks_loop wh date W : forall acc ids,
  Market.create_stocks_loop wh date W (map (to_market wh date) acc) ids
  = (match (Seller.create_stocks_loop W acc ids).1 with
     | inl e => inl e
     | inr stocks => inr (map (to_market wh date) stocks)
     end, (Seller.create_stocks_loop W acc ids).2).
Proof.
  induction W as [|w W IH]; intros acc ids;
    cbn [Market.create_stocks_loop Seller.create_stocks_loop]; [done|].
  destruct (contains (str (get "Код" w)) ids); [|apply IH].
  destruct (stock_of (get "Количество" w)) as [e|n]; [done|].
  destruct (remove (str (get "Код" w)) ids) as [e|ids1]; [done|].
  rewrite <- IH. by rewrite map_app.
Qed.

Lemma market_create_stocks wh date W ids :
  Market.create_stocks wh date W ids
  = (match (Seller.create_stocks W ids).1 with
     | inl e => inl e
     | inr stocks => inr (map (to_market wh date) stocks)
     end, (Seller.create_stocks W ids).2).
Proof.
  unfold Market.create_stocks, Seller.create_stocks.
  pose proof (market_stocks_loop wh date W [] ids) as Hloop.
  simpl in Hloop. rewrite Hloop. clear Hloop.
  destruct (Seller.create_stocks_loop W [] ids) as [[e|stocks] left];
    simpl; [done|].
  by rewrite map_app, map_map.
Qed.

Lemma seller_create_stocks_sound W ids stocks left :
  NoDup ids ->
  Seller.create_stocks W ids = (inr stocks, left) ->
  map Seller.offer_id stocks ≡ₚ ids /\
  forall entry, entry ∈ stocks ->
    match first_record (Seller.offer_id entry) W with
    | Some w => stock_of (get "Количество" w) = inr (Seller.stock entry)
    | None => Seller.stock entry = 0
    end.
Proof.
  intros Hnd. unfold Seller.create_stocks.
  destruct (Seller.create_stocks_loop W [] ids) as [[e|matched] left'] eqn:Hloop;
    [done|].
  intros [= <- <-].
  destruct (seller_stocks_loop_sound _ _ _ _ _ Hnd Hloop)
    as (matched' & Heq & Hperm & Hm & Hl).
  simpl in Heq. subst matched'. split.
  - by rewrite map_app, map_map, map_id.
  - intros entry [Hentry|Hentry]%elem_of_app.
    + destruct (Hm entry Hentry) as (w & -> & Hq). exact Hq.
    + apply list_elem_of_fmap in Hentry as (id & -> & Hid). simpl.
      by rewrite (Hl id Hid).
Qed.

Lemma seller_create_stocks_succeeds W ids :
  (forall w, w ∈ W -> code w ∈ ids ->
     exists n, stock_of (get "Количество" w) = inr n) ->
  exists stocks left, Seller.create_stocks W ids = (inr stocks, left).
Proof.
  intros Hok. unfold Seller.create_stocks.
  destruct (seller_stocks_loop_succeeds W [] ids Hok) as (stocks & left & ->).
  by eauto.
Qed.

(** C1. Reconciliation completeness: for a catalog list without
    repetition and any feed, the list that [create_stocks] returns (Ozon
    and Yandex Market alike) has the catalog ids as its ids, each exactly
    once: its ids are a permutation of the catalog list.  An id that some
    record carries has the normalized quantity of the record that matched
    it, the first one with that code; every other id has count 0.  The
    list is returned whenever the quantity of every record found in the
    catalog converts. *)
Theorem create_stocks_complete (watch_remnants : list watch)
    (offer_ids : list string) (warehouse_id date : string) :
  NoDup offer_ids ->
  (forall stocks left,
     Seller.create_stocks watch_remnants offer_ids = (inr stocks, left) ->
     map Seller.offer_id stocks ≡ₚ offer_ids /\
     NoDup (map Seller.offer_id stocks) /\
     forall entry, entry ∈ stocks ->
       match first_record (Seller.offer_id entry) watch_remnants with
       | Some w => stock_of (get "Количество" w) = inr (Seller.stock entry)
       | None => Seller.stock entry = 0
       end) /\
  (forall stocks left,
     Market.create_stocks warehouse_id date watch_remnants offer_ids
     = (inr stocks, left) ->
     map Market.sku stocks ≡ₚ offer_ids /\
     NoDup (map Market.sku stocks) /\
     forall entry, entry ∈ stocks ->
       exists n,
         Market.items entry
         = [ {| Market.count := n; Market.type := "FIT";
                Market.updatedAt := date |} ] /\
         Market.warehouseId entry = warehouse_id /\
         match first_record (Market.sku entry) watch_remnants with
         | Some w => stock_of (get "Количество" w) = inr n
         | None => n = 0
         end) /\
  ((forall w, w ∈ watch_remnants -> code w ∈ offer_ids ->
      exists n, stock_of (get "Количество" w) = inr n) ->
   (exists stocks left,
      Seller.create_stocks watch_remnants offer_ids = (inr stocks, left)) /\
   (exists stocks left,
      Market.create_stocks warehouse_id date watch_remnants offer_ids
      = (inr stocks, left))).
Proof.
  intros Hnd. split; [|split].
  - intros stocks left Hrun.
    destruct (seller_create_stocks_sound _ _ _ _ Hnd Hrun) as [Hperm Hentries].
    repeat split; [done| |done]. by rewrite Hperm.
  - intros mstocks left. rewrite market_create_stocks.
    destruct (Seller.create_stocks watch_remnants offer_ids)
      as [[e|stocks] left'] eqn:Hrun; simpl; [done|].
    intros [= <- <-].
    destruct (seller_create_stocks_sound _ _ _ _ Hnd Hrun) as [Hperm Hentries].
    assert (Hsku : map Market.sku (map (to_market warehouse_id date) stocks)
                   = map Seller.offer_id stocks) by (by rewrite map_map).
    rewrite Hsku. repeat split; [done|by rewrite Hperm|].
    intros entry Hentry.
    apply list_elem_of_fmap in Hentry as (sentry & -> & Hsentry).
    exists (Seller.stock sentry). repeat split. by apply Hentries.
  - intros Hok.
    destruct (seller_create_stocks_succeeds _ _ Hok) as (stocks & left & Hrun).
    split; [by eauto|]. rewrite market_create_stocks, Hrun. by eauto.
Qed.

Lemma create_stocks_complete_witness :
  NoDup ["A"; "B"; "C"] /\
  map Seller.offer_id
      [ {| Seller.offer_id := "A"; Seller.stock := 100 |};
        {| Seller.offer_id := "C"; Seller.stock := 0 |};
        {| Seller.offer_id := "B"; Seller.stock := 0 |} ]
  ≡ₚ ["A"; "B"; "C"].
Proof.
  assert (Hnd : NoDup ["A"; "B"; "C"]).
  { apply (bool_decide_unpack _). vm_compute. exact I. }
  split; [exact Hnd|].
  destruct (create_stocks_complete scenario_feed ["A"; "B"; "C"] "w" "d" Hnd)
    as (Hseller & _).
  destruct (Hseller _ ["B"] eq_refl) as (Hperm & _). exact Hperm.
Defined.

Lemma seller_prices_loop W : forall acc ids prices,
  Seller.create_prices_loop W acc ids = inr prices ->
  exists emitted,
    prices = acc ++ emitted /\
    map Seller.price_offer_id emitted
    = List.filter (fun c => contains c ids) (map code W).
Proof.
  induction W as [|w W IH]; intros acc ids prices;
    cbn [Seller.create_prices_loop].
  - intros [= <-]. exists []. by rewrite app_nil_r.
  - fold (code w). cbn [map List.filter].
    destruct (contains (code w) ids).
    + destruct (price_conversion (get "Цена" w)) as [e|converted]; [done|].
      simpl. intros Hloop.
      destruct (IH _ _ _ Hloop) as (emitted & -> & Hids).
      eexists (_ :: emitted). split; [by rewrite <- app_assoc|].
      simpl. by rewrite Hids.
    + apply IH.
Qed.

Lemma market_prices_loop W : forall acc ids prices,
  Market.create_prices_loop W acc ids = inr prices ->
  exists emitted,
    prices = acc ++ emitted /\
    map Market.id emitted
    = List.filter (fun c => contains c ids) (map code W).
Proof.
  induction W as [|w W IH]; intros acc ids prices;
    cbn [Market.create_prices_loop].
  - intros [= <-]. exists []. by rewrite app_nil_r.
  - fold (code w). cbn [map List.filter].
    destruct (contains (code w) ids).
    + destruct (price_conversion (get "Цена" w)) as [e|converted]; [done|].
      simpl. destruct (int_of_str converted) as [e|value]; [done|].
      simpl. intros Hloop.
      destruct (IH _ _ _ Hloop) as (emitted & -> & Hids).
      eexists (_ :: emitted). split; [by rewrite <- app_assoc|].
      simpl. by rewrite Hids.
    + apply IH.
Qed.

Lemma filter_contains_ext (ids ids' : list string) (codes : list string) :
  (forall c, c ∈ codes -> ((c ∈ ids') <-> (c ∈ ids))) ->
  List.filter (fun c => contains c ids') codes
  = List.filter (fun c => contains c ids) codes.
Proof.
  intros Hsame. apply filter_ext_in. intros c Hc.
  apply list_elem_of_In in Hc. specialize (Hsame c Hc).
  rewrite <- !contains_elem_of in Hsame.
  destruct (contains c ids'), (contains c ids); try done.
  - symmetry. by apply Hsame.
  - by apply Hsame.
Qed.

Lemma seller_stocks_loop_matched W : forall acc ids stocks left,
  NoDup (map code W) ->
  Seller.create_stocks_loop W acc ids = (inr stocks, left) ->
  exists matched,
    stocks = acc ++ matched /\
    map Seller.offer_id matched
    = List.filter (fun c => contains c ids) (map code W).
Proof.
  induction W as [|w W IH]; intros acc ids stocks left Hnd;
    cbn [Seller.create_stocks_loop].
  - intros [= <- <-]. exists []. by rewrite app_nil_r.
  - fold (code w). cbn [map List.filter].
    cbn [map] in Hnd. apply NoDup_cons in Hnd as [Hfresh Hnd].
    destruct (contains (code w) ids).
    + destruct (stock_of (get "Количество" w)) as [e|n]; [done|].
      destruct (remove (code w) ids) as [e|ids1] eqn:Hrem; [done|].
      intros Hloop.
      destruct (IH _ _ _ _ Hnd Hloop) as (matched & -> & Hids).
      eexists (_ :: matched). split; [by rewrite <- app_assoc|].
      simpl. rewrite Hids. f_equal. apply filter_contains_ext.
      intros c Hc. apply (remove_other _ _ _ _ Hrem). by intros ->.
    + by apply IH.
Qed.

Lemma filter_contains_elem (ids codes : list string) (c : string) :
  c ∈ List.filter (fun c => contains c ids) codes -> c ∈ ids /\ c ∈ codes.
Proof.
  intros Hc. apply list_elem_of_In, filter_In in Hc as [Hin Hcat].
  split; [by apply contains_elem_of | by apply list_elem_of_In].
Qed.

Lemma code_elem_of (c : string) (W : list watch) :
  c ∈ map code W -> exists w, w ∈ W /\ code w = c.
Proof.
  intros Hc. apply list_elem_of_fmap in Hc as (w & -> & Hw). by exists w.
Qed.

Lemma seller_stocks_matched W ids stocks left :
  NoDup (map code W) ->
  Seller.create_stocks W ids = (inr stocks, left) ->
  exists matched,
    stocks = matched ++
             map (fun id => {| Seller.offer_id := id; Seller.stock := 0 |}) left /\
    map Seller.offer_id matched
    = List.filter (fun c => contains c ids) (map code W).
Proof.
  intros Hnd. unfold Seller.create_stocks.
  destruct (Seller.create_stocks_loop W [] ids) as [[e|matched] left'] eqn:Hloop;
    [done|].
  intros [= <- <-].
  destruct (seller_stocks_loop_matched _ _ _ _ _ Hnd Hloop)
    as (matched' & Heq & Hids).
  simpl in Heq. subst matched'. by exists matched.
Qed.

(** C2, as the code has it. Every price entry of [create_prices] carries
    the code of a supplier record and that code is in the catalog, so no
    price is emitted for an id without a supplier record.  When no two
    records of the feed share a code, the price entries are, id for id,
    the matched stock entries of [create_stocks] run on a copy of the same
    catalog list, hence as many. *)
Theorem create_prices_exclusive (watch_remnants : list watch)
    (offer_ids : list string) (warehouse_id date : string) :
  (forall prices,
     Seller.create_prices watch_remnants offer_ids = inr prices ->
     forall p, p ∈ prices ->
       Seller.price_offer_id p ∈ offer_ids /\
       exists w, w ∈ watch_remnants /\ code w = Seller.price_offer_id p) /\
  (forall prices,
     Market.create_prices watch_remnants offer_ids = inr prices ->
     forall p, p ∈ prices ->
       Market.id p ∈ offer_ids /\
       exists w, w ∈ watch_remnants /\ code w = Market.id p) /\
  (NoDup (map code watch_remnants) ->
   (forall stocks left prices,
      Seller.create_stocks watch_remnants offer_ids = (inr stocks, left) ->
      Seller.create_prices watch_remnants offer_ids = inr prices ->
      exists matched,
        stocks = matched ++
                 map (fun id => {| Seller.offer_id := id; Seller.stock := 0 |})
                     left /\
        map Seller.price_offer_id prices = map Seller.offer_id matched /\
        length prices = length matched) /\
   (forall stocks left prices,
      Market.create_stocks warehouse_id date watch_remnants offer_ids
      = (inr stocks, left) ->
      Market.create_prices watch_remnants offer_ids = inr prices ->
      exists matched,
        stocks = matched ++
                 map (fun id =>
                        {| Market.sku := id;
                           Market.warehouseId := warehouse_id;
                           Market.items :=
                             [ {| Market.count := 0; Market.type := "FIT";
                                  Market.updatedAt := date |} ] |})
                     left /\
        map Market.id prices = map Market.sku matched /\
        length prices = length matched)).
Proof.
  split; [|split].
  - intros prices Hrun p Hp.
    destruct (seller_prices_loop _ _ _ _ Hrun) as (emitted & Heq & Hids).
    simpl in Heq. subst emitted.
    assert (Hin : Seller.price_offer_id p ∈ map Seller.price_offer_id prices)
      by (by apply list_elem_of_fmap_2).
    rewrite Hids in Hin. apply filter_contains_elem in Hin as [Hcat Hcode].
    split; [done | by apply code_elem_of].
  - intros prices Hrun p Hp.
    destruct (market_prices_loop _ _ _ _ Hrun) as (emitted & Heq & Hids).
    simpl in Heq. subst emitted.
    assert (Hin : Market.id p ∈ map Market.id prices)
      by (by apply list_elem_of_fmap_2).
    rewrite Hids in Hin. apply filter_contains_elem in Hin as [Hcat Hcode].
    split; [done | by apply code_elem_of].
  - intros Hnd. split.
    + intros stocks left prices Hstocks Hprices.
      destruct (seller_stocks_matched _ _ _ _ Hnd Hstocks)
        as (matched & -> & Hmatched).
      destruct (seller_prices_loop _ _ _ _ Hprices) as (emitted & Heq & Hids).
      simpl in Heq. subst emitted.
      exists matched. split; [done|].
      assert (Hsame : map Seller.price_offer_id prices
                      = map Seller.offer_id matched) by congruence.
      split; [done|].
      by rewrite <- (length_map Seller.price_offer_id), Hsame, length_map.
    + intros mstocks left prices. rewrite market_create_stocks.
      destruct (Seller.create_stocks watch_remnants offer_ids)
        as [[e|stocks] left'] eqn:Hstocks; simpl; [done|].
      intros [= <- <-] Hprices.
      destruct (seller_stocks_matched _ _ _ _ Hnd Hstocks)
        as (matched & -> & Hmatched).
      destruct (market_prices_loop _ _ _ _ Hprices) as (emitted & Heq & Hids).
      simpl in Heq. subst emitted.
      exists (map (to_market warehouse_id date) matched).
      split; [by rewrite map_app, map_map|].
      assert (Hsame : map Market.id prices
                      = map Market.sku (map (to_market warehouse_id date) matched)).
      { rewrite map_map, Hids, <- Hmatched. by apply map_ext. }
      split; [done|].
      by rewrite <- (length_map Market.id), Hsame, length_map.
Qed.

(** The end-to-end scenario of the specification: catalog [A, B, C], feed
    [A: ">10"], [C: "1"]. *)
Example end_to_end_scenario :
  Seller.create_stocks scenario_feed ["A"; "B"; "C"]
  = (inr [ {| Seller.offer_id := "A"; Seller.stock := 100 |};
           {| Seller.offer_id := "C"; Seller.stock := 0 |};
           {| Seller.offer_id := "B"; Seller.stock := 0 |} ], ["B"]) /\
  Market.create_prices scenario_feed ["A"; "B"; "C"]
  = inr [ {| Market.id := "A";
             Market.price := {| Market.value := 1000;
                                Market.currencyId := "RUR" |} |};
          {| Market.id := "C";
             Market.price := {| Market.value := 2500;
                                Market.currencyId := "RUR" |} |} ].
Proof. split; reflexivity. Qed.

(** C2 as stated fails: a feed that lists a code twice gets two price
    entries for one matched stock entry. *)
Lemma create_prices_counts_duplicates :
  let w1 : watch := <["Код" := PyStr "A"]> (<["Количество" := PyStr "5"]>
                      (<["Цена" := PyStr "10.00"]> ∅)) in
  let w2 : watch := <["Код" := PyStr "A"]> (<["Количество" := PyStr "7"]>
                      (<["Цена" := PyStr "20.00"]> ∅)) in
  exists stocks prices,
    Seller.create_stocks [w1; w2] ["A"] = (inr stocks, []) /\
    Seller.create_prices [w1; w2] ["A"] = inr prices /\
    stocks = [ {| Seller.offer_id := "A"; Seller.stock := 5 |} ] /\
    map Seller.price prices = ["10"; "20"] /\
    length prices <> length stocks.
Proof.
  intros w1 w2. eexists _, _.
  split; [reflexivity|]. split; [reflexivity|]. by repeat split.
Qed.

Lemma create_prices_exclusive_witness :
  let stocks :=
    [ {| Seller.offer_id := "A"; Seller.stock := 100 |};
      {| Seller.offer_id := "C"; Seller.stock := 0 |};
      {| Seller.offer_id := "B"; Seller.stock := 0 |} ] in
  let price_of id value :=
    {| Seller.auto_action_enabled := "UNKNOWN"; Seller.currency_code := "RUB";
       Seller.price_offer_id := id; Seller.old_price := "0";
       Seller.price := value |} in
  let prices := [ price_of "A" "1000"; price_of "C" "2500" ] in
  NoDup (map code scenario_feed) /\
  exists matched,
    stocks = matched ++
             map (fun id => {| Seller.offer_id := id; Seller.stock := 0 |})
                 ["B"] /\
    map Seller.price_offer_id prices = map Seller.offer_id matched /\
    length prices = length matched.
Proof.
  intros stocks price_of prices.
  assert (Hnd : NoDup (map code scenario_feed)).
  { apply (bool_decide_unpack _). vm_compute. exact I. }
  split; [exact Hnd|].
  destruct (create_prices_exclusive scenario_feed ["A"; "B"; "C"] "w" "d")
    as (_ & _ & Hcount).
  destruct (Hcount Hnd) as [Hseller _].
  apply (Hseller stocks ["B"] prices); reflexivity.
Defined.

(** ** Submission of the batches *)

Section Submissions.
Context {S P A : Type}.
Variable net : transport S P.
Variable call : list A -> event S P.
Variable submit : list A -> io S P unit.
Hypothesis submit_eq : forall batch log,
  submit batch log
  = (match status net log (call batch) with
     | Some e => inl e
     | None => inr tt
     end, log ++ [call batch]).

Lemma for_each_fails (batches : list (list A)) :
  forall (log : list (event S P)) (k : nat) (batch : list A) (e : exn),
  batches !! k = Some batch ->
  (forall (j : nat) b, (j < k)%nat -> batches !! j = Some b ->
     status net (log ++ map call (take j batches)) (call b) = None) ->
  status net (log ++ map call (take k batches)) (call batch) = Some e ->
  for_each batches submit log
  = (inl e, log ++ map call (take (Datatypes.S k) batches)).
Proof.
  induction batches as [|b0 rest IH]; intros log k batch e Hk Hbefore Hfail;
    [done|].
  cbn [for_each]. unfold mbind, io_bind. rewrite submit_eq.
  destruct k as [|k].
  - injection Hk as ->. simpl in Hfail. rewrite app_nil_r in Hfail.
    by rewrite Hfail.
  - pose proof (Hbefore 0%nat b0 ltac:(lia) eq_refl) as Hfirst.
    simpl in Hfirst. rewrite app_nil_r in Hfirst. rewrite Hfirst.
    rewrite (IH (log ++ [call b0]) k batch e Hk).
    + simpl. by rewrite <- app_assoc.
    + intros j b Hj Hb. rewrite <- app_assoc.
      apply (Hbefore (Datatypes.S j) b); [lia|done].
    + rewrite <- app_assoc. exact Hfail.
Qed.

Lemma for_each_succeeds (batches : list (list A)) :
  forall (log : list (event S P)),
  (forall (j : nat) b, batches !! j = Some b ->
     status net (log ++ map call (take j batches)) (call b) = None) ->
  for_each batches submit log = (inr tt, log ++ map call batches).
Proof.
  induction batches as [|b0 rest IH]; intros log Hall.
  - simpl. by rewrite app_nil_r.
  - cbn [for_each]. unfold mbind, io_bind. rewrite submit_eq.
    pose proof (Hall 0%nat b0 eq_refl) as Hfirst.
    simpl in Hfirst. rewrite app_nil_r in Hfirst. rewrite Hfirst.
    rewrite (IH (log ++ [call b0])).
    + simpl. by rewrite <- app_assoc.
    + intros j b Hb. rewrite <- app_assoc.
      apply (Hall (Datatypes.S j) b Hb).
Qed.

Lemma for_each_log (batches : list (list A)) :
  forall (log : list (event S P)),
  exists k : nat,
    (for_each batches submit log).2 = log ++ map call (take k batches).
Proof.
  induction batches as [|b0 rest IH]; intros log.
  - exists 0%nat. simpl. by rewrite app_nil_r.
  - cbn [for_each]. unfold mbind, io_bind. rewrite submit_eq.
    destruct (status net log (call b0)) as [e|].
    + by exists 1%nat.
    + destruct (IH (log ++ [call b0])) as [k Hk].
      exists (Datatypes.S k). rewrite Hk. simpl. by rewrite <- app_assoc.
Qed.


Lemma for_each_returns (batches : list (list A)) :
  forall (log log' : list (event S P)),
  for_each batches submit log = (inr tt, log') ->
  log' = log ++ map call batches.
Proof.
  induction batches as [|b0 rest IH]; intros log log'; cbn [for_each].
  - intros [= <-]. simpl. by rewrite app_nil_r.
  - unfold mbind, io_bind. rewrite submit_eq.
    destruct (status net log (call b0)); [done|].
    intros Hrest. rewrite (IH _ _ Hrest). simpl. by rewrite <- app_assoc.
Qed.
End Submissions.

Section IoSpec.
Context {S P : Type}.
Variable Q : event S P -> Prop.

Lemma io_spec_ret {A} (R : A -> Prop) (x : A) :
  R x -> io_spec Q R (mret x).
Proof.
  intros HR log. exists []. simpl. rewrite app_nil_r.
  repeat split; [done|]. by intros y [= <-].
Qed.

Lemma io_spec_lift {A} (R : A -> Prop) (r : exn + A) :
  (forall x, r = inr x -> R x) -> io_spec Q R (lift r).
Proof.
  intros HR log. exists []. simpl. rewrite app_nil_r. by repeat split.
Qed.

Lemma io_spec_bind {A B} (R : A -> Prop) (R' : B -> Prop)
    (m : io S P A) (f : A -> io S P B) :
  io_spec Q R m -> (forall x, R x -> io_spec Q R' (f x)) ->
  io_spec Q R' (m ≫= f).
Proof.
  intros Hm Hf log. unfold mbind, io_bind.
  destruct (Hm log) as (new & Hlog & Hnew & Hres).
  destruct (m log) as [[e|x] log'] eqn:Hrun; simpl in *; subst log'.
  - exists new. by repeat split.
  - destruct (Hf x (Hres x eq_refl) (log ++ new)) as (new' & Hlog' & Hnew' & Hres').
    exists (new ++ new'). rewrite Hlog', app_assoc.
    repeat split; [by apply Forall_app|done].
Qed.

Lemma io_spec_for_each {A} (items : list A) (body : A -> io S P unit) :
  Forall (fun x => io_spec Q (fun _ => True) (body x)) items ->
  io_spec Q (fun _ => True) (for_each items body).
Proof.
  induction 1 as [|x items Hx _ IH]; cbn [for_each].
  - by apply io_spec_ret.
  - eapply io_spec_bind; [exact Hx|]. by intros _ _.
Qed.

Lemma io_spec_try_except {A} (R : A -> Prop) (body : io S P A)
    (handler : exn -> io S P A) :
  io_spec Q R body -> (forall e, io_spec Q R (handler e)) ->
  io_spec Q R (try_except body handler).
Proof.
  intros Hbody Hhandler log. unfold try_except.
  destruct (Hbody log) as (new & Hlog & Hnew & Hres).
  destruct (body log) as [[e|x] log'] eqn:Hrun; simpl in *; subst log'.
  - destruct (Hhandler e (log ++ new)) as (new' & Hlog' & Hnew' & Hres').
    exists (new ++ new'). rewrite Hlog', app_assoc.
    repeat split; [by apply Forall_app|done].
  - exists new. by repeat split.
Qed.

Variable net : transport S P.

Lemma io_spec_get_offer_ids (R : list string -> Prop) :
  Q GetOfferIds ->
  (forall log ids, catalog net log = inr ids -> R ids) ->
  io_spec Q R (get_offer_ids net).
Proof.
  intros HQ HR log. exists [GetOfferIds]. simpl.
  repeat split; [by repeat constructor|]. intros ids. apply HR.
Qed.

Lemma io_spec_download_stock :
  Q DownloadStock -> io_spec Q (fun _ => True) (download_stock net).
Proof.
  intros HQ log. exists [DownloadStock]. simpl.
  repeat split. by repeat constructor.
Qed.

Lemma io_spec_update_stocks (stocks : list S) :
  Q (UpdateStocks stocks) ->
  io_spec Q (fun _ => True) (update_stocks net stocks).
Proof.
  intros HQ log. exists [UpdateStocks stocks]. simpl.
  repeat split. by repeat constructor.
Qed.

Lemma io_spec_update_price (prices : list P) :
  Q (UpdatePrice prices) ->
  io_spec Q (fun _ => True) (update_price net prices).
Proof.
  intros HQ log. exists [UpdatePrice prices]. simpl.
  repeat split. by repeat constructor.
Qed.

Lemma io_spec_print (error : option exn) (text : string) :
  Q (Print error text) -> io_spec Q (fun _ => True) (print error text).
Proof.
  intros HQ log. exists [Print error text]. simpl.
  repeat split. by repeat constructor.
Qed.

End IoSpec.

Section Ceilings.
Context {S P : Type}.
Variable Q : event S P -> Prop.
Variable net : transport S P.

Lemma io_spec_stock_batches (stocks : list S) (n : Z) (batches : list (list S)) :
  0 < n -> divide stocks n = inr batches ->
  (forall batch, (length batch <= Z.to_nat n)%nat -> Q (UpdateStocks batch)) ->
  io_spec Q (fun _ => True) (for_each batches (update_stocks net)).
Proof.
  intros Hn Hdiv HQ. apply io_spec_for_each.
  eapply Forall_impl; [by apply (divide_length_le stocks n)|].
  intros batch Hlen. by apply io_spec_update_stocks, HQ.
Qed.

Lemma io_spec_price_batches (prices : list P) (n : Z) (batches : list (list P)) :
  0 < n -> divide prices n = inr batches ->
  (forall batch, (length batch <= Z.to_nat n)%nat -> Q (UpdatePrice batch)) ->
  io_spec Q (fun _ => True) (for_each batches (update_price net)).
Proof.
  intros Hn Hdiv HQ. apply io_spec_for_each.
  eapply Forall_impl; [by apply (divide_length_le prices n)|].
  intros batch Hlen. by apply io_spec_update_price, HQ.
Qed.
End Ceilings.






Lemma try_except_report {S P : Type} (body : io S P unit)
    (log : list (event S P)) :
  try_except body (fun error =>
    match error with
    | ReadTimeout => print None "Превышено время ожидания..."
    | ConnectionError => print (Some error) "Ошибка соединения"
    | _ => print (Some error) "ERROR_2"
    end) log
  = match body log with
    | (inl e, log') => (inr tt, log' ++ [report e])
    | (inr x, log') => (inr x, log')
    end.
Proof.
  unfold try_except. destruct (body log) as [[e|x] log']; [|done].
  by destruct e.
Qed.


















Lemma seller_upload_stocks_run net W log ids stocks batches :
  catalog net log = inr ids ->
  (Seller.create_stocks W ids).1 = inr stocks ->
  divide stocks 100 = inr batches ->
  Seller.upload_stocks net W log
  = match for_each batches (update_stocks net) (log ++ [GetOfferIds]) with
    | (inl e, log') => (inl e, log')
    | (inr _, log') =>
        (inr (filter (fun entry => Seller.stock entry ≠ 0) stocks, stocks), log')
    end.
Proof.
  intros Hids Hstocks Hdiv.
  unfold Seller.upload_stocks, mbind, io_bind, get_offer_ids, lift.
  rewrite Hids, Hstocks, Hdiv.
  by destruct (for_each batches (update_stocks net) (log ++ [GetOfferIds]))
    as [[e|[]] log'].
Qed.

Lemma market_upload_prices_run net W log ids prices batches :
  catalog net log = inr ids ->
  Market.create_prices W ids = inr prices ->
  divide prices 500 = inr batches ->
  Market.upload_prices net W log
  = match for_each batches (update_price net) (log ++ [GetOfferIds]) with
    | (inl e, log') => (inl e, log')
    | (inr _, log') => (inr prices, log')
    end.
Proof.
  intros Hids Hprices Hdiv.
  unfold Market.upload_prices, mbind, io_bind, get_offer_ids, lift.
  rewrite Hids, Hprices, Hdiv.
  by destruct (for_each batches (update_price net) (log ++ [GetOfferIds]))
    as [[e|[]] log'].
Qed.

Lemma divide_250_by_100 {A} (items : list A) :
  length items = 250%nat ->
  divide items 100
  = inr [ take 100 items; take 100 (drop 100 items);
          take 100 (drop 200 items) ].
Proof.
  intros Hlen. rewrite divide_chunks by lia.
  unfold chunk_count. rewrite Hlen. reflexivity.
Qed.

(** C8. Abort on submission failure.  The batches are submitted one after
    the other in the order of the partition.  When submission number [k]
    (counted from 0) is the first to raise, the log ends with batch [k],
    submitted once: no later batch is submitted and nothing is tried
    again; the exception is the outcome of the loop, and of
    [upload_stocks] (Ozon) and [upload_prices] (Yandex Market) around it.
    With 250 stock entries and the ceiling 100 the calls carry 100, 100
    and 50 entries, in that order; when the second raises, the third is
    not made and [upload_stocks] raises. *)
Theorem upload_aborts_on_failure :
  (forall (S P : Type) (net : transport S P) (updates : list S) (ceiling : Z)
          (batches : list (list S)) (log : list (event S P)),
     divide updates ceiling = inr batches ->
     (exists k : nat,
        (for_each batches (update_stocks net) log).2
        = log ++ map UpdateStocks (take k batches)) /\
     ((forall (j : nat) b, batches !! j = Some b ->
         status net (log ++ map UpdateStocks (take j batches)) (UpdateStocks b)
         = None) ->
      for_each batches (update_stocks net) log
      = (inr tt, log ++ map UpdateStocks batches)) /\
     (forall (k : nat) (batch : list S) (e : exn),
        batches !! k = Some batch ->
        (forall (j : nat) b, (j < k)%nat -> batches !! j = Some b ->
           status net (log ++ map UpdateStocks (take j batches))
                  (UpdateStocks b) = None) ->
        status net (log ++ map UpdateStocks (take k batches))
               (UpdateStocks batch) = Some e ->
        for_each batches (update_stocks net) log
        = (inl e, log ++ map UpdateStocks (take (k + 1) batches)))) /\
  (forall (S P : Type) (net : transport S P) (updates : list P) (ceiling : Z)
          (batches : list (list P)) (log : list (event S P)),
     divide updates ceiling = inr batches ->
     (exists k : nat,
        (for_each batches (update_price net) log).2
        = log ++ map UpdatePrice (take k batches)) /\
     ((forall (j : nat) b, batches !! j = Some b ->
         status net (log ++ map UpdatePrice (take j batches)) (UpdatePrice b)
         = None) ->
      for_each batches (update_price net) log
      = (inr tt, log ++ map UpdatePrice batches)) /\
     (forall (k : nat) (batch : list P) (e : exn),
        batches !! k = Some batch ->
        (forall (j : nat) b, (j < k)%nat -> batches !! j = Some b ->
           status net (log ++ map UpdatePrice (take j batches))
                  (UpdatePrice b) = None) ->
        status net (log ++ map UpdatePrice (take k batches))
               (UpdatePrice batch) = Some e ->
        for_each batches (update_price net) log
        = (inl e, log ++ map UpdatePrice (take (k + 1) batches)))) /\
  (forall net W log ids stocks batches (k : nat) batch e,
     catalog net log = inr ids ->
     (Seller.create_stocks W ids).1 = inr stocks ->
     divide stocks 100 = inr batches ->
     batches !! k = Some batch ->
     (forall (j : nat) b, (j < k)%nat -> batches !! j = Some b ->
        status net (log ++ GetOfferIds :: map UpdateStocks (take j batches))
               (UpdateStocks b) = None) ->
     status net (log ++ GetOfferIds :: map UpdateStocks (take k batches))
            (UpdateStocks batch) = Some e ->
     Seller.upload_stocks net W log
     = (inl e, log ++ GetOfferIds :: map UpdateStocks (take (k + 1) batches))) /\
  (forall net W log ids prices batches (k : nat) batch e,
     catalog net log = inr ids ->
     Market.create_prices W ids = inr prices ->
     divide prices 500 = inr batches ->
     batches !! k = Some batch ->
     (forall (j : nat) b, (j < k)%nat -> batches !! j = Some b ->
        status net (log ++ GetOfferIds :: map UpdatePrice (take j batches))
               (UpdatePrice b) = None) ->
     status net (log ++ GetOfferIds :: map UpdatePrice (take k batches))
            (UpdatePrice batch) = Some e ->
     Market.upload_prices net W log
     = (inl e, log ++ GetOfferIds :: map UpdatePrice (take (k + 1) batches))) /\
  (forall net W log ids stocks,
     catalog net log = inr ids ->
     (Seller.create_stocks W ids).1 = inr stocks ->
     length stocks = 250%nat ->
     let first := take 100 stocks in
     let second := take 100 (drop 100 stocks) in
     let third := take 100 (drop 200 stocks) in
     divide stocks 100 = inr [first; second; third] /\
     length first = 100%nat /\ length second = 100%nat /\
     length third = 50%nat /\
     (status net (log ++ [GetOfferIds]) (UpdateStocks first) = None ->
      status net (log ++ [GetOfferIds; UpdateStocks first])
             (UpdateStocks second) = None ->
      status net (log ++ [GetOfferIds; UpdateStocks first; UpdateStocks second])
             (UpdateStocks third) = None ->
      Seller.upload_stocks net W log
      = (inr (filter (fun entry => Seller.stock entry ≠ 0) stocks, stocks),
         log ++ [GetOfferIds; UpdateStocks first; UpdateStocks second;
                 UpdateStocks third])) /\
     (forall e,
        status net (log ++ [GetOfferIds]) (UpdateStocks first) = None ->
        status net (log ++ [GetOfferIds; UpdateStocks first])
               (UpdateStocks second) = Some e ->
        Seller.upload_stocks net W log
        = (inl e, log ++ [GetOfferIds; UpdateStocks first;
                          UpdateStocks second]))).
Proof.
  split; [|split; [|split; [|split]]].
  - intros S P net updates ceiling batches log _.
    split; [|split].
    + apply (for_each_log net UpdateStocks (update_stocks net)
               (fun _ _ => eq_refl)).
    + apply (for_each_succeeds net UpdateStocks (update_stocks net)
               (fun _ _ => eq_refl)).
    + intros k batch e Hk Hbefore Hfail. rewrite Nat.add_1_r.
      by apply (for_each_fails net UpdateStocks (update_stocks net)
                  (fun _ _ => eq_refl) batches log k batch e).
  - intros S P net updates ceiling batches log _.
    split; [|split].
    + apply (for_each_log net UpdatePrice (update_price net)
               (fun _ _ => eq_refl)).
    + apply (for_each_succeeds net UpdatePrice (update_price net)
               (fun _ _ => eq_refl)).
    + intros k batch e Hk Hbefore Hfail. rewrite Nat.add_1_r.
      by apply (for_each_fails net UpdatePrice (update_price net)
                  (fun _ _ => eq_refl) batches log k batch e).
  - intros net W log ids stocks batches k batch e Hids Hstocks Hdiv Hk
      Hbefore Hfail.
    rewrite (seller_upload_stocks_run net W log ids stocks batches) by done.
    rewrite (for_each_fails net UpdateStocks (update_stocks net)
               (fun _ _ => eq_refl) batches _ k batch e Hk).
    + by rewrite <- app_assoc, Nat.add_1_r.
    + intros j b Hj Hb. rewrite <- app_assoc. by apply Hbefore.
    + rewrite <- app_assoc. exact Hfail.
  - intros net W log ids prices batches k batch e Hids Hprices Hdiv Hk
      Hbefore Hfail.
    rewrite (market_upload_prices_run net W log ids prices batches) by done.
    rewrite (for_each_fails net UpdatePrice (update_price net)
               (fun _ _ => eq_refl) batches _ k batch e Hk).
    + by rewrite <- app_assoc, Nat.add_1_r.
    + intros j b Hj Hb. rewrite <- app_assoc. by apply Hbefore.
    + rewrite <- app_assoc. exact Hfail.
  - intros net W log ids stocks Hids Hstocks Hlen first second third.
    pose proof (divide_250_by_100 stocks Hlen) as Hdiv.
    fold first second third in Hdiv.
    split; [exact Hdiv|]. split; [|split; [|split; [|split]]].
    + subst first. rewrite length_take. lia.
    + subst second. rewrite length_take, length_drop. lia.
    + subst third. rewrite length_take, length_drop. lia.
    + intros H1 H2 H3.
      rewrite (seller_upload_stocks_run net W log ids stocks _ Hids Hstocks Hdiv).
      cbn [for_each]. unfold mbind, io_bind, update_stocks.
      rewrite <- ?app_assoc. cbn [app]. by rewrite H1, H2, H3.
    + intros e H1 H2.
      rewrite (seller_upload_stocks_run net W log ids stocks _ Hids Hstocks Hdiv).
      cbn [for_each]. unfold mbind, io_bind, update_stocks.
      rewrite <- ?app_assoc. cbn [app]. by rewrite H1, H2.
Qed.

Lemma upload_aborts_on_failure_witness :
  let stocks :=
    map (fun id => {| Seller.offer_id := id; Seller.stock := 0 |})
        scenario_catalog in
  Seller.upload_stocks second_call_fails [] []
  = (inl HTTPError,
     [ GetOfferIds; UpdateStocks (take 100 stocks);
       UpdateStocks (take 100 (drop 100 stocks)) ]).
Proof.
  intros stocks.
  destruct upload_aborts_on_failure as (_ & _ & _ & _ & Hscenario).
  destruct (Hscenario second_call_fails [] [] scenario_catalog stocks
              eq_refl eq_refl eq_refl) as (_ & _ & _ & _ & _ & Hfail).
  exact (Hfail HTTPError eq_refl eq_refl).
Defined.

Lemma first_record_none id W :
  first_record id W = None -> forall w, w ∈ W -> code w <> id.
Proof.
  intros Hnone w Hw Heq. unfold first_record in Hnone.
  apply list_elem_of_In in Hw.
  pose proof (find_none _ _ Hnone w Hw) as Hneq.
  by apply String.eqb_neq in Hneq.
Qed.

Lemma seller_prices_loop_unmatched W : forall acc ids,
  (forall w, w ∈ W -> code w ∉ ids) ->
  Seller.create_prices_loop W acc ids = inr acc.
Proof.
  induction W as [|w W IH]; intros acc ids Hnone;
    cbn [Seller.create_prices_loop]; [done|].
  fold (code w).
  assert (Hw : contains (code w) ids = false)
    by (apply contains_false, Hnone; by left).
  rewrite Hw. apply IH. intros w' Hw'. apply Hnone. by right.
Qed.

Lemma seller_prices_after_stocks W ids stocks left :
  NoDup ids ->
  Seller.create_stocks W ids = (inr stocks, left) ->
  Seller.create_prices W left = inr [].
Proof.
  intros Hnd. unfold Seller.create_stocks.
  destruct (Seller.create_stocks_loop W [] ids) as [[e|matched] left'] eqn:Hloop;
    [done|].
  intros [= <- <-].
  destruct (seller_stocks_loop_sound _ _ _ _ _ Hnd Hloop)
    as (matched' & _ & _ & _ & Hleft).
  apply seller_prices_loop_unmatched. intros w Hw Hin.
  by apply (first_record_none _ _ (Hleft _ Hin) w Hw).
Qed.

Lemma seller_main_no_prices net :
  (forall log ids, catalog net log = inr ids -> NoDup ids) ->
  io_spec (fun ev => is_update_price ev = false) (fun _ => True)
          (Seller.main net).
Proof.
  intros Hcat. set (Q := fun ev : Seller.call => is_update_price ev = false).
  unfold Seller.main. apply io_spec_try_except.
  - unfold Seller.main_body.
    apply (io_spec_bind Q (fun ids => NoDup ids));
      [by apply io_spec_get_offer_ids|].
    intros ids Hnd.
    apply (io_spec_bind Q (fun _ => True)); [by apply io_spec_download_stock|].
    intros W _.
    destruct (Seller.create_stocks W ids) as [created left] eqn:Hcreated.
    apply (io_spec_bind Q (fun stocks => created = inr stocks));
      [by apply io_spec_lift|].
    intros stocks ->.
    apply (io_spec_bind Q (fun batches => divide stocks 100 = inr batches));
      [by apply io_spec_lift|].
    intros stock_batches Hdiv.
    apply (io_spec_bind Q (fun _ => True));
      [by apply (io_spec_stock_batches Q net stocks 100)|].
    intros _ _.
    rewrite (seller_prices_after_stocks W ids stocks left Hnd Hcreated).
    apply (io_spec_bind Q (fun prices => prices = []));
      [apply io_spec_lift; by intros prices [= <-]|].
    intros prices ->.
    apply (io_spec_bind Q (fun batches => batches = []));
      [apply io_spec_lift; by intros batches [= <-]|].
    intros batches ->. by apply io_spec_ret.
  - intros e. destruct e; by apply io_spec_print.
Qed.

Lemma upload_prices_fresh_ids net W log ids prices :
  catalog net log = inr ids ->
  (Seller.upload_prices net W log).1 = inr prices ->
  Seller.create_prices W ids = inr prices.
Proof.
  intros Hids.
  unfold Seller.upload_prices, mbind, io_bind, get_offer_ids, lift.
  rewrite Hids.
  destruct (Seller.create_prices W ids) as [e|created]; [done|].
  destruct (divide created 1000) as [e|batches]; [done|].
  destruct (for_each batches (update_price net) (log ++ [GetOfferIds]))
    as [[e|[]] log']; [done|].
  simpl. by intros [= ->].
Qed.

(** C10 as stated fails: a feed without repeated codes, against a catalog
    list that holds an id twice, leaves that id in the list, and the
    scripted flow submits its price. *)
Lemma main_submits_price_of_repeated_id :
  NoDup (map code single_record_feed) /\
  Seller.main repeated_id_catalog []
  = (inr tt,
     [ GetOfferIds; DownloadStock;
       UpdateStocks [ {| Seller.offer_id := "A"; Seller.stock := 5 |};
                      {| Seller.offer_id := "A"; Seller.stock := 0 |} ];
       UpdatePrice [ {| Seller.auto_action_enabled := "UNKNOWN";
                        Seller.currency_code := "RUB";
                        Seller.price_offer_id := "A";
                        Seller.old_price := "0";
                        Seller.price := "10" |} ] ]).
Proof.
  split; [|reflexivity].
  apply (bool_decide_unpack _). vm_compute. exact I.
Qed.

(** C10, as the code has it.  [main] hands to [create_prices] the list
    that [create_stocks] has emptied of every matched id.  When the
    catalog list holds no id twice, whatever the feed, the price list
    built from what is left is empty and [main] submits no price at all.
    [upload_prices] instead builds the prices from the list it has just
    fetched, one entry for every record whose code is in it. *)
Theorem main_price_list_empty :
  (forall W ids stocks left,
     NoDup ids ->
     Seller.create_stocks W ids = (inr stocks, left) ->
     Seller.create_prices W left = inr []) /\
  (forall net,
     (forall log ids, catalog net log = inr ids -> NoDup ids) ->
     forall log, exists new,
       new_calls (Seller.main net) log new /\
       Forall (fun ev => is_update_price ev = false) new) /\
  (forall net W log ids prices,
     catalog net log = inr ids ->
     (Seller.upload_prices net W log).1 = inr prices ->
     Seller.create_prices W ids = inr prices /\
     map Seller.price_offer_id prices
     = List.filter (fun c => contains c ids) (map code W)).
Proof.
  split; [|split].
  - apply seller_prices_after_stocks.
  - intros net Hcat log.
    destruct (seller_main_no_prices net Hcat log) as (new & Hlog & Hnew & _).
    by exists new.
  - intros net W log ids prices Hids Hrun.
    pose proof (upload_prices_fresh_ids _ _ _ _ _ Hids Hrun) as Hprices.
    split; [done|].
    destruct (seller_prices_loop _ _ _ _ Hprices) as (emitted & Heq & Hemitted).
    simpl in Heq. by subst emitted.
Qed.

Lemma main_price_list_empty_witness :
  NoDup ["A"; "B"; "C"] /\
  Seller.create_prices scenario_feed ["B"] = inr [] /\
  exists new,
    new_calls (Seller.main distinct_ids_catalog) [] new /\
    Forall (fun ev => is_update_price ev = false) new.
Proof.
  assert (Hnd : NoDup ["A"; "B"; "C"]).
  { apply (bool_decide_unpack _). vm_compute. exact I. }
  destruct main_price_list_empty as (Halias & Hmain & _).
  split; [exact Hnd|]. split.
  - exact (Halias scenario_feed ["A"; "B"; "C"] _ ["B"] Hnd eq_refl).
  - apply (Hmain distinct_ids_catalog). intros log ids [= <-]. exact Hnd.
Defined.

(** * Further properties of the code *)

(** ** Reconciliation on any catalog list *)

Lemma remove_sublist (x : string) (l l' : list string) :
  remove x l = inr l' -> l' `sublist_of` l.
Proof.
  revert l'. induction l as [|y l IH]; intros l'; simpl; [done|].
  destruct (String.eqb_spec y x) as [->|Hne].
  - intros [= ->]. by apply sublist_cons.
  - destruct (remove x l) as [e|rest] eqn:Hrem; simpl; [done|].
    intros [= <-]. apply sublist_skip. by apply IH.
Qed.

Lemma remove_contains (x : string) (l : list string) :
  contains x l = true -> exists l', remove x l = inr l'.
Proof. intros Hin. by apply remove_elem_of, contains_elem_of. Qed.

(** What the first loop of [create_stocks] builds, on any catalog list:
    the entries appended, one for each id removed, in feed order. *)
Lemma seller_stocks_loop_shape W : forall acc ids stocks left,
  Seller.create_stocks_loop W acc ids = (inr stocks, left) ->
  exists matched,
    stocks = acc ++ matched /\
    map Seller.offer_id matched ++ left ≡ₚ ids /\
    map Seller.offer_id matched `sublist_of` map code W /\
    left `sublist_of` ids /\
    (forall entry, entry ∈ matched ->
       exists w, w ∈ W /\ code w = Seller.offer_id entry /\
                 stock_of (get "Количество" w) = inr (Seller.stock entry)).
Proof.
  induction W as [|w W IH]; intros acc ids stocks left;
    cbn [Seller.create_stocks_loop].
  - intros [= <- <-]. exists []. rewrite app_nil_r.
    repeat split; try done. intros entry Hentry.
    by apply elem_of_nil in Hentry.
  - fold (code w). cbn [map].
    destruct (contains (code w) ids) eqn:Hin.
    + destruct (stock_of (get "Количество" w)) as [e|n] eqn:Hstock; [done|].
      destruct (remove (code w) ids) as [e|ids1] eqn:Hrem; [done|].
      intros Hloop.
      destruct (IH _ _ _ _ Hloop) as (matched & -> & Hperm & Hfeed & Hcat & Hrec).
      exists ({| Seller.offer_id := code w; Seller.stock := n |} :: matched).
      split; [by rewrite <- app_assoc|]. split; [|split; [|split]].
      * simpl. rewrite Hperm. symmetry. by apply remove_perm.
      * simpl. by apply sublist_skip.
      * etrans; [exact Hcat|]. by apply (remove_sublist (code w)).
      * intros entry Hentry. apply elem_of_cons in Hentry.
        destruct Hentry as [->|Hentry].
        -- exists w. split; [by left|]. by split.
        -- destruct (Hrec entry Hentry) as (w' & Hw' & Hcode & Hq).
           exists w'. split; [by right|]. by split.
    + intros Hloop.
      destruct (IH _ _ _ _ Hloop) as (matched & -> & Hperm & Hfeed & Hcat & Hrec).
      exists matched. split; [done|]. split; [done|]. split; [|split; [done|]].
      * by apply sublist_cons.
      * intros entry Hentry.
        destruct (Hrec entry Hentry) as (w' & Hw' & Hcode & Hq).
        exists w'. split; [by right|]. by split.
Qed.

Lemma seller_create_stocks_shape W ids stocks left :
  Seller.create_stocks W ids = (inr stocks, left) ->
  exists matched,
    stocks = matched ++
             map (fun id => {| Seller.offer_id := id; Seller.stock := 0 |}) left /\
    map Seller.offer_id matched ++ left ≡ₚ ids /\
    map Seller.offer_id matched `sublist_of` map code W /\
    left `sublist_of` ids /\
    (forall entry, entry ∈ matched ->
       exists w, w ∈ W /\ code w = Seller.offer_id entry /\
                 stock_of (get "Количество" w) = inr (Seller.stock entry)).
Proof.
  unfold Seller.create_stocks.
  destruct (Seller.create_stocks_loop W [] ids) as [[e|matched] left'] eqn:Hloop;
    [done|].
  intros [= <- <-].
  destruct (seller_stocks_loop_shape _ _ _ _ _ Hloop)
    as (matched' & Heq & Hrest).
  simpl in Heq. subst matched'. by exists matched.
Qed.

Lemma market_seller_stocks wh date W ids mstocks left :
  Market.create_stocks wh date W ids = (inr mstocks, left) ->
  exists stocks,
    Seller.create_stocks W ids = (inr stocks, left) /\
    mstocks = map (to_market wh date) stocks.
Proof.
  rewrite market_create_stocks.
  destruct (Seller.create_stocks W ids) as [[e|stocks] left'];
    simpl; [done|].
  intros [= <- <-]. by exists stocks.
Qed.

(** X1. On any catalog list, repeated ids included, the list that
    [create_stocks] returns has as many entries as the catalog list and
    its ids are a permutation of it. *)
Theorem create_stocks_keeps_every_id (watch_remnants : list watch)
    (offer_ids : list string) (warehouse_id date : string) :
  (forall stocks left,
     Seller.create_stocks watch_remnants offer_ids = (inr stocks, left) ->
     map Seller.offer_id stocks ≡ₚ offer_ids /\
     length stocks = length offer_ids) /\
  (forall stocks left,
     Market.create_stocks warehouse_id date watch_remnants offer_ids
     = (inr stocks, left) ->
     map Market.sku stocks ≡ₚ offer_ids /\
     length stocks = length offer_ids).
Proof.
  assert (Hseller : forall stocks left,
            Seller.create_stocks watch_remnants offer_ids = (inr stocks, left) ->
            map Seller.offer_id stocks ≡ₚ offer_ids).
  { intros stocks left Hrun.
    destruct (seller_create_stocks_shape _ _ _ _ Hrun)
      as (matched & -> & Hperm & _).
    by rewrite map_app, map_map, map_id. }
  split.
  - intros stocks left Hrun. pose proof (Hseller _ _ Hrun) as Hperm.
    split; [done|]. by rewrite <- (length_map Seller.offer_id), Hperm.
  - intros mstocks left Hrun.
    destruct (market_seller_stocks _ _ _ _ _ _ Hrun) as (stocks & Hs & ->).
    pose proof (Hseller _ _ Hs) as Hperm.
    assert (Hsku : map Market.sku (map (to_market warehouse_id date) stocks)
                   = map Seller.offer_id stocks) by (by rewrite map_map).
    rewrite Hsku. split; [done|].
    by rewrite length_map, <- (length_map Seller.offer_id), Hperm.
Qed.

(** X2. Order of the stock list: first the entries of the matched
    records, in the order of the feed, then one entry of count 0 for each
    id that [create_stocks] leaves in [offer_ids], in the order of the
    catalog list. *)
Theorem create_stocks_order (watch_remnants : list watch)
    (offer_ids : list string) (stocks : list Seller.stock_entry)
    (left : list string) :
  Seller.create_stocks watch_remnants offer_ids = (inr stocks, left) ->
  exists matched,
    stocks = matched ++
             map (fun id => {| Seller.offer_id := id; Seller.stock := 0 |}) left /\
    map Seller.offer_id matched `sublist_of` map code watch_remnants /\
    left `sublist_of` offer_ids.
Proof.
  intros Hrun.
  destruct (seller_create_stocks_shape _ _ _ _ Hrun)
    as (matched & Hsplit & _ & Hfeed & Hcat & _).
  by exists matched.
Qed.

Lemma create_stocks_order_witness :
  exists matched,
    [ {| Seller.offer_id := "A"; Seller.stock := 100 |};
      {| Seller.offer_id := "C"; Seller.stock := 0 |};
      {| Seller.offer_id := "B"; Seller.stock := 0 |} ]
    = matched ++
      map (fun id => {| Seller.offer_id := id; Seller.stock := 0 |}) ["B"] /\
    map Seller.offer_id matched `sublist_of` map code scenario_feed /\
    ["B"] `sublist_of` ["A"; "B"; "C"].
Proof.
  exact (create_stocks_order scenario_feed ["A"; "B"; "C"] _ ["B"] eq_refl).
Defined.

Lemma create_stocks_keeps_every_id_witness :
  map Seller.offer_id
      [ {| Seller.offer_id := "A"; Seller.stock := 5 |};
        {| Seller.offer_id := "A"; Seller.stock := 0 |} ]
  ≡ₚ ["A"; "A"] /\
  length [ {| Seller.offer_id := "A"; Seller.stock := 5 |};
           {| Seller.offer_id := "A"; Seller.stock := 0 |} ]
  = length ["A"; "A"].
Proof.
  destruct (create_stocks_keeps_every_id single_record_feed ["A"; "A"] "w" "d")
    as [Hseller _].
  exact (Hseller _ ["A"] eq_refl).
Defined.

(** ** When reconciliation raises *)

Lemma stock_of_error (quantity : pyval) (e : exn) :
  stock_of quantity = inl e -> e = ValueError \/ e = TypeError.
Proof.
  unfold stock_of.
  destruct (String.eqb (str quantity) ">10"); [done|].
  destruct (String.eqb (str quantity) "1"); [done|].
  destruct quantity as [s|n|]; simpl; [|done|by intros [= <-]; right].
  intros He. left. by apply (int_of_str_error s).
Qed.

Lemma seller_stocks_loop_raises W : forall acc ids e left,
  Seller.create_stocks_loop W acc ids = (inl e, left) ->
  exists w, w ∈ W /\ code w ∈ ids /\ stock_of (get "Количество" w) = inl e.
Proof.
  induction W as [|w W IH]; intros acc ids e left;
    cbn [Seller.create_stocks_loop]; [done|].
  fold (code w). destruct (contains (code w) ids) eqn:Hin.
  - destruct (stock_of (get "Количество" w)) as [e'|n] eqn:Hstock.
    + intros [= <- <-]. exists w. split; [by left|].
      split; [by apply contains_elem_of|done].
    + destruct (remove_contains _ _ Hin) as [ids1 Hrem]. rewrite Hrem.
      intros Hloop. destruct (IH _ _ _ _ Hloop) as (w' & Hw' & Hcode & Hq).
      exists w'. split; [by right|]. split; [|done].
      eapply sublist_subseteq; [by apply (remove_sublist (code w))|done].
  - intros Hloop. destruct (IH _ _ _ _ Hloop) as (w' & Hw' & Hcode & Hq).
    exists w'. split; [by right|]. by split.
Qed.

Lemma seller_stocks_loop_must_raise W : forall acc ids w e,
  NoDup (map code W) ->
  w ∈ W -> code w ∈ ids -> stock_of (get "Количество" w) = inl e ->
  exists e' left, Seller.create_stocks_loop W acc ids = (inl e', left).
Proof.
  induction W as [|w0 W IH]; intros acc ids w e Hnd Hw Hcode Hq;
    [by apply elem_of_nil in Hw|].
  cbn [Seller.create_stocks_loop]. fold (code w0).
  cbn [map] in Hnd. apply NoDup_cons in Hnd as [Hfresh Hnd].
  apply elem_of_cons in Hw. destruct Hw as [->|Hw].
  - apply contains_elem_of in Hcode. rewrite Hcode, Hq. by eauto.
  - destruct (contains (code w0) ids) eqn:Hin; [|by apply (IH _ _ w e)].
    destruct (stock_of (get "Количество" w0)) as [e0|n]; [by eauto|].
    destruct (remove_contains _ _ Hin) as [ids1 Hrem]. rewrite Hrem.
    apply (IH _ _ w e); try done.
    apply (remove_other _ _ _ _ Hrem); [|done].
    intros Heq. apply Hfresh. rewrite <- Heq. by apply list_elem_of_fmap_2.
Qed.

(** X3. [create_stocks] raises only through the conversion of a quantity:
    the exception is the [ValueError] or [TypeError] that [int] raises on
    the quantity of a record whose code is in the catalog list.  When no
    two records share a code, one such record is enough for it to
    raise. *)
Theorem create_stocks_raises (watch_remnants : list watch)
    (offer_ids : list string) :
  (forall e left,
     Seller.create_stocks watch_remnants offer_ids = (inl e, left) ->
     (e = ValueError \/ e = TypeError) /\
     exists w, w ∈ watch_remnants /\ code w ∈ offer_ids /\
               stock_of (get "Количество" w) = inl e) /\
  (NoDup (map code watch_remnants) ->
   forall w e,
     w ∈ watch_remnants -> code w ∈ offer_ids ->
     stock_of (get "Количество" w) = inl e ->
     exists e' left,
       Seller.create_stocks watch_remnants offer_ids = (inl e', left)).
Proof.
  split.
  - intros e left. unfold Seller.create_stocks.
    destruct (Seller.create_stocks_loop watch_remnants [] offer_ids)
      as [[e'|stocks] left'] eqn:Hloop; [|done].
    intros [= <- <-].
    destruct (seller_stocks_loop_raises _ _ _ _ _ Hloop) as (w & Hw & Hcode & Hq).
    split; [by apply (stock_of_error _ _ Hq)|]. by exists w.
  - intros Hnd w e Hw Hcode Hq. unfold Seller.create_stocks.
    destruct (seller_stocks_loop_must_raise watch_remnants [] offer_ids w e
                Hnd Hw Hcode Hq) as (e' & left & ->).
    by eauto.
Qed.

Lemma create_stocks_raises_witness :
  NoDup (map code malformed_feed) /\
  exists e' left, Seller.create_stocks malformed_feed ["A"] = (inl e', left).
Proof.
  assert (Hnd : NoDup (map code malformed_feed)).
  { apply (bool_decide_unpack _). vm_compute. exact I. }
  split; [exact Hnd|].
  destruct (create_stocks_raises malformed_feed ["A"]) as [_ Hmust].
  destruct malformed_feed as [|w rest] eqn:Hfeed; [discriminate Hfeed|].
  apply (Hmust Hnd w ValueError).
  - by left.
  - injection Hfeed as <- <-. by left.
  - injection Hfeed as <- <-. reflexivity.
Defined.

(** ** Prices *)

Lemma re_sub_non_digit_digits s :
  Forall (fun c => is_digit c = true) (chars (re_sub_non_digit s)).
Proof.
  induction s as [|c rest IH]; simpl; [constructor|].
  destruct (is_digit c) eqn:Hc; [|done]. by constructor.
Qed.

Lemma re_sub_non_digit_id s :
  Forall (fun c => is_digit c = true) (chars s) -> re_sub_non_digit s = s.
Proof.
  induction s as [|c rest IH]; simpl; [done|].
  intros Hall. apply Forall_cons in Hall as [Hc Hrest].
  by rewrite Hc, IH.
Qed.

Lemma before_first_digits s :
  Forall (fun c => is_digit c = true) (chars s) -> before_first "." s = s.
Proof.
  induction s as [|c rest IH]; simpl; [done|].
  intros Hall. apply Forall_cons in Hall as [Hc Hrest].
  destruct (Ascii.eqb_spec c ".") as [->|_]; [discriminate Hc|].
  by rewrite IH.
Qed.

Lemma re_sub_non_digit_length s :
  (String.length (re_sub_non_digit s) <= String.length s)%nat.
Proof.
  induction s as [|c rest IH]; simpl; [done|].
  destruct (is_digit c); simpl; lia.
Qed.

Lemma before_first_length sep s :
  (String.length (before_first sep s) <= String.length s)%nat.
Proof.
  induction s as [|c rest IH]; simpl; [done|].
  destruct (Ascii.eqb c sep); simpl; lia.
Qed.

Lemma price_conversion_str s :
  price_conversion (PyStr s) = inr (re_sub_non_digit (before_first "." s)).
Proof. unfold price_conversion, index. by rewrite split_first. Qed.

(** X4. On a string [price_conversion] never raises.  What it returns
    holds digits only, is no longer than the string, and is left
    unchanged by a second conversion. *)
Theorem price_conversion_digits (price : string) :
  exists converted : string,
    price_conversion (PyStr price) = inr converted /\
    Forall (fun c => is_digit c = true) (chars converted) /\
    (String.length converted <= String.length price)%nat /\
    price_conversion (PyStr converted) = inr converted.
Proof.
  exists (re_sub_non_digit (before_first "." price)).
  pose proof (re_sub_non_digit_digits (before_first "." price)) as Hdigits.
  split; [apply price_conversion_str|]. split; [exact Hdigits|]. split.
  - etrans; [apply re_sub_non_digit_length|apply before_first_length].
  - rewrite price_conversion_str, before_first_digits by done.
    by rewrite re_sub_non_digit_id.
Qed.

Lemma price_conversion_error (price : pyval) (e : exn) :
  price_conversion price = inl e ->
  e = AttributeError /\ forall s, price <> PyStr s.
Proof.
  destruct price as [s|z|]; [by rewrite price_conversion_str| |];
    simpl; intros [= <-]; by split.
Qed.

Lemma seller_prices_loop_map W : forall acc ids prices,
  Seller.create_prices_loop W acc ids = inr prices ->
  exists converted,
    Forall2 (fun w d => price_conversion (get "Цена" w) = inr d)
            (catalogued ids W) converted /\
    prices = acc ++ zip_with seller_price_of (catalogued ids W) converted.
Proof.
  induction W as [|w W IH]; intros acc ids prices;
    cbn [Seller.create_prices_loop].
  - intros [= <-]. exists []. split; [constructor|]. by rewrite app_nil_r.
  - fold (code w). unfold catalogued. cbn [List.filter].
    fold (catalogued ids W). destruct (contains (code w) ids).
    + destruct (price_conversion (get "Цена" w)) as [e|d] eqn:Hconv; [done|].
      simpl. intros Hloop.
      destruct (IH _ _ _ Hloop) as (converted & Hall & ->).
      exists (d :: converted). split; [by constructor|].
      by rewrite <- app_assoc.
    + apply IH.
Qed.

Lemma seller_prices_loop_raises W : forall acc ids e,
  Seller.create_prices_loop W acc ids = inl e ->
  exists w, w ∈ W /\ code w ∈ ids /\ price_conversion (get "Цена" w) = inl e.
Proof.
  induction W as [|w W IH]; intros acc ids e;
    cbn [Seller.create_prices_loop]; [done|].
  fold (code w). destruct (contains (code w) ids) eqn:Hin.
  - destruct (price_conversion (get "Цена" w)) as [e'|d] eqn:Hconv.
    + intros [= <-]. exists w. split; [by left|].
      split; [by apply contains_elem_of|done].
    + simpl. intros Hloop.
      destruct (IH _ _ _ Hloop) as (w' & Hw' & Hcode & Hq).
      exists w'. split; [by right|]. by split.
  - intros Hloop. destruct (IH _ _ _ Hloop) as (w' & Hw' & Hcode & Hq).
    exists w'. split; [by right|]. by split.
Qed.

Lemma seller_prices_loop_returns W : forall acc ids,
  (forall w, w ∈ W -> code w ∈ ids -> exists s, get "Цена" w = PyStr s) ->
  exists prices, Seller.create_prices_loop W acc ids = inr prices.
Proof.
  induction W as [|w W IH]; intros acc ids Hstr;
    cbn [Seller.create_prices_loop]; [by eauto|].
  fold (code w). destruct (contains (code w) ids) eqn:Hin.
  - apply contains_elem_of in Hin.
    destruct (Hstr w ltac:(by left) Hin) as [s ->].
    rewrite price_conversion_str. simpl.
    apply IH. intros w' Hw'. apply Hstr. by right.
  - apply IH. intros w' Hw'. apply Hstr. by right.
Qed.

(** X5. Ozon's [create_prices] returns one entry for each record of the
    feed whose code is in the catalog list, repeated codes included, in
    the order of the feed; the entry carries the record's code and
    converted price.  It raises only [AttributeError], and only on a
    record of the catalog whose price cell is no string; when every such
    cell is a string it returns. *)
Theorem create_prices_one_per_record (watch_remnants : list watch)
    (offer_ids : list string) :
  (forall prices,
     Seller.create_prices watch_remnants offer_ids = inr prices ->
     exists converted,
       Forall2 (fun w d => price_conversion (get "Цена" w) = inr d)
               (catalogued offer_ids watch_remnants) converted /\
       prices = zip_with seller_price_of
                  (catalogued offer_ids watch_remnants) converted) /\
  (forall e,
     Seller.create_prices watch_remnants offer_ids = inl e ->
     e = AttributeError /\
     exists w, w ∈ watch_remnants /\ code w ∈ offer_ids /\
               forall s, get "Цена" w <> PyStr s) /\
  ((forall w, w ∈ watch_remnants -> code w ∈ offer_ids ->
      exists s, get "Цена" w = PyStr s) ->
   exists prices, Seller.create_prices watch_remnants offer_ids = inr prices).
Proof.
  split; [|split].
  - intros prices Hrun.
    destruct (seller_prices_loop_map _ _ _ _ Hrun) as (converted & Hall & ->).
    by exists converted.
  - intros e Hrun.
    destruct (seller_prices_loop_raises _ _ _ _ Hrun) as (w & Hw & Hcode & Hq).
    destruct (price_conversion_error _ _ Hq) as [-> Hcell].
    split; [done|]. by exists w.
  - apply seller_prices_loop_returns.
Qed.

Lemma create_prices_one_per_record_witness :
  exists prices, Seller.create_prices scenario_feed ["A"; "B"; "C"] = inr prices.
Proof.
  destruct (create_prices_one_per_record scenario_feed ["A"; "B"; "C"])
    as (_ & _ & Hreturns).
  apply Hreturns. intros w Hw _.
  unfold scenario_feed in Hw.
  apply elem_of_cons in Hw. destruct Hw as [->|Hw]; [by eexists|].
  apply elem_of_cons in Hw. destruct Hw as [->|Hw]; [by eexists|].
  by apply elem_of_nil in Hw.
Defined.

Lemma foldl_digits_nonneg ds : forall acc,
  0 <= acc -> Forall (fun d => 0 <= d) ds ->
  0 <= foldl (fun acc d => 10 * acc + d) acc ds.
Proof.
  induction ds as [|d ds IH]; intros acc Hacc Hds; simpl; [done|].
  apply Forall_cons in Hds as [Hd Hds]. apply IH; [lia|done].
Qed.

Lemma base10_nonneg ds :
  Forall (fun d => 0 <= d) ds -> 0 <= base10 ds.
Proof. by apply foldl_digits_nonneg. Qed.

Lemma digit_values_nonneg s :
  Forall (fun c => is_digit c = true) (chars s) ->
  Forall (fun d => 0 <= d) (digit_values s).
Proof.
  unfold digit_values. intros Hall. apply Forall_fmap.
  eapply Forall_impl; [exact Hall|]. intros c Hc. simpl.
  pose proof (is_digit_byte c Hc). lia.
Qed.

(** [int] of a converted price: the digits are read as a number that is
    not negative, unless there is none or there are more than the limit
    allows. *)
Lemma int_of_converted s :
  (exists v, int (PyStr (re_sub_non_digit s)) = inr v /\ 0 <= v) \/
  (int (PyStr (re_sub_non_digit s)) = inl ValueError /\
   (re_sub_non_digit s = EmptyString \/
    int_max_str_digits < Z.of_nat (String.length (re_sub_non_digit s)))).
Proof.
  pose proof (re_sub_non_digit_digits s) as Hall. cbn [int].
  destruct (re_sub_non_digit s) as [|c rest] eqn:Hd.
  { right. split; [done|]. by left. }
  rewrite int_of_str_digits by done.
  destruct (Z.leb_spec (Z.of_nat (String.length (String c rest)))
              int_max_str_digits) as [Hlen|Hlen].
  - left. eexists. split; [done|].
    by apply base10_nonneg, digit_values_nonneg.
  - right. split; [done|]. by right.
Qed.

Lemma market_prices_loop_values W : forall acc ids prices,
  Market.create_prices_loop W acc ids = inr prices ->
  exists emitted,
    prices = acc ++ emitted /\
    forall p, p ∈ emitted ->
      0 <= Market.value (Market.price p) /\
      Market.currencyId (Market.price p) = "RUR" /\
      Market.id p ∈ ids.
Proof.
  induction W as [|w W IH]; intros acc ids prices;
    cbn [Market.create_prices_loop].
  - intros [= <-]. exists []. rewrite app_nil_r. split; [done|].
    intros p Hp. by apply elem_of_nil in Hp.
  - destruct (contains (str (get "Код" w)) ids) eqn:Hin; [|apply IH].
    destruct (price_conversion (get "Цена" w)) as [e|d] eqn:Hconv; [done|].
    simpl.
    destruct (get "Цена" w) as [s|z|]; [|done..].
    rewrite price_conversion_str in Hconv. injection Hconv as <-.
    destruct (int_of_converted (before_first "." s)) as [(v & Hv & Hpos)|[Hv _]];
      simpl in Hv; rewrite Hv; [|done].
    simpl. intros Hloop.
    destruct (IH _ _ _ Hloop) as (emitted & -> & Hall).
    eexists (_ :: emitted). split; [by rewrite <- app_assoc|].
    intros p Hp. apply elem_of_cons in Hp. destruct Hp as [->|Hp]; [|by apply Hall].
    simpl. split; [done|]. split; [done|]. by apply contains_elem_of.
Qed.

Lemma market_prices_loop_raises W : forall acc ids e,
  Market.create_prices_loop W acc ids = inl e ->
  exists w, w ∈ W /\ code w ∈ ids /\
    ((e = AttributeError /\ forall s, get "Цена" w <> PyStr s) \/
     (e = ValueError /\
      exists s converted,
        get "Цена" w = PyStr s /\
        price_conversion (PyStr s) = inr converted /\
        (converted = EmptyString \/
         4300 < Z.of_nat (String.length converted)))).
Proof.
  induction W as [|w W IH]; intros acc ids e;
    cbn [Market.create_prices_loop]; [done|].
  fold (code w). destruct (contains (code w) ids) eqn:Hin.
  - assert (Hcode : code w ∈ ids) by (by apply contains_elem_of).
    destruct (price_conversion (get "Цена" w)) as [e'|d] eqn:Hconv.
    + simpl. intros [= <-]. exists w. split; [by left|]. split; [done|].
      left. by apply price_conversion_error.
    + simpl. destruct (get "Цена" w) as [s|z|] eqn:Hcell; [|done..].
      rewrite price_conversion_str in Hconv. injection Hconv as <-.
      destruct (int_of_converted (before_first "." s))
        as [(v & Hv & Hpos)|[Hv Hwhy]]; simpl in Hv; rewrite Hv; simpl.
      * intros Hloop.
        destruct (IH _ _ _ Hloop) as (w' & Hw' & Hcode' & Hq).
        exists w'. split; [by right|]. by split.
      * intros [= <-]. exists w. split; [by left|]. split; [done|].
        right. split; [done|].
        exists s, (re_sub_non_digit (before_first "." s)).
        split; [done|]. split; [|done].
        change (price_conversion (PyStr s)
                = inr (re_sub_non_digit (before_first "." s))).
        by rewrite price_conversion_str.
  - intros Hloop. destruct (IH _ _ _ Hloop) as (w' & Hw' & Hcode' & Hq).
    exists w'. split; [by right|]. by split.
Qed.

(** X6. Yandex Market's [create_prices]: every entry it returns has a
    value that is not negative, the currency ["RUR"] and an id of the
    catalog list.  When it raises, a record of the catalog is at fault:
    either its price cell is no string ([AttributeError]), or [int]
    refuses the digits that stand before the first ['.'] of its price,
    because there is none or there are more than 4300 of them
    ([ValueError]). *)
Theorem market_create_prices_values (watch_remnants : list watch)
    (offer_ids : list string) :
  (forall prices,
     Market.create_prices watch_remnants offer_ids = inr prices ->
     forall p, p ∈ prices ->
       0 <= Market.value (Market.price p) /\
       Market.currencyId (Market.price p) = "RUR" /\
       Market.id p ∈ offer_ids) /\
  (forall e,
     Market.create_prices watch_remnants offer_ids = inl e ->
     exists w, w ∈ watch_remnants /\ code w ∈ offer_ids /\
       ((e = AttributeError /\ forall s, get "Цена" w <> PyStr s) \/
        (e = ValueError /\
         exists s converted,
           get "Цена" w = PyStr s /\
           price_conversion (PyStr s) = inr converted /\
           (converted = EmptyString \/
            4300 < Z.of_nat (String.length converted))))).
Proof.
  split.
  - intros prices Hrun p Hp.
    destruct (market_prices_loop_values _ _ _ _ Hrun) as (emitted & Heq & Hall).
    simpl in Heq. subst emitted. by apply Hall.
  - intros e Hrun. by apply (market_prices_loop_raises _ [] _ _ Hrun).
Qed.

Lemma market_create_prices_values_witness :
  exists prices,
    Market.create_prices scenario_feed ["A"; "B"; "C"] = inr prices /\
    forall p, p ∈ prices ->
      0 <= Market.value (Market.price p) /\
      Market.currencyId (Market.price p) = "RUR" /\
      Market.id p ∈ ["A"; "B"; "C"].
Proof.
  eexists. split; [reflexivity|].
  apply (proj1 (market_create_prices_values scenario_feed ["A"; "B"; "C"])).
  reflexivity.
Defined.

(** ** The number of batches *)

Lemma range_length_ceiling (len n : Z) :
  0 <= len -> 0 < n -> range_length 0 len n = (len + n - 1) / n.
Proof.
  intros Hlen Hn. unfold range_length.
  destruct (Z.ltb_spec 0 n); [|lia].
  destruct (Z.ltb_spec 0 len).
  - replace (len + n - 1) with (len - 1 - 0 + 1 * n) by lia.
    rewrite Z.div_add by lia. lia.
  - replace len with 0 by lia. symmetry. apply Z.div_small. lia.
Qed.

(** X7. For a size [n > 0], [divide] yields the ceiling of [len / n]
    chunks and none of them is empty: no empty batch is ever submitted. *)
Theorem divide_chunk_number {A : Type} (lst : list A) (n : Z)
    (chunks : list (list A)) :
  0 < n ->
  divide lst n = inr chunks ->
  Z.of_nat (length chunks) = (Z.of_nat (length lst) + n - 1) / n /\
  Forall (fun chunk => chunk <> []) chunks.
Proof.
  intros Hn. rewrite divide_chunks by done. intros [= <-].
  destruct (chunk_count_bounds lst n Hn) as (_ & Hlast & Hnil).
  split.
  - rewrite length_map, length_seq. unfold chunk_count.
    rewrite range_length_ceiling by lia.
    apply Z2Nat.id, Z.div_pos; lia.
  - apply Forall_forall. intros chunk Hin.
    apply list_elem_of_In, in_map_iff in Hin as (k & <- & Hk).
    apply in_seq in Hk. intros Hempty.
    apply (f_equal length) in Hempty.
    rewrite length_take, length_drop in Hempty. simpl in Hempty.
    assert (Hne : lst <> []) by (intros ->; specialize (Hnil eq_refl); lia).
    specialize (Hlast Hne). nia.
Qed.

Lemma divide_chunk_number_witness :
  0 < 2 /\
  Z.of_nat (length [ [1; 2]; [3; 4]; [5] ]) = (Z.of_nat (length [1; 2; 3; 4; 5]) + 2 - 1) / 2.
Proof.
  split; [lia|].
  assert (Hpos : 0 < 2) by lia.
  exact (proj1 (divide_chunk_number [1; 2; 3; 4; 5] 2 _ Hpos eq_refl)).
Defined.

(** ** What a successful upload has submitted *)

Lemma divide_concat {A : Type} (lst : list A) (n : Z) :
  0 < n -> exists batches, divide lst n = inr batches /\ concat batches = lst.
Proof.
  intros Hn. eexists. split; [by apply divide_chunks|].
  destruct (chunk_count_bounds lst n Hn) as (Hcover & _).
  rewrite concat_chunks. simpl. rewrite drop_0. by apply take_ge.
Qed.

(** X8. When Ozon's [upload_stocks] returns, the calls it has made are
    the catalog fetch followed by one submission for each batch of
    [divide(stocks, 100)], in order.  The batches put end to end are the
    list [stocks] it returns, whose ids are a permutation of the catalog
    list: every id of the catalog has been submitted, once for each of its
    occurrences. *)
Theorem upload_stocks_submits_all net (watch_remnants : list watch)
    (log log' : list Seller.call)
    (not_empty stocks : list Seller.stock_entry) :
  Seller.upload_stocks net watch_remnants log
  = (inr (not_empty, stocks), log') ->
  exists offer_ids batches,
    catalog net log = inr offer_ids /\
    divide stocks 100 = inr batches /\
    log' = log ++ GetOfferIds :: map UpdateStocks batches /\
    concat batches = stocks /\
    map Seller.offer_id stocks ≡ₚ offer_ids.
Proof.
  unfold Seller.upload_stocks, mbind, io_bind, get_offer_ids, lift.
  destruct (catalog net log) as [e|ids] eqn:Hids; [done|].
  destruct (Seller.create_stocks watch_remnants ids) as [[e|created] left]
    eqn:Hcreated; cbn [fst]; [done|].
  destruct (divide_concat created 100 ltac:(lia)) as (batches & Hdiv & Hconcat).
  rewrite Hdiv.
  destruct (for_each batches (update_stocks net) (log ++ [GetOfferIds]))
    as [[e|[]] log''] eqn:Hloop; [done|].
  intros [= _ <- <-].
  exists ids, batches. split; [done|]. split; [done|].
  split; [|split; [done|]].
  - rewrite (for_each_returns net UpdateStocks (update_stocks net)
               (fun _ _ => eq_refl) _ _ _ Hloop).
    by rewrite <- app_assoc.
  - destruct (seller_create_stocks_shape _ _ _ _ Hcreated)
      as (matched & -> & Hperm & _).
    by rewrite map_app, map_map, map_id.
Qed.

Lemma upload_stocks_submits_all_witness :
  exists offer_ids batches,
    catalog distinct_ids_catalog [] = inr offer_ids /\
    divide [ {| Seller.offer_id := "A"; Seller.stock := 100 |};
             {| Seller.offer_id := "C"; Seller.stock := 0 |};
             {| Seller.offer_id := "B"; Seller.stock := 0 |} ] 100
    = inr batches /\
    [ GetOfferIds;
      UpdateStocks [ {| Seller.offer_id := "A"; Seller.stock := 100 |};
                     {| Seller.offer_id := "C"; Seller.stock := 0 |};
                     {| Seller.offer_id := "B"; Seller.stock := 0 |} ] ]
    = ([] : list Seller.call) ++ GetOfferIds :: map UpdateStocks batches /\
    concat batches
    = [ {| Seller.offer_id := "A"; Seller.stock := 100 |};
        {| Seller.offer_id := "C"; Seller.stock := 0 |};
        {| Seller.offer_id := "B"; Seller.stock := 0 |} ] /\
    map Seller.offer_id
        [ {| Seller.offer_id := "A"; Seller.stock := 100 |};
          {| Seller.offer_id := "C"; Seller.stock := 0 |};
          {| Seller.offer_id := "B"; Seller.stock := 0 |} ]
    ≡ₚ offer_ids.
Proof.
  exact (upload_stocks_submits_all distinct_ids_catalog scenario_feed [] _ _ _
           eq_refl).
Defined.

(** X9. The list [not_empty] that Ozon's [upload_stocks] returns keeps the
    order of [stocks], and each of its entries comes from a record of the
    feed: it carries the code of a record and that record's normalized
    quantity, which is not 0. *)
Theorem upload_stocks_not_empty net (watch_remnants : list watch)
    (log log' : list Seller.call)
    (not_empty stocks : list Seller.stock_entry) :
  Seller.upload_stocks net watch_remnants log
  = (inr (not_empty, stocks), log') ->
  not_empty `sublist_of` stocks /\
  forall entry, entry ∈ not_empty ->
    Seller.stock entry <> 0 /\
    exists w, w ∈ watch_remnants /\ code w = Seller.offer_id entry /\
              stock_of (get "Количество" w) = inr (Seller.stock entry).
Proof.
  unfold Seller.upload_stocks, mbind, io_bind, get_offer_ids, lift.
  destruct (catalog net log) as [e|ids] eqn:Hids; [done|].
  destruct (Seller.create_stocks watch_remnants ids) as [[e|created] left]
    eqn:Hcreated; cbn [fst]; [done|].
  destruct (divide created 100) as [e|batches]; [done|].
  destruct (for_each batches (update_stocks net) (log ++ [GetOfferIds]))
    as [[e|[]] log'']; [done|].
  intros [= <- <- _]. split; [apply sublist_filter|].
  intros entry Hentry. apply list_elem_of_filter in Hentry as [Hstock Hin].
  split; [done|].
  destruct (seller_create_stocks_shape _ _ _ _ Hcreated)
    as (matched & -> & _ & _ & _ & Hrec).
  apply elem_of_app in Hin. destruct Hin as [Hin|Hin]; [by apply Hrec|].
  apply list_elem_of_fmap in Hin as (id & -> & _). done.
Qed.

Lemma upload_stocks_not_empty_witness :
  [ {| Seller.offer_id := "A"; Seller.stock := 100 |} ]
  `sublist_of`
  [ {| Seller.offer_id := "A"; Seller.stock := 100 |};
    {| Seller.offer_id := "C"; Seller.stock := 0 |};
    {| Seller.offer_id := "B"; Seller.stock := 0 |} ].
Proof.
  exact (proj1 (upload_stocks_not_empty distinct_ids_catalog scenario_feed
                  [] _ _ _ eq_refl)).
Defined.

(** ** One malformed record blocks the upload *)

Lemma seller_prices_loop_must_raise W : forall acc ids w,
  w ∈ W -> code w ∈ ids -> (forall s, get "Цена" w <> PyStr s) ->
  Seller.create_prices_loop W acc ids = inl AttributeError.
Proof.
  induction W as [|w0 W IH]; intros acc ids w Hw Hcode Hcell;
    [by apply elem_of_nil in Hw|].
  cbn [Seller.create_prices_loop]. fold (code w0).
  apply elem_of_cons in Hw. destruct Hw as [->|Hw].
  - apply contains_elem_of in Hcode. rewrite Hcode.
    destruct (get "Цена" w0) as [s|z|]; [by destruct (Hcell s)|done..].
  - destruct (contains (code w0) ids); [|by apply (IH _ _ w)].
    destruct (price_conversion (get "Цена" w0)) as [e|d] eqn:Hconv.
    + by destruct (price_conversion_error _ _ Hconv) as [-> _].
    + simpl. by apply (IH _ _ w).
Qed.

Lemma market_prices_loop_must_raise W : forall acc ids w s,
  w ∈ W -> code w ∈ ids -> get "Цена" w = PyStr s ->
  price_conversion (PyStr s) = inr EmptyString ->
  exists e, Market.create_prices_loop W acc ids = inl e.
Proof.
  induction W as [|w0 W IH]; intros acc ids w s Hw Hcode Hcell Hconv;
    [by apply elem_of_nil in Hw|].
  cbn [Market.create_prices_loop]. fold (code w0).
  apply elem_of_cons in Hw. destruct Hw as [->|Hw].
  - apply contains_elem_of in Hcode. rewrite Hcode, Hcell, Hconv. by eauto.
  - destruct (contains (code w0) ids); [|by apply (IH _ _ w s)].
    destruct (price_conversion (get "Цена" w0)) as [e|d]; [by eauto|].
    simpl. destruct (int_of_str d) as [e|v]; [by eauto|].
    simpl. by apply (IH _ _ w s).
Qed.

(** X10. One malformed record of the catalog blocks a whole upload: the
    fetch of the catalog is the only call made and the exception reaches
    the caller.  This holds for Ozon's [upload_stocks] when a quantity
    does not convert (codes of the feed pairwise distinct), for Ozon's
    [upload_prices] when a price cell is no string, and for Yandex
    Market's [upload_prices] when a price has no digit before its first
    ['.']. *)
Theorem malformed_record_blocks_upload :
  (forall net (W : list watch) (log : list Seller.call) ids w e,
     NoDup (map code W) ->
     catalog net log = inr ids ->
     w ∈ W -> code w ∈ ids -> stock_of (get "Количество" w) = inl e ->
     exists e',
       Seller.upload_stocks net W log = (inl e', log ++ [GetOfferIds])) /\
  (forall net (W : list watch) (log : list Seller.call) ids w,
     catalog net log = inr ids ->
     w ∈ W -> code w ∈ ids -> (forall s, get "Цена" w <> PyStr s) ->
     Seller.upload_prices net W log
     = (inl AttributeError, log ++ [GetOfferIds])) /\
  (forall net (W : list watch) (log : list Market.call) ids w s,
     catalog net log = inr ids ->
     w ∈ W -> code w ∈ ids -> get "Цена" w = PyStr s ->
     price_conversion (PyStr s) = inr EmptyString ->
     exists e',
       Market.upload_prices net W log = (inl e', log ++ [GetOfferIds])).
Proof.
  split; [|split].
  - intros net W log ids w e Hnd Hids Hw Hcode Hq.
    destruct (seller_stocks_loop_must_raise W [] ids w e Hnd Hw Hcode Hq)
      as (e' & left & Hloop).
    exists e'.
    unfold Seller.upload_stocks, mbind, io_bind, get_offer_ids, lift.
    rewrite Hids. unfold Seller.create_stocks. by rewrite Hloop.
  - intros net W log ids w Hids Hw Hcode Hcell.
    unfold Seller.upload_prices, mbind, io_bind, get_offer_ids, lift.
    rewrite Hids. unfold Seller.create_prices.
    by rewrite (seller_prices_loop_must_raise W [] ids w Hw Hcode Hcell).
  - intros net W log ids w s Hids Hw Hcode Hcell Hconv.
    destruct (market_prices_loop_must_raise W [] ids w s Hw Hcode Hcell Hconv)
      as [e' Hloop].
    exists e'.
    unfold Market.upload_prices, mbind, io_bind, get_offer_ids, lift.
    rewrite Hids. unfold Market.create_prices. by rewrite Hloop.
Qed.

Lemma malformed_record_blocks_upload_witness :
  exists e',
    Seller.upload_stocks single_id_catalog malformed_feed []
    = (inl e', [GetOfferIds]).
Proof.
  assert (Hnd : NoDup (map code malformed_feed)).
  { apply (bool_decide_unpack _). vm_compute. exact I. }
  destruct malformed_record_blocks_upload as (Hstocks & _).
  refine (Hstocks single_id_catalog malformed_feed [] ["A"]
            (<["Код" := PyStr "A"]> (<["Количество" := PyStr "abc"]>
               (<["Цена" := PyStr "10.00"]> ∅)))
            ValueError Hnd eq_refl _ _ eq_refl).
  - by left.
  - by left.
Defined.

(** ** The two integrations agree *)

Lemma market_price_of_entry (p : Seller.price_entry) :
  market_price_of p
  = match int (PyStr (Seller.price p)) with
    | inl e => inl e
    | inr value =>
        inr {| Market.id := Seller.price_offer_id p;
               Market.price := {| Market.value := value;
                                  Market.currencyId := "RUR" |} |}
    end.
Proof. reflexivity. Qed.

Lemma mapM_cons_exn {A B : Type} (f : A -> exn + B) (x : A) (l : list A) :
  mapM f (x :: l)
  = match f x with
    | inl e => inl e
    | inr y => match mapM f l with
               | inl e => inl e
               | inr k => inr (y :: k)
               end
    end.
Proof. reflexivity. Qed.

Lemma prices_loops_agree W : forall sacc macc ids sprices,
  Seller.create_prices_loop W sacc ids = inr sprices ->
  exists emitted,
    sprices = sacc ++ emitted /\
    Market.create_prices_loop W macc ids
    = match mapM market_price_of emitted with
      | inl e => inl e
      | inr converted => inr (macc ++ converted)
      end.
Proof.
  induction W as [|w W IH]; intros sacc macc ids sprices;
    cbn [Seller.create_prices_loop Market.create_prices_loop].
  - intros [= <-]. exists []. rewrite app_nil_r. split; [done|].
    simpl. by rewrite app_nil_r.
  - destruct (contains (str (get "Код" w)) ids); [|apply IH].
    destruct (price_conversion (get "Цена" w)) as [e|d]; [done|].
    cbn [mbind exn_bind]. intros Hloop.
    destruct (int (PyStr d)) as [e|v] eqn:Hint; cbn [mbind exn_bind].
    + destruct (IH _ macc _ _ Hloop) as (emitted & -> & _).
      eexists (_ :: emitted). split; [by rewrite <- app_assoc|].
      rewrite mapM_cons_exn, market_price_of_entry.
      cbn [Seller.price]. by rewrite Hint.
    + destruct (IH _ (macc ++ [ {| Market.id := str (get "Код" w);
                                   Market.price :=
                                     {| Market.value := v;
                                        Market.currencyId := "RUR" |} |} ])
                  _ _ Hloop) as (emitted & -> & Hmarket).
      eexists (_ :: emitted). split; [by rewrite <- app_assoc|].
      rewrite Hmarket, mapM_cons_exn, market_price_of_entry.
      cbn [Seller.price Seller.price_offer_id]. rewrite Hint.
      destruct (mapM market_price_of emitted) as [e|converted]; [done|].
      by rewrite <- app_assoc.
Qed.

(** X11. The two integrations reconcile alike.  Yandex Market's
    [create_stocks] leaves [offer_ids] as Ozon's does, raises when Ozon's
    raises, with the same exception, and otherwise returns Ozon's entries
    reshaped, in the same order.  When Ozon's [create_prices] returns,
    Yandex Market's is its list with every price string read by [int],
    raising at the first one that [int] refuses. *)
Theorem integrations_agree (watch_remnants : list watch)
    (offer_ids : list string) (warehouse_id date : string) :
  Market.create_stocks warehouse_id date watch_remnants offer_ids
  = (match (Seller.create_stocks watch_remnants offer_ids).1 with
     | inl e => inl e
     | inr stocks => inr (map (to_market warehouse_id date) stocks)
     end, (Seller.create_stocks watch_remnants offer_ids).2) /\
  (forall prices,
     Seller.create_prices watch_remnants offer_ids = inr prices ->
     Market.create_prices watch_remnants offer_ids
     = mapM market_price_of prices).
Proof.
  split; [apply market_create_stocks|].
  intros prices Hrun.
  destruct (prices_loops_agree _ _ [] _ _ Hrun) as (emitted & Heq & Hmarket).
  simpl in Heq. subst emitted. unfold Market.create_prices.
  rewrite Hmarket. by destruct (mapM market_price_of prices).
Qed.

Lemma integrations_agree_witness :
  Market.create_prices scenario_feed ["A"; "B"; "C"]
  = mapM market_price_of
      [ seller_price_of
          (<["Код" := PyStr "A"]> (<["Количество" := PyStr ">10"]>
             (<["Цена" := PyStr "1'000.00 руб."]> ∅))) "1000";
        seller_price_of
          (<["Код" := PyStr "C"]> (<["Количество" := PyStr "1"]>
             (<["Цена" := PyStr "2'500.00 руб."]> ∅))) "2500" ].
Proof.
  exact (proj2 (integrations_agree scenario_feed ["A"; "B"; "C"] "w" "d")
           _ eq_refl).
Defined.

(** ** The scripted flows *)

Lemma seller_main_body_no_print net :
  io_spec (fun ev => is_print ev = false) (fun _ => True)
          (Seller.main_body net).
Proof.
  set (Q := fun ev : Seller.call => is_print ev = false).
  unfold Seller.main_body.
  apply (io_spec_bind Q (fun _ => True)); [by apply io_spec_get_offer_ids|].
  intros ids _.
  apply (io_spec_bind Q (fun _ => True)); [by apply io_spec_download_stock|].
  intros W _.
  destruct (Seller.create_stocks W ids) as [created left].
  apply (io_spec_bind Q (fun _ => True)); [by apply io_spec_lift|].
  intros stocks _.
  apply (io_spec_bind Q (fun batches => divide stocks 100 = inr batches));
    [by apply io_spec_lift|].
  intros stock_batches Hdiv.
  apply (io_spec_bind Q (fun _ => True));
    [by apply (io_spec_stock_batches Q net stocks 100)|].
  intros _ _.
  apply (io_spec_bind Q (fun _ => True)); [by apply io_spec_lift|].
  intros prices _.
  apply (io_spec_bind Q (fun batches => divide prices 900 = inr batches));
    [by apply io_spec_lift|].
  intros price_batches Hdiv'.
  by apply (io_spec_price_batches Q net prices 900).
Qed.

(** X12. An exception that a step of the [try] block of Ozon's [main]
    raises does not leave [main].  When the block has ended, by returning
    or by raising, after the calls of [log'], [main] returns.  It has then
    printed once, as its last action, if the block raised: the timeout
    message alone for [ReadTimeout], the exception with
    ["Ошибка соединения"] for [ConnectionError], the exception with
    ["ERROR_2"] for any other.  It has printed nothing if the block
    returned: the block itself never prints. *)
Theorem seller_main_catches net (log log' : list Seller.call)
    (outcome : exn + unit) :
  Seller.main_body net log = (outcome, log') ->
  Seller.main net log
  = (inr tt, log' ++ match outcome with
                     | inl e => [report e]
                     | inr _ => []
                     end) /\
  exists calls,
    log' = log ++ calls /\ Forall (fun ev => is_print ev = false) calls.
Proof.
  intros Hbody. unfold Seller.main. rewrite try_except_report, Hbody.
  destruct (seller_main_body_no_print net log) as (calls & Hlog & Hcalls & _).
  rewrite Hbody in Hlog. simpl in Hlog. split; [|by exists calls].
  destruct outcome as [e|[]]; [done|]. by rewrite app_nil_r.
Qed.

Lemma seller_main_catches_witness :
  Seller.main single_id_catalog []
  = (inr tt, [GetOfferIds; DownloadStock; Print (Some ValueError) "ERROR_2"]) /\
  exists calls,
    [GetOfferIds; DownloadStock] = ([] : list Seller.call) ++ calls /\
    Forall (fun ev => is_print ev = false) calls.
Proof.
  exact (seller_main_catches single_id_catalog [] [GetOfferIds; DownloadStock]
           (inl ValueError) eq_refl).
Defined.

(** X13. Ozon's [main] submits nothing when an early step fails: it
    fetches the catalog first and does not download the feed when the
    fetch raises; when the download raises, or when [create_stocks]
    raises on the feed, it has made these two calls only.  Each time it
    prints and returns. *)
Theorem seller_main_early_failure net (log : list Seller.call) :
  (forall e,
     catalog net log = inl e ->
     Seller.main net log = (inr tt, log ++ [GetOfferIds; report e])) /\
  (forall ids e,
     catalog net log = inr ids ->
     feed net (log ++ [GetOfferIds]) = inl e ->
     Seller.main net log
     = (inr tt, log ++ [GetOfferIds; DownloadStock; report e])) /\
  (forall ids W e left,
     catalog net log = inr ids ->
     feed net (log ++ [GetOfferIds]) = inr W ->
     Seller.create_stocks W ids = (inl e, left) ->
     Seller.main net log
     = (inr tt, log ++ [GetOfferIds; DownloadStock; report e])).
Proof.
  split; [|split].
  - intros e Hids. unfold Seller.main. rewrite try_except_report.
    unfold Seller.main_body, mbind, io_bind, get_offer_ids.
    rewrite Hids. by rewrite <- app_assoc.
  - intros ids e Hids Hfeed. unfold Seller.main. rewrite try_except_report.
    unfold Seller.main_body, mbind, io_bind, get_offer_ids, download_stock.
    rewrite Hids, Hfeed. by rewrite <- !app_assoc.
  - intros ids W e left Hids Hfeed Hcreated.
    unfold Seller.main. rewrite try_except_report.
    unfold Seller.main_body, mbind, io_bind, get_offer_ids, download_stock,
      lift.
    rewrite Hids, Hfeed, Hcreated. by rewrite <- !app_assoc.
Qed.

Lemma seller_main_early_failure_witness :
  Seller.main single_id_catalog []
  = (inr tt, [GetOfferIds; DownloadStock; report ValueError]).
Proof.
  destruct (seller_main_early_failure single_id_catalog []) as (_ & _ & Hbad).
  exact (Hbad ["A"] malformed_feed ValueError ["A"] eq_refl eq_refl eq_refl).
Defined.

Lemma market_stocks_warehouse wh date W ids stocks left :
  Market.create_stocks wh date W ids = (inr stocks, left) ->
  Forall (fun entry => Market.warehouseId entry = wh) stocks.
Proof.
  intros Hrun.
  destruct (market_seller_stocks _ _ _ _ _ _ Hrun) as (sstocks & _ & ->).
  apply Forall_forall. intros entry Hentry.
  by apply list_elem_of_fmap in Hentry as (sentry & -> & _).
Qed.

Lemma divide_Forall {A : Type} (P : A -> Prop) (lst : list A) (n : Z)
    (chunks : list (list A)) :
  0 < n -> divide lst n = inr chunks -> Forall P lst ->
  Forall (Forall P) chunks.
Proof.
  intros Hn. rewrite divide_chunks by done. intros [= <-] Hall.
  apply Forall_forall. intros chunk Hin.
  apply list_elem_of_In, in_map_iff in Hin as (k & <- & _).
  by apply Forall_take, Forall_drop.
Qed.

(** The calls of one campaign of Yandex Market's [main]: the catalog
    fetch, then submissions of stocks for that warehouse. *)
Lemma market_campaign_calls net W wh date (log : list Market.call) :
  exists batches,
    (MarketMain.campaign net W wh date log).2
    = log ++ GetOfferIds :: map UpdateStocks batches /\
    Forall (warehouse_batch wh) batches.
Proof.
  unfold MarketMain.campaign, mbind, io_bind, get_offer_ids, lift.
  destruct (catalog net log) as [e|ids].
  { exists []. by split. }
  destruct (Market.create_stocks wh date W ids) as [[e|stocks] left]
    eqn:Hcreated; cbn [fst].
  { exists []. by split. }
  destruct (divide_concat stocks 2000 ltac:(lia)) as (batches & Hdiv & _).
  rewrite Hdiv.
  destruct (for_each_log net UpdateStocks (update_stocks net)
              (fun _ _ => eq_refl) batches (log ++ [GetOfferIds])) as [k Hk].
  exists (take k batches). split.
  - destruct (for_each batches (update_stocks net) (log ++ [GetOfferIds]))
      as [[e|[]] log']; simpl in *; subst log'; by rewrite <- app_assoc.
  - apply Forall_take, Forall_forall. intros batch Hbatch. split.
    + pose proof (divide_length_le stocks 2000 batches ltac:(lia) Hdiv) as Hlen.
      by apply (proj1 (Forall_forall _ _) Hlen).
    + pose proof (divide_Forall _ stocks 2000 batches ltac:(lia) Hdiv
                    (market_stocks_warehouse _ _ _ _ _ _ Hcreated)) as Hwh.
      by apply (proj1 (Forall_forall _ _) Hwh).
Qed.

Lemma market_main_run net whf whd df dd (log : list Market.call) :
  MarketMain.main net whf whd df dd log
  = match feed net log with
    | inl e => (inl e, log ++ [DownloadStock])
    | inr W =>
        match MarketMain.campaign net W whf df (log ++ [DownloadStock]) with
        | (inl e, log') => (inr tt, log' ++ [report e])
        | (inr _, log') =>
            match MarketMain.campaign net W whd dd log' with
            | (inl e, log'') => (inr tt, log'' ++ [report e])
            | (inr x, log'') => (inr x, log'')
            end
        end
    end.
Proof.
  unfold MarketMain.main, mbind at 1, io_bind at 1, download_stock.
  destruct (feed net log) as [e|W]; [done|].
  rewrite try_except_report. unfold mbind, io_bind.
  by destruct (MarketMain.campaign net W whf df (log ++ [DownloadStock]))
    as [[e|[]] log'].
Qed.

(** X14. Yandex Market's [main] never submits a price: the coroutine
    that its two calls of [upload_prices] build is not awaited, so no
    run of [main] makes a price submission. *)
Theorem market_main_submits_no_price net
    (warehouse_fbs_id warehouse_dbs_id date_fbs date_dbs : string)
    (log : list Market.call) :
  exists new,
    new_calls (MarketMain.main net warehouse_fbs_id warehouse_dbs_id
                 date_fbs date_dbs) log new /\
    Forall (fun ev => is_update_price ev = false) new.
Proof.
  unfold new_calls. rewrite market_main_run.
  assert (Hstocks : forall batches : list (list Market.stock_entry),
            Forall (fun ev : Market.call => is_update_price ev = false)
                   (map UpdateStocks batches)).
  { intros batches. apply Forall_forall. intros ev Hev.
    by apply list_elem_of_fmap in Hev as (batch & -> & _). }
  destruct (feed net log) as [e|W].
  { exists [DownloadStock]. split; [done|]. by repeat constructor. }
  destruct (market_campaign_calls net W warehouse_fbs_id date_fbs
              (log ++ [DownloadStock])) as (fbs & Hfbs & _).
  destruct (MarketMain.campaign net W warehouse_fbs_id date_fbs
              (log ++ [DownloadStock])) as [[e|[]] log'];
    simpl in Hfbs; subst log'.
  { exists (DownloadStock :: GetOfferIds :: map UpdateStocks fbs ++ [report e]).
    split; [simpl; by repeat (rewrite <- app_assoc; simpl)|].
    repeat constructor. apply Forall_app. split; [apply Hstocks|].
    repeat constructor. by destruct e. }
  destruct (market_campaign_calls net W warehouse_dbs_id date_dbs
              ((log ++ [DownloadStock]) ++ GetOfferIds :: map UpdateStocks fbs))
    as (dbs & Hdbs & _).
  destruct (MarketMain.campaign net W warehouse_dbs_id date_dbs _)
    as [[e|[]] log'']; simpl in Hdbs; subst log''.
  - exists (DownloadStock :: GetOfferIds :: map UpdateStocks fbs ++
            GetOfferIds :: map UpdateStocks dbs ++ [report e]).
    split; [simpl; by repeat (rewrite <- app_assoc; simpl)|].
    repeat constructor. apply Forall_app. split; [apply Hstocks|].
    repeat constructor. apply Forall_app. split; [apply Hstocks|].
    repeat constructor. by destruct e.
  - exists (DownloadStock :: GetOfferIds :: map UpdateStocks fbs ++
            GetOfferIds :: map UpdateStocks dbs).
    split; [simpl; by repeat (rewrite <- app_assoc; simpl)|].
    repeat constructor. apply Forall_app. split; [apply Hstocks|].
    repeat constructor. apply Hstocks.
Qed.

(** X15. In Yandex Market's [main] the download of the feed stands
    before the [try]: when it raises, [main] raises with it, having
    printed nothing and fetched no catalog.  The step that follows is
    inside the [try]: when the catalog fetch of the FBS campaign raises,
    [main] prints the exception and returns, and the DBS campaign is not
    started. *)
Theorem market_main_download_escapes net
    (warehouse_fbs_id warehouse_dbs_id date_fbs date_dbs : string)
    (log : list Market.call) :
  (forall e,
     feed net log = inl e ->
     MarketMain.main net warehouse_fbs_id warehouse_dbs_id date_fbs date_dbs log
     = (inl e, log ++ [DownloadStock])) /\
  (forall W e,
     feed net log = inr W ->
     catalog net (log ++ [DownloadStock]) = inl e ->
     MarketMain.main net warehouse_fbs_id warehouse_dbs_id date_fbs date_dbs log
     = (inr tt, log ++ [DownloadStock; GetOfferIds; report e])).
Proof.
  split.
  - intros e Hfeed. by rewrite market_main_run, Hfeed.
  - intros W e Hfeed Hids. rewrite market_main_run, Hfeed.
    unfold MarketMain.campaign at 1, mbind, io_bind, get_offer_ids.
    rewrite Hids. by rewrite <- !app_assoc.
Qed.


Lemma market_main_download_escapes_witness :
  MarketMain.main market_feed_down "fbs" "dbs" "d1" "d2" []
  = (inl ReadTimeout, [DownloadStock]) /\
  MarketMain.main market_catalog_down "fbs" "dbs" "d1" "d2" []
  = (inr tt, [DownloadStock; GetOfferIds;
              Print (Some ConnectionError) "Ошибка соединения"]).
Proof.
  split.
  - exact (proj1 (market_main_download_escapes market_feed_down
                    "fbs" "dbs" "d1" "d2" []) ReadTimeout eq_refl).
  - exact (proj2 (market_main_download_escapes market_catalog_down
                    "fbs" "dbs" "d1" "d2" []) scenario_feed ConnectionError
                 eq_refl eq_refl).
Defined.


(** ** The catalog fetchers *)

Lemma cursors_lookup_next (pages : list SellerFetch.result) :
  cursors pages !! length pages = Some (next_cursor pages).
Proof.
  unfold cursors, next_cursor. destruct pages as [|q pages] using rev_ind;
    [done|].
  rewrite last_snoc, length_app, Nat.add_1_r. simpl.
  rewrite list_lookup_fmap, lookup_app_r by done.
  by rewrite Nat.sub_diag.
Qed.

Lemma cursors_take_all (pages : list SellerFetch.result) :
  take (Datatypes.S (length pages)) (cursors pages) = cursors pages.
Proof.
  apply take_ge. unfold cursors. simpl. by rewrite length_map.
Qed.

Lemma cursors_take_length (pages : list SellerFetch.result) (k : nat) :
  (k <= length pages)%nat -> length (take k (cursors pages)) = k.
Proof.
  intros Hk. rewrite length_take. unfold cursors. simpl.
  rewrite length_map. lia.
Qed.

Lemma received_step (pages : list SellerFetch.result) (k : nat) q more :
  pages !! k = Some q -> SellerFetch.items q = Some more ->
  received pages (Datatypes.S k) = received pages k ++ more.
Proof.
  intros Hq Hmore. unfold received.
  rewrite (take_S_r _ _ _ Hq), map_app, concat_app. simpl.
  unfold page_items at 2. rewrite Hmore. simpl. by rewrite app_nil_r.
Qed.

(** After [k] incomplete pages the loop is in the state that these pages
    determine, with [k] requests less to go. *)
Lemma seller_loop_after (server : SellerFetch.endpoint)
    (pages : list SellerFetch.result) :
  incomplete_pages server pages ->
  forall (k : nat) c (fuel : nat),
    (k <= length pages)%nat -> cursors pages !! k = Some c ->
    SellerFetch.get_offer_ids_loop (k + fuel) server [] (PyStr EmptyString) []
    = SellerFetch.get_offer_ids_loop fuel server (take k (cursors pages)) c
        (received pages k).
Proof.
  intros Hpages. induction k as [|k IH]; intros c fuel Hk Hc.
  - unfold cursors in Hc. simpl in Hc. by injection Hc as <-.
  - assert (Hlt : (k < length pages)%nat) by lia.
    destruct (lookup_lt_is_Some_2 pages k Hlt) as [q Hq].
    destruct (Hpages k q Hq) as (ck & more & Hck & Hserver & Hmore & Hneq).
    replace (Datatypes.S k + fuel)%nat with (k + Datatypes.S fuel)%nat by lia.
    rewrite (IH ck) by (done || lia).
    cbn [SellerFetch.get_offer_ids_loop].
    rewrite (cursors_take_length pages k) by lia.
    rewrite Hserver, Hmore.
    rewrite <- (received_step pages k q more Hq Hmore), Hneq.
    rewrite <- (take_S_r _ _ _ Hck).
    assert (Hnext : cursors pages !! Datatypes.S k = Some (SellerFetch.last_id q)).
    { unfold cursors. simpl. by rewrite list_lookup_fmap, Hq. }
    rewrite Hnext in Hc. by injection Hc as <-.
Qed.

Lemma seller_loop_after_all (server : SellerFetch.endpoint)
    (pages : list SellerFetch.result) (fuel : nat) :
  incomplete_pages server pages ->
  SellerFetch.get_offer_ids_loop (length pages + fuel) server []
    (PyStr EmptyString) []
  = SellerFetch.get_offer_ids_loop fuel server
      (take (length pages) (cursors pages)) (next_cursor pages)
      (concat (map page_items pages)).
Proof.
  intros Hpages.
  rewrite (seller_loop_after server pages Hpages (length pages)
             (next_cursor pages) fuel) by (done || apply cursors_lookup_next).
  unfold received. by rewrite firstn_all.
Qed.

Lemma cursors_snoc_next (pages : list SellerFetch.result) :
  take (length pages) (cursors pages) ++ [next_cursor pages] = cursors pages.
Proof.
  rewrite <- (take_S_r _ _ _ (cursors_lookup_next pages)).
  apply cursors_take_all.
Qed.

(** X17. Ozon's [get_offer_ids] asks for pages until the [total] of a
    response equals the number of products received.  When the server
    answers with pages that do not complete the count and then with one
    that does, it returns the ["offer_id"] of every product of these
    pages, in the order received, after one request for each page: the
    first sent with the empty [last_id], each next one with the [last_id]
    of the page before. *)
Theorem seller_get_offer_ids_returns (server : SellerFetch.endpoint)
    (pages : list SellerFetch.result) (p : SellerFetch.result)
    (more : list SellerFetch.product) (fuel : nat) :
  incomplete_pages server pages ->
  server (length pages) (next_cursor pages) = inr (Some p) ->
  SellerFetch.items p = Some more ->
  eq_int (SellerFetch.total p)
         (Z.of_nat (length (concat (map page_items pages) ++ more))) = true ->
  (length pages < fuel)%nat ->
  SellerFetch.get_offer_ids fuel server
  = Some (inr (map (get "offer_id") (concat (map page_items pages) ++ more)),
          cursors pages).
Proof.
  intros Hpages Hserver Hmore Htotal Hfuel.
  unfold SellerFetch.get_offer_ids.
  replace fuel with (length pages + Datatypes.S (fuel - length pages - 1))%nat
    by lia.
  rewrite (seller_loop_after_all server pages _ Hpages).
  cbn [SellerFetch.get_offer_ids_loop].
  rewrite (cursors_take_length pages (length pages)) by lia.
  rewrite Hserver, Hmore, Htotal. by rewrite cursors_snoc_next.
Qed.

Lemma seller_get_offer_ids_returns_witness :
  SellerFetch.get_offer_ids 2 two_pages
  = Some (inr [PyStr "A"; PyStr "B"; PyStr "C"], [PyStr ""; PyStr "x"]).
Proof.
  assert (Hpages : incomplete_pages two_pages [first_page]).
  { intros i q Hq. destruct i as [|i]; [|done]. injection Hq as <-.
    exists (PyStr EmptyString), [ {["offer_id" := PyStr "A"]};
                                  {["offer_id" := PyStr "B"]} ].
    by repeat split. }
  exact (seller_get_offer_ids_returns two_pages [first_page] second_page
           [ {["offer_id" := PyStr "C"]} ] 2 Hpages eq_refl eq_refl eq_refl
           (le_n 2)).
Defined.

(** X18. When a request of Ozon's [get_offer_ids] fails, the products of
    the pages received before it are lost: the exception is all that
    comes back.  The request may raise; its response may lack ["result"]
    ([AttributeError]) or ["items"] ([TypeError]). *)
Theorem seller_get_offer_ids_raises (server : SellerFetch.endpoint)
    (pages : list SellerFetch.result) (fuel : nat) :
  incomplete_pages server pages ->
  (length pages < fuel)%nat ->
  (forall e,
     server (length pages) (next_cursor pages) = inl e ->
     SellerFetch.get_offer_ids fuel server = Some (inl e, cursors pages)) /\
  (server (length pages) (next_cursor pages) = inr None ->
   SellerFetch.get_offer_ids fuel server
   = Some (inl AttributeError, cursors pages)) /\
  (forall p,
     server (length pages) (next_cursor pages) = inr (Some p) ->
     SellerFetch.items p = None ->
     SellerFetch.get_offer_ids fuel server
     = Some (inl TypeError, cursors pages)).
Proof.
  intros Hpages Hfuel.
  assert (Hstep : SellerFetch.get_offer_ids_loop fuel server []
                    (PyStr EmptyString) []
                  = SellerFetch.get_offer_ids_loop
                      (Datatypes.S (fuel - length pages - 1)) server
                      (take (length pages) (cursors pages)) (next_cursor pages)
                      (concat (map page_items pages))).
  { rewrite <- (seller_loop_after_all server pages _ Hpages).
    f_equal. lia. }
  unfold SellerFetch.get_offer_ids. rewrite Hstep.
  cbn [SellerFetch.get_offer_ids_loop].
  rewrite (cursors_take_length pages (length pages)) by lia.
  rewrite cursors_snoc_next.
  split; [|split].
  - by intros e ->.
  - by intros ->.
  - by intros p -> ->.
Qed.

Lemma seller_get_offer_ids_raises_witness :
  SellerFetch.get_offer_ids 5 second_request_times_out
  = Some (inl ReadTimeout, [PyStr ""; PyStr "x"]).
Proof.
  assert (Hpages : incomplete_pages second_request_times_out [first_page]).
  { intros i q Hq. destruct i as [|i]; [|done]. injection Hq as <-.
    exists (PyStr EmptyString), [ {["offer_id" := PyStr "A"]};
                                  {["offer_id" := PyStr "B"]} ].
    by repeat split. }
  assert (Hfuel : (length [first_page] < 5)%nat) by (simpl; lia).
  destruct (seller_get_offer_ids_raises second_request_times_out [first_page] 5
              Hpages Hfuel) as [Hraises _].
  exact (Hraises ReadTimeout eq_refl).
Defined.

Lemma total_below_differs (total : json) (n m : Z) :
  total_below total n -> n <= m -> eq_int total m = false.
Proof.
  destruct total as [|b|t|[sign|sign| |sign mant e]|s|]; simpl; try done;
    intros Hbelow Hm.
  - apply Z.eqb_neq. lia.
  - apply Z.eqb_neq. lia.
  - apply Z.eqb_neq. lia.
  - destruct (Z.leb_spec 0 e) as [He|He]; apply Z.eqb_neq; [lia|].
    assert (0 < 2 ^ (- e)) by (apply Z.pow_pos_nonneg; lia). nia.
Qed.

Lemma total_below_le (total : json) (n m : Z) :
  total_below total n -> n <= m -> total_below total m.
Proof.
  destruct total as [|b|t|[sign|sign| |sign mant e]|s|]; simpl; try done;
    intros Hbelow Hm; try lia.
  destruct (Z.leb_spec 0 e) as [He|He]; [lia|].
  assert (0 < 2 ^ (- e)) by (apply Z.pow_pos_nonneg; lia). nia.
Qed.

Lemma seller_loop_never_ends (server : SellerFetch.endpoint) (fuel : nat) :
  forall requests last_id product_list,
  (forall (n : nat) c, (length requests <= n)%nat ->
     exists q more,
       server n c = inr (Some q) /\ SellerFetch.items q = Some more /\
       total_below (SellerFetch.total q)
         (Z.of_nat (length product_list + length more))) ->
  SellerFetch.get_offer_ids_loop fuel server requests last_id product_list
  = None.
Proof.
  induction fuel as [|fuel IH]; intros requests last_id product_list Hserver;
    [done|].
  cbn [SellerFetch.get_offer_ids_loop].
  destruct (Hserver (length requests) last_id (le_n _))
    as (q & more & -> & -> & Htotal).
  rewrite (total_below_differs _ _ _ Htotal) by (rewrite length_app; lia).
  apply IH. intros n c Hn.
  rewrite length_app in Hn. simpl in Hn.
  destruct (Hserver n c ltac:(lia)) as (q' & more' & Hq' & Hmore' & Htotal').
  exists q', more'. split; [done|]. split; [done|].
  apply (total_below_le _ _ _ Htotal'). rewrite length_app. lia.
Qed.

Example eq_int_numbers :
  eq_int (JInt 3) 3 = true /\ eq_int (JBool true) 1 = true /\
  eq_int (JFloat (S754_finite false 3 0)) 3 = true /\
  eq_int (JFloat (S754_finite false 6 (-1))) 3 = true /\
  eq_int (JFloat (S754_finite false 7 (-1))) 3 = false /\
  eq_int (JStr "3") 3 = false /\ eq_int JNull 0 = false.
Proof. by repeat split. Qed.

(** X19. Ozon's [get_offer_ids] has no other way out of its loop than a
    [total] equal to the number of products received, where [==] compares
    numbers by value (3.0 and 3 are equal, [True] and 1 are).  From a
    state of the loop on, when every response reports a [total] below
    what has been received by then plus its own products, or a [total]
    that is no number, the loop never ends; from the start, this is so
    when every response reports less than it carries. *)
Theorem seller_get_offer_ids_never_ends (server : SellerFetch.endpoint) :
  (forall requests last_id product_list,
     (forall (n : nat) c, (length requests <= n)%nat ->
        exists q more,
          server n c = inr (Some q) /\ SellerFetch.items q = Some more /\
          total_below (SellerFetch.total q)
            (Z.of_nat (length product_list + length more))) ->
     forall fuel,
       SellerFetch.get_offer_ids_loop fuel server requests last_id product_list
       = None) /\
  ((forall (n : nat) c,
      exists q more,
        server n c = inr (Some q) /\ SellerFetch.items q = Some more /\
        total_below (SellerFetch.total q) (Z.of_nat (length more))) ->
   forall fuel, SellerFetch.get_offer_ids fuel server = None).
Proof.
  split.
  - intros requests last_id product_list Hserver fuel.
    by apply seller_loop_never_ends.
  - intros Hserver fuel. unfold SellerFetch.get_offer_ids.
    rewrite seller_loop_never_ends; [done|].
    intros n c _. exact (Hserver n c).
Qed.

Lemma seller_get_offer_ids_never_ends_witness :
  SellerFetch.get_offer_ids 1000 no_total = None.
Proof.
  destruct (seller_get_offer_ids_never_ends no_total) as [_ Hstart].
  apply Hstart. intros n c. by eexists _, [].
Defined.

Lemma tokens_lookup_next (pages : list MarketFetch.result) :
  tokens pages !! length pages = Some (next_token pages).
Proof.
  unfold tokens, next_token. destruct pages as [|q pages] using rev_ind;
    [done|].
  rewrite last_snoc, length_app, Nat.add_1_r. simpl.
  rewrite list_lookup_fmap, lookup_app_r by done.
  by rewrite Nat.sub_diag.
Qed.

Lemma tokens_take_length (pages : list MarketFetch.result) (k : nat) :
  (k <= length pages)%nat -> length (take k (tokens pages)) = k.
Proof.
  intros Hk. rewrite length_take. unfold tokens. simpl.
  rewrite length_map. lia.
Qed.

Lemma tokens_snoc_next (pages : list MarketFetch.result) :
  take (length pages) (tokens pages) ++ [next_token pages] = tokens pages.
Proof.
  rewrite <- (take_S_r _ _ _ (tokens_lookup_next pages)).
  apply take_ge. unfold tokens. simpl. by rewrite length_map.
Qed.

Lemma market_loop_after (server : MarketFetch.endpoint)
    (pages : list MarketFetch.result) :
  more_pages server pages ->
  forall (k : nat) c (fuel : nat),
    (k <= length pages)%nat -> tokens pages !! k = Some c ->
    MarketFetch.get_offer_ids_loop (k + fuel) server [] (PyStr EmptyString) []
    = MarketFetch.get_offer_ids_loop fuel server (take k (tokens pages)) c
        (concat (map page_entries (take k pages))).
Proof.
  intros Hpages. induction k as [|k IH]; intros c fuel Hk Hc.
  - unfold tokens in Hc. simpl in Hc. by injection Hc as <-.
  - assert (Hlt : (k < length pages)%nat) by lia.
    destruct (lookup_lt_is_Some_2 pages k Hlt) as [q Hq].
    destruct (Hpages k q Hq)
      as (ck & more & token & Hck & Hserver & Hmore & Hpaging & Htruthy).
    replace (Datatypes.S k + fuel)%nat with (k + Datatypes.S fuel)%nat by lia.
    rewrite (IH ck) by (done || lia).
    cbn [MarketFetch.get_offer_ids_loop].
    rewrite (tokens_take_length pages k) by lia.
    rewrite Hserver, Hmore, Hpaging, Htruthy.
    rewrite <- (take_S_r _ _ _ Hck).
    assert (Hnext : tokens pages !! Datatypes.S k = Some token).
    { unfold tokens. simpl. rewrite list_lookup_fmap, Hq. simpl.
      unfold page_token. by rewrite Hpaging. }
    rewrite Hnext in Hc. injection Hc as <-.
    rewrite (take_S_r _ _ _ Hq), map_app, concat_app. simpl.
    unfold page_entries at 3. rewrite Hmore. simpl. by rewrite app_nil_r.
Qed.

Lemma shop_skus_all (product_list : list MarketFetch.entry) :
  forall offer_ids,
  Forall (fun product => MarketFetch.offer product <> None) product_list ->
  MarketFetch.shop_skus product_list offer_ids
  = inr (offer_ids ++ map shop_sku product_list).
Proof.
  induction product_list as [|product rest IH]; intros offer_ids Hall; simpl.
  - by rewrite app_nil_r.
  - apply Forall_cons in Hall as [Hoffer Hrest].
    unfold shop_sku at 1.
    destruct (MarketFetch.offer product) as [fields|]; [|done].
    rewrite IH by done. by rewrite <- app_assoc.
Qed.

Lemma shop_skus_missing (product_list : list MarketFetch.entry) :
  forall offer_ids,
  Exists (fun product => MarketFetch.offer product = None) product_list ->
  MarketFetch.shop_skus product_list offer_ids = inl AttributeError.
Proof.
  induction product_list as [|product rest IH]; intros offer_ids Hsome;
    [by apply Exists_nil in Hsome|].
  simpl. destruct (MarketFetch.offer product) as [fields|] eqn:Hoffer; [|done].
  apply IH. apply Exists_cons in Hsome as [Hhere|Hrest]; [congruence|done].
Qed.

(** X20. Yandex Market's [get_offer_ids] asks for pages as long as a
    response names a next page.  When the server answers with pages that
    each name a next one and then with a page whose [nextPageToken] is
    missing or empty, every page has been requested once, with the token
    of the page before.  It then returns the ["shopSku"] of every entry,
    in the order received; when an entry has no ["offer"] it raises
    [AttributeError] instead, all pages fetched. *)
Theorem market_get_offer_ids_returns (server : MarketFetch.endpoint)
    (pages : list MarketFetch.result) (p : MarketFetch.result)
    (more : list MarketFetch.entry) (token : pyval) (fuel : nat) :
  more_pages server pages ->
  server (length pages) (next_token pages) = inr (Some p) ->
  MarketFetch.offerMappingEntries p = Some more ->
  MarketFetch.paging p = Some token ->
  truthy token = false ->
  (length pages < fuel)%nat ->
  let product_list := concat (map page_entries pages) ++ more in
  (Forall (fun product => MarketFetch.offer product <> None) product_list ->
   MarketFetch.get_offer_ids fuel server
   = Some (inr (map shop_sku product_list), tokens pages)) /\
  (Exists (fun product => MarketFetch.offer product = None) product_list ->
   MarketFetch.get_offer_ids fuel server
   = Some (inl AttributeError, tokens pages)).
Proof.
  intros Hpages Hserver Hmore Hpaging Hfalsy Hfuel product_list.
  assert (Hrun : MarketFetch.get_offer_ids_loop fuel server []
                   (PyStr EmptyString) []
                 = Some (inr product_list, tokens pages)).
  { replace fuel with (length pages + Datatypes.S (fuel - length pages - 1))%nat
      by lia.
    rewrite (market_loop_after server pages Hpages (length pages)
               (next_token pages))
      by (done || apply tokens_lookup_next).
    cbn [MarketFetch.get_offer_ids_loop].
    rewrite (tokens_take_length pages (length pages)) by lia.
    rewrite Hserver, Hmore, Hpaging, Hfalsy, firstn_all.
    by rewrite tokens_snoc_next. }
  unfold MarketFetch.get_offer_ids. rewrite Hrun. split.
  - intros Hall. by rewrite shop_skus_all.
  - intros Hsome. by rewrite shop_skus_missing.
Qed.

Lemma market_get_offer_ids_returns_witness :
  MarketFetch.get_offer_ids 2 market_listing
  = Some (inr [PyStr "A"; PyStr "B"], [PyStr ""; PyStr "next"]).
Proof.
  assert (Hpages : more_pages market_listing [market_first_page]).
  { intros i q Hq. destruct i as [|i]; [|done]. injection Hq as <-.
    exists (PyStr EmptyString),
      [ {| MarketFetch.offer := Some {["shopSku" := PyStr "A"]} |} ],
      (PyStr "next").
    by repeat split. }
  refine (proj1 (market_get_offer_ids_returns market_listing
                   [market_first_page]
                   (market_last_page
                      {| MarketFetch.offer := Some {["shopSku" := PyStr "B"]} |})
                   [ {| MarketFetch.offer := Some {["shopSku" := PyStr "B"]} |} ]
                   PyNone 2 Hpages eq_refl eq_refl eq_refl eq_refl (le_n 2)) _).
  by repeat constructor.
Defined.

Lemma market_loop_never_ends (server : MarketFetch.endpoint) (fuel : nat) :
  (forall (n : nat) c,
     exists q more token,
       server n c = inr (Some q) /\
       MarketFetch.offerMappingEntries q = Some more /\
       MarketFetch.paging q = Some token /\ truthy token = true) ->
  forall requests page product_list,
  MarketFetch.get_offer_ids_loop fuel server requests page product_list = None.
Proof.
  intros Hserver. induction fuel as [|fuel IH];
    intros requests page product_list; [done|].
  cbn [MarketFetch.get_offer_ids_loop].
  destruct (Hserver (length requests) page)
    as (q & more & token & -> & -> & -> & ->).
  apply IH.
Qed.

(** X21. Yandex Market's [get_offer_ids] has no other way out of its
    loop than a response without a next page token: when every response
    names a next page, the loop never ends. *)
Theorem market_get_offer_ids_never_ends (server : MarketFetch.endpoint) :
  (forall (n : nat) c,
     exists q more token,
       server n c = inr (Some q) /\
       MarketFetch.offerMappingEntries q = Some more /\
       MarketFetch.paging q = Some token /\ truthy token = true) ->
  forall fuel, MarketFetch.get_offer_ids fuel server = None.
Proof.
  intros Hserver fuel. unfold MarketFetch.get_offer_ids.
  by rewrite market_loop_never_ends.
Qed.

Lemma market_get_offer_ids_never_ends_witness :
  MarketFetch.get_offer_ids 1000 endless_listing = None.
Proof.
  apply (market_get_offer_ids_never_ends endless_listing).
  intros n c. by eexists _, _, _.
Defined.

(** ** What the other uploads have submitted *)

Lemma market_not_empty_filter (stocks : list Market.stock_entry) :
  Forall (fun entry => Market.items entry <> []) stocks ->
  foldr (fun entry kept =>
           kept ← kept;
           first ← index (Market.items entry) 0;
           mret (if bool_decide (Market.count first ≠ 0)
                 then entry :: kept else kept))
        (inr []) stocks
  = inr (filter (fun entry => first_count entry ≠ 0) stocks).
Proof.
  induction 1 as [|entry stocks Hitems _ IH]; [done|].
  cbn [foldr]. rewrite IH. cbn [mbind exn_bind].
  destruct (Market.items entry) as [|first rest] eqn:Hfirst; [done|].
  assert (Hcount : first_count entry = Market.count first)
    by (unfold first_count; by rewrite Hfirst).
  rewrite filter_cons, Hcount. unfold index.
  cbn [lookup list_lookup mbind exn_bind mret exn_ret].
  case_bool_decide; by case_decide.
Qed.

Lemma market_stocks_one_item wh date W ids stocks left :
  Market.create_stocks wh date W ids = (inr stocks, left) ->
  Forall (fun entry => Market.items entry <> []) stocks.
Proof.
  intros Hrun.
  destruct (market_seller_stocks _ _ _ _ _ _ Hrun) as (sstocks & _ & ->).
  apply Forall_forall. intros entry Hentry.
  by apply list_elem_of_fmap in Hentry as (sentry & -> & _).
Qed.

(** X22. When Yandex Market's [upload_stocks] has fetched the catalog,
    built the stock list and submitted every batch of
    [divide(stocks, 2000)], it returns: reading the first item of each
    entry to build [not_empty] cannot raise, every entry having one.
    [not_empty] holds the entries whose count is not 0, and the ids of
    [stocks] are a permutation of the catalog list. *)
Theorem market_upload_stocks_returns net (date : string)
    (watch_remnants : list watch) (warehouse_id : string)
    (log log' : list Market.call) (offer_ids left : list string)
    (stocks : list Market.stock_entry)
    (batches : list (list Market.stock_entry)) :
  catalog net log = inr offer_ids ->
  Market.create_stocks warehouse_id date watch_remnants offer_ids
  = (inr stocks, left) ->
  divide stocks 2000 = inr batches ->
  for_each batches (update_stocks net) (log ++ [GetOfferIds]) = (inr tt, log') ->
  Market.upload_stocks net date watch_remnants warehouse_id log
  = (inr (filter (fun entry => first_count entry ≠ 0) stocks, stocks),
     log ++ GetOfferIds :: map UpdateStocks batches) /\
  concat batches = stocks /\
  map Market.sku stocks ≡ₚ offer_ids.
Proof.
  intros Hids Hcreated Hdiv Hloop.
  pose proof (for_each_returns net UpdateStocks (update_stocks net)
                (fun _ _ => eq_refl) _ _ _ Hloop) as Hlog.
  split; [|split].
  - unfold Market.upload_stocks, mbind at 1 2 3 4 5, io_bind, get_offer_ids,
      lift.
    rewrite Hids, Hcreated. cbn [fst]. rewrite Hdiv, Hloop.
    rewrite (market_not_empty_filter stocks)
      by apply (market_stocks_one_item _ _ _ _ _ _ Hcreated).
    rewrite Hlog. by rewrite <- app_assoc.
  - destruct (divide_concat stocks 2000 ltac:(lia)) as (batches' & Hdiv' & Hc).
    congruence.
  - destruct (market_seller_stocks _ _ _ _ _ _ Hcreated) as (sstocks & Hs & ->).
    destruct (seller_create_stocks_shape _ _ _ _ Hs)
      as (matched & -> & Hperm & _).
    rewrite map_map. simpl.
    by rewrite map_app, map_map, map_id.
Qed.

Lemma market_upload_stocks_returns_witness :
  exists stocks batches,
    Market.upload_stocks market_scenario "d" scenario_feed "w" []
    = (inr (filter (fun entry => first_count entry ≠ 0) stocks, stocks),
       [] ++ GetOfferIds :: map UpdateStocks batches) /\
    concat batches = stocks /\
    map Market.sku stocks ≡ₚ ["A"; "B"; "C"].
Proof.
  eexists _, _.
  exact (market_upload_stocks_returns market_scenario "d" scenario_feed "w"
           [] _ ["A"; "B"; "C"] ["B"] _ _ eq_refl eq_refl eq_refl eq_refl).
Defined.

(** X23. When [upload_prices] returns, for Ozon as for Yandex Market, the
    calls it has made are the catalog fetch followed by one submission for
    each batch of [divide(prices, 1000)] (Ozon) or [divide(prices, 500)]
    (Yandex Market), in order; the batches put end to end are the list it
    returns, which is what [create_prices] builds from the catalog just
    fetched. *)
Theorem upload_prices_submits_all (watch_remnants : list watch) :
  (forall net (log log' : list Seller.call) prices,
     Seller.upload_prices net watch_remnants log = (inr prices, log') ->
     exists offer_ids batches,
       catalog net log = inr offer_ids /\
       Seller.create_prices watch_remnants offer_ids = inr prices /\
       divide prices 1000 = inr batches /\
       log' = log ++ GetOfferIds :: map UpdatePrice batches /\
       concat batches = prices) /\
  (forall net (log log' : list Market.call) prices,
     Market.upload_prices net watch_remnants log = (inr prices, log') ->
     exists offer_ids batches,
       catalog net log = inr offer_ids /\
       Market.create_prices watch_remnants offer_ids = inr prices /\
       divide prices 500 = inr batches /\
       log' = log ++ GetOfferIds :: map UpdatePrice batches /\
       concat batches = prices).
Proof.
  split.
  - intros net log log' prices.
    unfold Seller.upload_prices, mbind, io_bind, get_offer_ids, lift.
    destruct (catalog net log) as [e|ids] eqn:Hids; [done|].
    destruct (Seller.create_prices watch_remnants ids) as [e|created]
      eqn:Hcreated; [done|].
    destruct (divide_concat created 1000 ltac:(lia)) as (batches & Hdiv & Hc).
    rewrite Hdiv.
    destruct (for_each batches (update_price net) (log ++ [GetOfferIds]))
      as [[e|[]] log''] eqn:Hloop; [done|].
    intros [= <- <-]. exists ids, batches. repeat split; try done.
    rewrite (for_each_returns net UpdatePrice (update_price net)
               (fun _ _ => eq_refl) _ _ _ Hloop).
    by rewrite <- app_assoc.
  - intros net log log' prices.
    unfold Market.upload_prices, mbind, io_bind, get_offer_ids, lift.
    destruct (catalog net log) as [e|ids] eqn:Hids; [done|].
    destruct (Market.create_prices watch_remnants ids) as [e|created]
      eqn:Hcreated; [done|].
    destruct (divide_concat created 500 ltac:(lia)) as (batches & Hdiv & Hc).
    rewrite Hdiv.
    destruct (for_each batches (update_price net) (log ++ [GetOfferIds]))
      as [[e|[]] log''] eqn:Hloop; [done|].
    intros [= <- <-]. exists ids, batches. repeat split; try done.
    rewrite (for_each_returns net UpdatePrice (update_price net)
               (fun _ _ => eq_refl) _ _ _ Hloop).
    by rewrite <- app_assoc.
Qed.

Lemma upload_prices_submits_all_witness :
  exists offer_ids batches,
    catalog market_scenario [] = inr offer_ids /\
    Market.create_prices scenario_feed offer_ids
    = inr [ {| Market.id := "A";
               Market.price := {| Market.value := 1000;
                                  Market.currencyId := "RUR" |} |};
            {| Market.id := "C";
               Market.price := {| Market.value := 2500;
                                  Market.currencyId := "RUR" |} |} ] /\
    divide [ {| Market.id := "A";
                Market.price := {| Market.value := 1000;
                                   Market.currencyId := "RUR" |} |};
             {| Market.id := "C";
                Market.price := {| Market.value := 2500;
                                   Market.currencyId := "RUR" |} |} ] 500
    = inr batches /\
    [ GetOfferIds;
      UpdatePrice [ {| Market.id := "A";
                       Market.price := {| Market.value := 1000;
                                          Market.currencyId := "RUR" |} |};
                    {| Market.id := "C";
                       Market.price := {| Market.value := 2500;
                                          Market.currencyId := "RUR" |} |} ] ]
    = ([] : list Market.call) ++ GetOfferIds :: map UpdatePrice batches /\
    concat batches
    = [ {| Market.id := "A";
           Market.price := {| Market.value := 1000;
                              Market.currencyId := "RUR" |} |};
        {| Market.id := "C";
           Market.price := {| Market.value := 2500;
                              Market.currencyId := "RUR" |} |} ].
Proof.
  destruct (upload_prices_submits_all scenario_feed) as [_ Hmarket].
  exact (Hmarket market_scenario [] _ _ eq_refl).
Defined.
